(** * extractor-backend: PDF classification, mode policy and the footnote pipeline

    A shallow embedding of [src/word_processor.py] and [src/pdf_processor.py].
    Python [str] values are lists of Unicode code points, the [re] patterns
    of the source are written in a small pattern language executed by a
    backtracking matcher, the [dict] of footnotes is an insertion-ordered
    association list, and the external libraries (PyMuPDF, Spire.Doc, the
    three extraction engines) are interfaces. *)

From Stdlib Require Import List NArith ZArith Arith Bool Lia String Ascii.
From Stdlib Require Import DecimalString PrimFloat.
From Stdlib Require Uint63.
Import ListNotations.

#[local] Set Warnings "-inexact-float".

Set Implicit Arguments.

(** ** Python strings *)

Module Py.

Definition char := N.
Bind Scope N_scope with char.
Definition str := list char.

(** An ASCII literal of the source as a list of code points. *)
Definition py (s : string) : str := map N_of_ascii (list_ascii_of_string s).

Definition nl : char := 10%N.

Definition in_range (lo hi c : char) : bool := ((lo <=? c) && (c <=? hi))%N.

(** [str.isspace] for one character, which is also what [\s] matches in a
    [str] pattern and what [str.strip()] removes. *)
Definition isspace (c : char) : bool :=
  (in_range 9 13 c || in_range 28 32 c || (c =? 133) || (c =? 160)
   || (c =? 5760) || in_range 8192 8202 c || in_range 8232 8233 c
   || (c =? 8239) || (c =? 8287) || (c =? 12288))%N.

(** First code points of the runs of ten decimal digits (Unicode category
    Nd), the characters [\d] matches in a [str] pattern.  The mathematical
    digits U+1D7CE..U+1D7FF form one run of fifty. *)
Definition digit_runs : list N :=
  [48; 1632; 1776; 1984; 2406; 2534; 2662; 2790; 2918; 3046; 3174; 3302;
   3430; 3558; 3664; 3792; 3872; 4160; 4240; 6112; 6160; 6470; 6608; 6784;
   6800; 6992; 7088; 7232; 7248; 42528; 43216; 43264; 43472; 43504; 43600;
   44016; 65296; 66720; 68912; 69734; 69872; 69942; 70096; 70384; 70736;
   70864; 71248; 71360; 71472; 71904; 72016; 72784; 73040; 73120; 92768;
   92864; 93008; 123200; 123632; 125264; 130032]%N.

Definition isdecimal (c : char) : bool :=
  existsb (fun lo => in_range lo (lo + 9)%N c) digit_runs
  || in_range 120782%N 120831%N c.

Fixpoint str_eqb (a b : str) : bool :=
  match a, b with
  | [], [] => true
  | x :: a', y :: b' => (x =? y)%N && str_eqb a' b'
  | _, _ => false
  end.

(** [str.lstrip()], [str.rstrip()] and [str.strip()] without argument. *)
Fixpoint lstrip (t : str) : str :=
  match t with
  | c :: t' => if isspace c then lstrip t' else t
  | [] => []
  end.

Definition rstrip (t : str) : str := rev (lstrip (rev t)).

Definition strip (t : str) : str := rstrip (lstrip t).

(** [text[a:b]] for [a <= b]. *)
Definition slice (t : str) (a b : nat) : str := firstn (b - a) (skipn a t).

End Py.

(** ** The [re] patterns of the source *)

Module Re.
Import Py.

(** The patterns of the source are sequences of these items: every
    repetition in them is over a single-character class and unbounded
    above, and groups are not nested. *)
Inductive node : Type :=
| Lit (c : char)                            (* an escaped or plain character *)
| Cls (p : char -> bool)                    (* a class: [\s], [\d], [.], [[...]] *)
| Rep (lazy : bool) (min : nat) (p : char -> bool)
                                            (* [p*], [p+], [p{n,}]; lazy: [p*?] *)
| Bol                                       (* [^] under re.MULTILINE *)
| Eol                                       (* [$] under re.MULTILINE *)
| Mark.                                     (* a group boundary *)

Definition regex := list node.

(** What the matcher threads along: the character before the cursor
    ([None] at the start of the text), the rest of the text, the cursor's
    offset, and the group boundaries passed so far, last first. *)
Definition cont (R : Type) := option char -> str -> nat -> list nat -> option R.

(** Greedy repetition: take as many characters as the class allows, then
    give them back one at a time until the rest of the pattern matches. *)
Fixpoint rep_greedy (R : Type) (p : char -> bool) (min : nat) (k : cont R)
  (prev : option char) (s : str) (pos : nat) (mk : list nat) : option R :=
  let stop := match min with O => k prev s pos mk | S _ => None end in
  match s with
  | x :: s' =>
      if p x then
        match rep_greedy p (pred min) k (Some x) s' (S pos) mk with
        | Some r => Some r
        | None => stop
        end
      else stop
  | [] => stop
  end.

(** Lazy repetition: try the rest of the pattern first, take one more
    character only when it fails. *)
Fixpoint rep_lazy (R : Type) (p : char -> bool) (min : nat) (k : cont R)
  (prev : option char) (s : str) (pos : nat) (mk : list nat) : option R :=
  let more :=
    match s with
    | x :: s' => if p x then rep_lazy p (pred min) k (Some x) s' (S pos) mk else None
    | [] => None
    end in
  match min with
  | O => match k prev s pos mk with Some r => Some r | None => more end
  | S _ => more
  end.

(** One match attempt at the cursor: the end offset and the group
    boundaries of the first match in backtracking order. *)
Fixpoint exec (r : regex) : cont (nat * list nat) :=
  match r with
  | [] => fun _ _ pos mk => Some (pos, mk)
  | n :: r' =>
      let k := exec r' in
      match n with
      | Lit c => fun _ s pos mk =>
          match s with
          | x :: s' => if (x =? c)%N then k (Some x) s' (S pos) mk else None
          | [] => None
          end
      | Cls p => fun _ s pos mk =>
          match s with
          | x :: s' => if p x then k (Some x) s' (S pos) mk else None
          | [] => None
          end
      | Rep false min p => rep_greedy p min k
      | Rep true min p => rep_lazy p min k
      | Bol => fun prev s pos mk =>
          match prev with
          | None => k prev s pos mk
          | Some c => if (c =? nl)%N then k prev s pos mk else None
          end
      | Eol => fun prev s pos mk =>
          match s with
          | [] => k prev s pos mk
          | x :: _ => if (x =? nl)%N then k prev s pos mk else None
          end
      | Mark => fun prev s pos mk => k prev s pos (pos :: mk)
      end
  end.

(** A match object: [m.start()], [m.end()] and the group boundaries in
    pattern order. *)
Record rmatch : Type := { m_start : nat; m_end : nat; m_marks : list nat }.

(** [re.finditer]: non-overlapping matches from left to right.  [skip]
    counts the characters of the previous match still to be passed.  After
    an empty match the scan moves on by one character; no pattern of the
    source matches both the empty text and a non-empty one. *)
Fixpoint finditer_from (r : regex) (prev : option char) (s : str)
  (at_ skip : nat) {struct s} : list rmatch :=
  match skip with
  | S n =>
      match s with
      | x :: s' => finditer_from r (Some x) s' (S at_) n
      | [] => []
      end
  | O =>
      match exec r prev s at_ [] with
      | Some (e, mk) =>
          {| m_start := at_; m_end := e; m_marks := rev mk |} ::
          match s with
          | x :: s' => finditer_from r (Some x) s' (S at_) (pred (e - at_))
          | [] => []
          end
      | None =>
          match s with
          | x :: s' => finditer_from r (Some x) s' (S at_) 0
          | [] => []
          end
      end
  end.

Definition finditer (r : regex) (t : str) : list rmatch :=
  finditer_from r None t 0 0.

(** [m.group()] and [m.group(i)] for [i >= 1], on the text searched. *)
Definition group0 (t : str) (m : rmatch) : str := slice t (m_start m) (m_end m).

Definition group (i : nat) (t : str) (m : rmatch) : str :=
  slice t (nth (2 * i - 2) (m_marks m) 0) (nth (2 * i - 1) (m_marks m) 0).

(** [re.sub(r, repl, s)] for a replacement text without group references. *)
Fixpoint sub_from (r : regex) (repl : str) (prev : option char) (s : str)
  (skip : nat) {struct s} : str :=
  match skip with
  | S n =>
      match s with
      | x :: s' => sub_from r repl (Some x) s' n
      | [] => []
      end
  | O =>
      match exec r prev s 0 [] with
      | Some (S e, _) =>
          repl ++ match s with
                  | x :: s' => sub_from r repl (Some x) s' e
                  | [] => []
                  end
      | Some (O, _) =>
          repl ++ match s with
                  | x :: s' => x :: sub_from r repl (Some x) s' 0
                  | [] => []
                  end
      | None =>
          match s with
          | x :: s' => x :: sub_from r repl (Some x) s' 0
          | [] => []
          end
      end
  end.

Definition sub (r : regex) (repl : str) (t : str) : str :=
  sub_from r repl None t 0.

(** [re.search(r, s) is not None]. *)
Fixpoint search_from (r : regex) (prev : option char) (s : str) : bool :=
  match exec r prev s 0 [] with
  | Some _ => true
  | None =>
      match s with
      | x :: s' => search_from r (Some x) s'
      | [] => false
      end
  end.

Definition search (r : regex) (t : str) : bool := search_from r None t.

(** [re.escape(s)] compiled: the text itself, character by character. *)
Definition escape (t : str) : regex := map Lit t.

(** [.] without re.DOTALL, and with it. *)
Definition dot (c : char) : bool := negb (c =? nl)%N.
Definition dotall (c : char) : bool := true.

End Re.

(** ** A Python [dict] with [str] keys, and a [set] of [str] *)

Module Dict.
Import Py.

(** Insertion-ordered, as [dict.items()] iterates: a new key goes last,
    an existing key keeps its place and takes the new value. *)
Definition dict := list (str * str).

Fixpoint get (k : str) (d : dict) : option str :=
  match d with
  | (k', v) :: d' => if str_eqb k k' then Some v else get k d'
  | [] => None
  end.

Definition contains (k : str) (d : dict) : bool :=
  match get k d with Some _ => true | None => false end.

Fixpoint set (k v : str) (d : dict) : dict :=
  match d with
  | (k', v') :: d' => if str_eqb k k' then (k', v) :: d' else (k', v') :: set k v d'
  | [] => [(k, v)]
  end.

(** A [set] of strings: [in], [add] and [len]. *)
Definition strset := list str.

Definition mem (k : str) (s : strset) : bool := existsb (str_eqb k) s.

Definition add (k : str) (s : strset) : strset := if mem k s then s else s ++ [k].

End Dict.

(** ** [src/word_processor.py]: the text functions of [WordProcessor] *)

Module WordProcessor.
Import Py Re.

(** [str.maketrans("٠١٢٣٤٥٦٧٨٩", "0123456789")] applied to one
    character: U+0660..U+0669 go to U+0030..U+0039. *)
Definition trans (c : char) : char :=
  if in_range 1632 1641 c then (c - 1632 + 48)%N else c.

(** [[‎‏‪-‮]] *)
Definition invisible_mark (c : char) : bool :=
  ((c =? 8206) || (c =? 8207))%N || in_range 8234 8238 c.

Definition normalize_arabic_text (text : str) : str :=
  let text := map trans text in
  sub [Cls invisible_mark] [] text.

(** [^\s*\((\d+)\)\s*(.+)$] with re.MULTILINE *)
Definition footnote_pattern : regex :=
  [Bol; Rep false 0 isspace; Lit 40; Mark; Rep false 1 isdecimal; Mark; Lit 41;
   Rep false 0 isspace; Mark; Rep false 1 dot; Mark; Eol]%N.

Definition extract_footnotes (text : str) : Dict.dict :=
  fold_left
    (fun footnotes m =>
       let num := group 1 text m in
       let footnote_text := strip (group 2 text m) in
       Dict.set num footnote_text footnotes)
    (finditer footnote_pattern text) [].

Definition remove_footnote_content_from_main (text : str) (footnotes : Dict.dict) : str :=
  let cleaned_text :=
    fold_left
      (fun cleaned_text item => sub (escape (snd item)) [] cleaned_text)
      footnotes text in
  let cleaned_text := sub [Rep false 3 (N.eqb nl)] [nl; nl] cleaned_text in
  let cleaned_text := sub [Rep false 1 (N.eqb 32)] [32%N] cleaned_text in
  strip cleaned_text.

Definition clean_markdown_text (text : str) : str :=
  let cleaned :=
    sub ([Lit 60; Lit 33; Lit 45; Lit 45; Rep true 0 dotall; Lit 45; Lit 45; Lit 62]%N)
        [] text in
  let cleaned := sub [Rep false 3 (N.eqb 45)] [] cleaned in
  let cleaned := sub [Rep false 2 (N.eqb nl)] [nl; nl] cleaned in
  strip cleaned.

(** [[؀-ۿ]] *)
Definition detect_arabic_text (text : str) : bool :=
  search [Cls (in_range 1536 1791)] text.

(** [\(\s*(\d+)\s*\)] *)
Definition inline_ref_pattern : regex :=
  [Lit 40; Rep false 0 isspace; Mark; Rep false 1 isdecimal; Mark;
   Rep false 0 isspace; Lit 41]%N.

End WordProcessor.

(** ** Exceptions *)

(** A call that may raise returns the exception's message on the left. *)
Definition exc (A : Type) : Type := (string + A)%type.

Definition bind (A B : Type) (c : exc A) (f : A -> exc B) : exc B :=
  match c with
  | inl e => inl e
  | inr a => f a
  end.

Notation "x <- c ;; k" := (bind c (fun x => k))
  (at level 61, c at next level, right associativity).

(** ** [pathlib] on a POSIX system *)

Module Pathlib.

(** [s.split("/")] *)
Fixpoint split (s : string) : list string :=
  match s with
  | EmptyString => [EmptyString]
  | String c s' =>
      if Ascii.eqb c "/" then EmptyString :: split s'
      else match split s' with
           | p :: ps => String c p :: ps
           | [] => [String c EmptyString]
           end
  end.

(** The components of a path: what stands between the slashes, without
    the empty components and the "." components. *)
Definition parts (s : string) : list string :=
  filter (fun p => negb (String.eqb p "" || String.eqb p ".")) (split s).

(** The root of a path: "/" when it begins with one slash or with three
    or more, "//" when it begins with exactly two, "" otherwise. *)
Definition root (s : string) : string :=
  match s with
  | String "/" (String "/" (String "/" _)) => "/"
  | String "/" (String "/" _) => "//"
  | String "/" _ => "/"
  | _ => ""
  end.

Record PurePosixPath : Type := { p_root : string; p_parts : list string }.

(** [Path(s)] *)
Definition Path (s : string) : PurePosixPath :=
  {| p_root := root s; p_parts := parts s |}.

(** [a / b] for a path [a] and a [str] [b]: [b] replaces [a] when it is
    absolute. *)
Definition joinpath (a : PurePosixPath) (b : string) : PurePosixPath :=
  match root b with
  | EmptyString => {| p_root := p_root a; p_parts := p_parts a ++ parts b |}
  | _ => Path b
  end.

(** [str(a)] *)
Definition to_str (a : PurePosixPath) : string :=
  match p_root a, p_parts a with
  | EmptyString, [] => "."
  | r, ps => r ++ String.concat "/" ps
  end.

End Pathlib.

(** ** Spire.Doc, the target document of [process_to_word] *)

Module Spire.
Import Py.

(** What [process_to_word] asks of the library.  [AppendText] stands for
    [Document()], [AddSection()], [AddParagraph()],
    [paragraph.AppendText(main_text)] and the setting of the paragraph
    format; [FindString d s] for [d.FindString(s, False, True)], [None]
    when the text is not located; [AppendFootnote] for the block that
    turns a located selection into a footnote with the given body (lines
    113 to 129); [SaveToFile] for [document.SaveToFile] and
    [document.Close()]. *)
Class Document (D Sel : Type) : Type := {
  AppendText : str -> exc D;
  FindString : D -> str -> option Sel;
  AppendFootnote : D -> Sel -> str -> exc D;
  SaveToFile : D -> string -> exc unit
}.

End Spire.

(** ** [src/word_processor.py]: [WordProcessor.process_to_word] *)

Module WordExport.
Import Py Re WordProcessor Spire.

(** One footnote put into the target document: the reference number, the
    marker text that was located, and the body. *)
Record insertion : Type := { i_num : str; i_marker : str; i_body : str }.

Record word_result : Type := {
  word_file : string;
  footnotes_count : nat;
  total_footnotes_detected : nat;
  language : string
}.

Inductive outcome : Type :=
| Success (r : word_result)                  (* {"success": True, ...} *)
| Failure (error : string).                  (* {"success": False, "error": ...} *)

Definition nat_to_string (n : nat) : string := NilEmpty.string_of_uint (Nat.to_uint n).

Section WithDocument.
Context {D Sel : Type} {TD : Document D Sel}.

(** [Path(output_dir).mkdir(exist_ok=True)] on the disk of the request:
    [inl] when it raises, as it does when the parent directory is missing
    or the path is a file. *)
Variable mkdir : string -> exc unit.

(** The state of the loop of step 5; [inserted] is not a variable of the
    source: it records the footnotes the loop has put into the document. *)
Record loop_state : Type := {
  document : D;
  inserted_refs : Dict.strset;
  inserted : list insertion
}.

(** The body of [for match in inline_ref_pattern.finditer(main_text)]. *)
Definition insert_step (main_text : str) (footnotes : Dict.dict)
  (st : loop_state) (m : rmatch) : exc loop_state :=
  let num := group 1 main_text m in
  if negb (Dict.contains num footnotes) || Dict.mem num (inserted_refs st) then inr st
  else
    let refs := Dict.add num (inserted_refs st) in
    match Dict.get num footnotes with
    | None => inl "KeyError"%string
    | Some note_text =>
        match FindString (document st) (group0 main_text m) with
        | Some selection =>
            d <- AppendFootnote (document st) selection note_text ;;
            inr {| document := d; inserted_refs := refs;
                   inserted := inserted st ++
                     [{| i_num := num; i_marker := group0 main_text m;
                         i_body := note_text |}] |}
        | None =>
            inr {| document := document st; inserted_refs := refs;
                   inserted := inserted st |}
        end
    end.

Fixpoint insert_loop (main_text : str) (footnotes : Dict.dict)
  (ms : list rmatch) (st : loop_state) : exc loop_state :=
  match ms with
  | [] => inr st
  | m :: ms' =>
      st' <- insert_step main_text footnotes st m ;;
      insert_loop main_text footnotes ms' st'
  end.

(** Step 5: insert the Word footnotes into a document holding [main_text]. *)
Definition insert_footnotes (main_text : str) (footnotes : Dict.dict) (d : D)
  : exc loop_state :=
  insert_loop main_text footnotes (finditer inline_ref_pattern main_text)
    {| document := d; inserted_refs := []; inserted := [] |}.

(** The [try] block of [process_to_word]. *)
Definition process_to_word_body (markdown_content : str) (output_dir language : string)
  : exc (word_result * loop_state) :=
  _ <- mkdir output_dir ;;
  let clean_text := clean_markdown_text markdown_content in
  let footnotes := extract_footnotes clean_text in
  let main_text := remove_footnote_content_from_main clean_text footnotes in
  d <- AppendText main_text ;;
  let RightToLeft :=
    String.eqb language "rtl"
    || (String.eqb language "auto" && detect_arabic_text main_text) in
  st <- insert_footnotes main_text footnotes d ;;
  let output_file :=
    Pathlib.to_str
      (Pathlib.joinpath (Pathlib.Path output_dir)
         ("processed_document_" ++ nat_to_string (List.length (inserted_refs st))
            ++ "_footnotes.docx")) in
  _ <- SaveToFile (document st) output_file ;;
  inr ({| word_file := output_file;
          footnotes_count := List.length (inserted_refs st);
          total_footnotes_detected := List.length footnotes;
          language := if RightToLeft then "rtl"%string else "ltr"%string |}, st).

Definition process_to_word (markdown_content : str) (output_dir language : string)
  : outcome :=
  match process_to_word_body markdown_content output_dir language with
  | inr (r, _) => Success r
  | inl e => Failure ("Word processing failed: " ++ e)
  end.

End WithDocument.

End WordExport.

(** ** PyMuPDF, the document handle of [detect_pdf_type] *)

Module Fitz.
Import Py.

(** One tuple of [page.get_text("blocks")]: its length, the area
    [abs(fitz.Rect(block[:4]))], [block[6]] and [block[4]].  A Python
    [float] is an IEEE 754 binary64 number, as [PrimFloat.float] is. *)
Record block : Type := {
  b_len : nat;
  b_area : float;
  b_type : Z;
  b_text : str
}.

(** A page: [abs(page.rect)], its blocks and [len(page.get_fonts())]. *)
Record page : Type := {
  page_area : float;
  blocks : list block;
  fonts : nat
}.

(** A document is its pages; a page whose analysis raises is [inl] with
    the exception's message. *)
Definition document := list (exc page).

(** What is stored under a path: something [fitz.open] raises on, or a
    document.  [fitz.open] also raises on a path with no file. *)
Inductive file : Type :=
| Unreadable (error : string)
| Pdf (doc : document).

Definition filesystem := string -> option file.

Definition exists_ (fs : filesystem) (file_path : string) : bool :=
  match fs file_path with Some _ => true | None => false end.

Definition open (fs : filesystem) (file_path : string) : exc document :=
  match fs file_path with
  | Some (Pdf doc) => inr doc
  | Some (Unreadable e) => inl e
  | None => inl "no such file"%string
  end.

(** [doc[idx]] and the calls on the page. *)
Definition load_page (doc : document) (idx : nat) : exc page :=
  nth idx doc (inl "page not in document"%string).

End Fitz.

(** ** [src/pdf_processor.py] *)

Module PDFProcessor.
Import Py Fitz.

Inductive ProcessingMode : Type := FAST | RICH | PRO.

Definition value (mode : ProcessingMode) : string :=
  match mode with
  | FAST => "fast"
  | RICH => "rich"
  | PRO => "pro"
  end.

Definition mode_eqb (a b : ProcessingMode) : bool :=
  match a, b with
  | FAST, FAST | RICH, RICH | PRO, PRO => true
  | _, _ => false
  end.

(** The four strings [detect_pdf_type] returns. *)
Inductive pdf_type : Type := text_based | image_based | mixed | unknown.

Definition type_name (t : pdf_type) : string :=
  match t with
  | text_based => "text_based"
  | image_based => "image_based"
  | mixed => "mixed"
  | unknown => "unknown"
  end.

(** [float(n)] for a Python [int]; exact below 2^53, and the counts and
    sample sizes it is applied to are at most 10. *)
Definition float_of_nat (n : nat) : float := of_uint63 (Uint63.of_Z (Z.of_nat n)).

(** *** [detect_pdf_type] *)

Definition sample_size (total_pages : nat) : nat :=
  Nat.min 10 (Nat.max 1 (total_pages / 20)).

Definition sample_indices (total_pages : nat) : list nat :=
  map (fun i => i * total_pages / sample_size total_pages)
      (seq 0 (sample_size total_pages)).

(** The loop over the blocks of a page: [(text_area, image_area)]. *)
Definition block_areas (blocks : list block) : float * float :=
  fold_left
    (fun acc block =>
       let '(text_area, image_area) := acc in
       if 6 <? b_len block then
         if (b_type block =? 0)%Z then
           match strip (b_text block) with
           | [] => (text_area, image_area)
           | _ :: _ => ((text_area + b_area block)%float, image_area)
           end
         else if (b_type block =? 1)%Z then
           (text_area, (image_area + b_area block)%float)
         else (text_area, image_area)
       else (text_area, image_area))
    blocks (0%float, 0%float).

Inductive category : Type := image_page | text_page | ambiguous_page.

(** The per-page classification, lines 104 to 120. *)
Definition classify_page (p : page) : category :=
  let '(text_area, image_area) := block_areas (blocks p) in
  let text_coverage :=
    if (0 <? page_area p)%float then (text_area / page_area p)%float else 0%float in
  let image_coverage :=
    if (0 <? page_area p)%float then (image_area / page_area p)%float else 0%float in
  let has_fonts := 0 <? fonts p in
  let image_threshold := 0.8%float in
  let text_threshold := 0.05%float in
  if (image_threshold <? image_coverage)%float
     || ((text_coverage <? 0.01)%float && negb has_fonts)
  then image_page
  else if (text_threshold <? text_coverage)%float && has_fonts then text_page
  else ambiguous_page.

Record counts : Type := {
  image_pages : nat;
  text_pages : nat;
  ambiguous_pages : nat
}.

Definition count (c : counts) (k : category) : counts :=
  match k with
  | image_page =>
      {| image_pages := image_pages c + 1; text_pages := text_pages c;
         ambiguous_pages := ambiguous_pages c |}
  | text_page =>
      {| image_pages := image_pages c; text_pages := text_pages c + 1;
         ambiguous_pages := ambiguous_pages c |}
  | ambiguous_page =>
      {| image_pages := image_pages c; text_pages := text_pages c;
         ambiguous_pages := ambiguous_pages c + 1 |}
  end.

(** [for idx in sample_indices], lines 83 to 120. *)
Fixpoint count_pages (doc : document) (total_pages : nat) (idxs : list nat)
  (c : counts) : exc counts :=
  match idxs with
  | [] => inr c
  | idx :: idxs' =>
      if total_pages <=? idx then count_pages doc total_pages idxs' c
      else
        p <- load_page doc idx ;;
        count_pages doc total_pages idxs' (count c (classify_page p))
  end.

Record ratios : Type := {
  image_ratio : float;
  text_ratio : float;
  ambiguous_ratio : float
}.

(** [pages / max(sample_size, 1)], the true division of two [int]s. *)
Definition ratio (pages sample_size : nat) : float :=
  (float_of_nat pages / float_of_nat (Nat.max sample_size 1))%float.

(** Lines 76 to 124 for a document of at least one page. *)
Definition sample_ratios (doc : document) : exc ratios :=
  let total_pages := List.length doc in
  let sample_size := sample_size total_pages in
  c <- count_pages doc total_pages (sample_indices total_pages)
         {| image_pages := 0; text_pages := 0; ambiguous_pages := 0 |} ;;
  inr {| image_ratio := ratio (image_pages c) sample_size;
         text_ratio := ratio (text_pages c) sample_size;
         ambiguous_ratio := ratio (ambiguous_pages c) sample_size |}.

(** The [try] block of [detect_pdf_type]. *)
Definition detect_pdf_type_body (fs : filesystem) (file_path : string) : exc pdf_type :=
  doc <- open fs file_path ;;
  let total_pages := List.length doc in
  if total_pages =? 0 then inr unknown
  else
    r <- sample_ratios doc ;;
    let majority := 0.6%float in
    if (majority <? image_ratio r)%float then inr image_based
    else if (majority <? text_ratio r)%float then inr text_based
    else inr mixed.

(** [except Exception: return "unknown"]. *)
Definition detect_pdf_type (fs : filesystem) (file_path : string) : pdf_type :=
  match detect_pdf_type_body fs file_path with
  | inr t => t
  | inl _ => unknown
  end.

(** *** [process_pdf] *)

(** The three extraction engines of [src/pdf_parsers.py]. *)
Inductive engine : Type := pdfplumber | markitdown | agentic_doc.

(** The pages an engine extracted, under "content": the key of each page
    and the text of the page. *)
Definition content := list (string * str).

(** What a parser returns: every parser catches its own exceptions and
    returns [{"success": False, "error": ...}] for them. *)
Inductive parse_result : Type :=
| Extracted (content : content) (markdown_content : str) (total_pages : nat)
    (method : string)
| ParseError (error : string).

Inductive pdf_result : Type :=
| Error (error : string)
    (* {"success": False, "error": ...} *)
| UpgradeRequired (error pdf_type : string) (requires_upgrade : bool)
    (recommended_mode : string)
    (* {"success": False, "error", "pdf_type", "requires_upgrade",
        "recommended_mode"} *)
| Processed (content : content) (markdown_content : str) (total_pages : nat)
    (method : string) (markdown_file : option string).
    (* the parser's result, with "markdown_file" when it was saved *)

(** "Call the appropriate parser", lines 218 to 223. *)
Definition parser_for (mode : ProcessingMode) : engine :=
  match mode with
  | FAST => pdfplumber
  | RICH => markitdown
  | PRO => agentic_doc
  end.

Section Process.

(** The world of a request: the files, what each engine extracts from a
    path, whether a markdown file can be written,
    [os.path.splitext(os.path.basename(file_path))[0]], and
    [display_results(result)], which prints the result on the console and
    is [inl] when it raises. *)
Variable fs : filesystem.
Variable parse : engine -> string -> parse_result.
Variable save_markdown_output : str -> string -> bool.
Variable base_name : string -> string.
Variable display_results : pdf_result -> exc unit.

(** [process_pdf] returns its result together with the engines it has
    invoked, in order.  Of what the function prints, [display_results] is
    modelled; the panels, the log lines and the progress bar are not. *)
Definition process_pdf (file_path : string) (mode : ProcessingMode)
  (auto_detect : bool) : pdf_result * list engine :=
  if negb (exists_ fs file_path) then (Error "File not found", [])
  else
    let pdf_type := detect_pdf_type fs file_path in
    if (mode_eqb mode FAST || mode_eqb mode RICH)
       && match pdf_type with image_based | mixed => true | _ => false end
    then
      (UpgradeRequired
         ("Cannot process " ++ type_name pdf_type ++ " PDF with "
            ++ value mode ++ " mode")
         (type_name pdf_type) true "pro", [])
    else
      let mode :=
        if auto_detect then
          match pdf_type with
          | image_based => if negb (mode_eqb mode PRO) then PRO else mode
          | _ => mode
          end
        else mode in
      let e := parser_for mode in
      (* the [try] block, lines 216 to 241 *)
      let attempt : exc pdf_result :=
        match parse e file_path with
        | Extracted content markdown_content total_pages method =>
            let output_path :=
              ("outputs/" ++ value mode ++ "_" ++ base_name file_path ++ ".md")%string in
            let result :=
              Processed content markdown_content total_pages method
                (if save_markdown_output markdown_content output_path
                 then Some output_path else None) in
            _ <- display_results result ;;
            inr result
        | ParseError error => inr (Error error)
        end in
      (* [except Exception as e], lines 243 to 247 *)
      match attempt with
      | inr result => (result, [e])
      | inl error =>
          (Error ("Unexpected error during processing: " ++ error), [e])
      end.

End Process.

End PDFProcessor.

(** ** Two target documents *)

(** A paragraph as a sequence of text ranges and footnotes, searched
    literally: [FindString] locates the first occurrence of the text inside
    one text range, and [AppendFootnote] makes the located text a range of
    its own and puts the footnote right after it. *)
Module RangeDoc.
Import Py Spire.

Inductive item : Type :=
| TextRange (t : str)
| Footnote (body : str).

Definition paragraph := list item.

Fixpoint starts_with (needle s : str) : bool :=
  match needle, s with
  | [], _ => true
  | x :: needle', y :: s' => (x =? y)%N && starts_with needle' s'
  | _ :: _, [] => false
  end.

Fixpoint find (needle s : str) (i : nat) : option nat :=
  if starts_with needle s then Some i
  else match s with
       | _ :: s' => find needle s' (S i)
       | [] => None
       end.

(** A selection: the index of the range, the offset in it, the length. *)
Definition selection := (nat * nat * nat)%type.

Fixpoint find_string (p : paragraph) (needle : str) (idx : nat) : option selection :=
  match p with
  | [] => None
  | TextRange t :: p' =>
      match find needle t 0 with
      | Some off => Some (idx, off, List.length needle)
      | None => find_string p' needle (S idx)
      end
  | Footnote _ :: p' => find_string p' needle (S idx)
  end.

Fixpoint append_footnote (p : paragraph) (sel : selection) (note : str)
  : exc paragraph :=
  let '(idx, off, len) := sel in
  match p, idx with
  | TextRange t :: p', O =>
      inr (TextRange (firstn off t) :: TextRange (slice t off (off + len))
             :: Footnote note :: TextRange (skipn (off + len) t) :: p')
  | i :: p', S idx' =>
      p'' <- append_footnote p' (idx', off, len) note ;;
      inr (i :: p'')
  | _, _ => inl "selection is not in the document"%string
  end.

#[export] Instance literal : Document paragraph selection := {
  AppendText main_text := inr [TextRange main_text];
  FindString p needle := find_string p needle 0;
  AppendFootnote := append_footnote;
  SaveToFile _ _ := inr tt
}.

End RangeDoc.

(** A document in which no text is ever located. *)
Module BlindDoc.
Import Py Spire.

Definition blind : Document str unit := {|
  AppendText main_text := inr main_text;
  FindString _ _ := None;
  AppendFootnote d _ _ := inr d;
  SaveToFile _ _ := inr tt
|}.

End BlindDoc.

(** ** Notions the statements use *)

Module Notions.
Import Py Re WordProcessor WordExport PDFProcessor Fitz.

(** The first [n] characters of the text exist and are all in the class. *)
Fixpoint run_at (p : char -> bool) (n : nat) (t : str) : bool :=
  match n with
  | O => true
  | S n' => match t with
            | x :: t' => p x && run_at p n' t'
            | [] => false
            end
  end.

(** No run of [n] characters of the class anywhere in the text. *)
Fixpoint no_run (p : char -> bool) (n : nat) (t : str) : bool :=
  negb (run_at p n t)
  && match t with
     | _ :: t' => no_run p n t'
     | [] => true
     end.

Definition not_space_at_head (t : str) : bool :=
  match t with
  | x :: _ => negb (isspace x)
  | [] => true
  end.

(** A text the clean-up of [remove_footnote_content_from_main] has nothing
    to do on: no three newlines in a row, no two spaces in a row, no
    white space at either end. *)
Definition tidy (t : str) : bool :=
  no_run (N.eqb nl) 3 t && no_run (N.eqb 32) 2 t
  && not_space_at_head t && not_space_at_head (rev t).

(** The clean-up alone: lines 44 to 46. *)
Definition clean_up (t : str) : str :=
  strip (sub [Rep false 1 (N.eqb 32)] [32%N] (sub [Rep false 3 (N.eqb nl)] [nl; nl] t)).

(** A match object moved [a] characters to the right. *)
Definition shift (a : nat) (m : rmatch) : rmatch :=
  {| m_start := a + m_start m; m_end := a + m_end m;
     m_marks := map (Nat.add a) (m_marks m) |}.

(** A continuation of the matcher commutes with moving the cursor [a]
    characters to the right. *)
Definition moved (a : nat) (r : option (nat * list nat)) : option (nat * list nat) :=
  option_map (fun r => (a + fst r, map (Nat.add a) (snd r))) r.

Definition commutes (a : nat) (k : cont (nat * list nat)) : Prop :=
  forall prev s pos mk,
    k prev s (a + pos) (map (Nat.add a) mk) = moved a (k prev s pos mk).

(** The character before the cursor once the cursor has passed [u]. *)
Definition before (prev : option char) (u : str) : option char :=
  match rev u with
  | c :: _ => Some c
  | [] => prev
  end.

(** The reference numbers of the inline markers of a text, in document
    order. *)
Definition marker_nums (main_text : str) : list str :=
  map (group 1 main_text) (finditer inline_ref_pattern main_text).

(** The distinct elements of a list in the order of their first
    occurrences. *)
Definition first_occurrences (l : list str) : list str :=
  fold_left (fun acc n => Dict.add n acc) l [].

(** The insertion was made at the first of the markers [ms] of
    [main_text] that carries its number, with that marker's text. *)
Definition at_first_marker (main_text : str) (ms : list rmatch) (ins : insertion)
  : Prop :=
  exists ms1 m ms2,
    ms = ms1 ++ m :: ms2
    /\ group 1 main_text m = i_num ins
    /\ (forall m', In m' ms1 -> group 1 main_text m' <> i_num ins)
    /\ i_marker ins = group0 main_text m.

Inductive subseq (A : Type) : list A -> list A -> Prop :=
| subseq_nil : subseq [] []
| subseq_skip : forall l r x, subseq l r -> subseq l (r ++ [x])
| subseq_take : forall l r x, subseq l r -> subseq (l ++ [x]) (r ++ [x]).

(** What holds of the state of the reinjection loop once it has passed
    the markers [done] of [main_text]: the numbers recorded are the
    distinct numbers of the markers that have a footnote, in the order of
    their first occurrences; the footnotes inserted follow that order; each
    was inserted at the first marker of its number, with the body the map
    gives it. *)
Definition reinjected (D : Type) (main_text : str) (footnotes : Dict.dict)
  (done : list rmatch) (st : loop_state (D := D)) : Prop :=
  inserted_refs st
  = first_occurrences
      (filter (fun n => Dict.contains n footnotes) (map (group 1 main_text) done))
  /\ subseq (map i_num (inserted st)) (inserted_refs st)
  /\ forall ins, In ins (inserted st) ->
       at_first_marker main_text done ins
       /\ Dict.get (i_num ins) footnotes = Some (i_body ins).

(** The category of the page at an index, when the page can be analysed. *)
Definition category_at (doc : document) (idx : nat) : option category :=
  match load_page doc idx with
  | inr p => Some (classify_page p)
  | inl _ => None
  end.

Definition category_eqb (a b : category) : bool :=
  match a, b with
  | image_page, image_page | text_page, text_page
  | ambiguous_page, ambiguous_page => true
  | _, _ => false
  end.

(** How many of the indices hold a page of the category. *)
Definition pages_of (doc : document) (k : category) (idxs : list nat) : nat :=
  List.length
    (filter (fun idx => match category_at doc idx with
                        | Some k' => category_eqb k k'
                        | None => false
                        end) idxs).

(** The cursor, having passed the text, stands after a line start and
    white space only; [st] tells whether it did so before the text. *)
Fixpoint line_blank (st : bool) (t : str) : bool :=
  match t with
  | [] => st
  | c :: t' => line_blank ((c =? nl)%N || (st && isspace c)) t'
  end.

(** No "(" of the text is the first character of its line that is not
    white space: no line begins with "(", indented or not. *)
Fixpoint no_line_paren (st : bool) (t : str) : bool :=
  match t with
  | [] => true
  | c :: t' =>
      negb (st && (c =? 40)%N)
      && no_line_paren ((c =? nl)%N || (st && isspace c)) t'
  end.

(** The second text is the first with some of its white space deleted. *)
Inductive squeezed : str -> str -> Prop :=
| squeezed_nil : squeezed [] []
| squeezed_keep : forall c t t', squeezed t t' -> squeezed (c :: t) (c :: t')
| squeezed_drop : forall c t t', isspace c = true -> squeezed t t' -> squeezed (c :: t) t'.

(** The footnotes the loop has inserted for a reference number. *)
Definition insertions_for (D : Type) (num : str) (st : loop_state (D := D))
  : list insertion :=
  filter (fun ins => str_eqb (i_num ins) num) (inserted st).

(** The state in which the reinjection loop starts. *)
Definition start (D : Type) (d : D) : loop_state (D := D) :=
  {| WordExport.document := d; inserted_refs := []; inserted := [] |}.

(** The text does not begin with a character of the class. *)
Definition not_in_class_at_head (p : char -> bool) (t : str) : bool :=
  match t with
  | x :: _ => negb (p x)
  | [] => true
  end.

(** A text with a footnote line: what stands before the line, then "(",
    the number, ")", white space, the body, and what follows the body. *)
Definition footnote_text (before_ n sp body trail : str) : str :=
  before_ ++ 40%N :: n ++ 41%N :: sp ++ body ++ trail.

(** The conditions on the parts of [footnote_text]: the footnote line
    starts a line, after white space at most; no line before it begins
    with "("; the number is one digit or more; white space follows the
    ")"; the body is what is left of the line, not empty and without white
    space at either end; the body ends its line; and no later line begins
    with "(". *)
Definition footnote_line (before_ n sp body trail : str) : bool :=
  line_blank true before_ && no_line_paren true before_
  && forallb isdecimal n && (1 <=? List.length n)
  && forallb isspace sp
  && forallb dot body && (1 <=? List.length body)
  && not_space_at_head body && not_space_at_head (rev body)
  && not_in_class_at_head dot trail
  && no_line_paren false (sp ++ body ++ trail).

(** The text [w] occurs in [t] after [i] characters at most: nowhere
    else. *)
Definition occurs_only_at (w t : str) (i : nat) : bool :=
  forallb (fun j => (j =? i) || negb (RangeDoc.starts_with w (skipn j t)))
    (seq 0 (S (List.length t))).

End Notions.

(** ** Inputs of the examples *)

Module Examples.
Import Py Re WordProcessor WordExport PDFProcessor Fitz.

Definition marker1 : str := py "(1)".
Definition note_body : str := py "Note body text".

(** "w1(1)w2", a blank line, "(1) Note body text". *)
Definition round_trip_text (w1 w2 : str) : str :=
  w1 ++ marker1 ++ w2 ++ [nl; nl] ++ marker1 ++ py " " ++ note_body.

(** "See(1)here.", a blank line, "(1) Note body text". *)
Definition see_note : str := round_trip_text (py "See") (py "here.").

(** "(1) x" followed by the line "foo". *)
Definition note_then_line : str := py "(1) x" ++ [nl] ++ py "foo".

(** "a  b", with two spaces. *)
Definition two_spaces : str := py "a  b".

(** "x (2) y (2) z (2)" *)
Definition three_markers : str := py "x (2) y (2) z (2)".

(** "see (1)", then the line "(١) note" whose number is U+0661. *)
Definition arabic_note : str := py "see (1)" ++ [nl] ++ [40; 1633; 41]%N ++ py " note".

(** The same with the Western digit: "see (1)", then "(1) note". *)
Definition western_note : str := py "see (1)" ++ [nl] ++ py "(1) note".

(** "see (7)", then the line "(7) note". *)
Definition seven_note : str := py "see (7)" ++ [nl] ++ py "(7) note".

Definition image_only_page : page :=
  {| page_area := 100%float;
     blocks := [{| b_len := 7; b_area := 95%float; b_type := 1; b_text := [] |}];
     fonts := 0 |}.

Definition text_only_page : page :=
  {| page_area := 100%float;
     blocks := [{| b_len := 7; b_area := 50%float; b_type := 0; b_text := py "words" |}];
     fonts := 2 |}.

(** A page with a font and no block: neither image-like nor text-like. *)
Definition bare_page : page := {| page_area := 100%float; blocks := []; fonts := 1 |}.

(** A document of 120 pages: 20 scanned pages, 80 pages of text, 20 bare
    pages.  Six pages are sampled, pages 0, 20, 40, 60, 80 and 100: one
    image-like, four text-like, one ambiguous. *)
Definition mixed_book : document :=
  repeat (inr image_only_page) 20 ++ repeat (inr text_only_page) 80
  ++ repeat (inr bare_page) 20.

(** A scanned document of one page under "scan.pdf", a document whose only
    page cannot be analysed under "torn.pdf", a document without pages
    under "empty.pdf", something that is no document under "notes.txt". *)
Definition files : filesystem :=
  fun file_path =>
    if String.eqb file_path "scan.pdf" then Some (Pdf [inr image_only_page])
    else if String.eqb file_path "text.pdf" then Some (Pdf [inr text_only_page])
    else if String.eqb file_path "torn.pdf" then Some (Pdf [inl "bad xref"%string])
    else if String.eqb file_path "empty.pdf" then Some (Pdf [])
    else if String.eqb file_path "notes.txt" then Some (Unreadable "not a PDF")
    else None.

Definition no_parse : engine -> string -> parse_result :=
  fun _ _ => ParseError "engine not available".

Definition no_save : str -> string -> bool := fun _ _ => false.

(** A console on which [display_results] prints whatever it is given. *)
Definition prints : pdf_result -> exc unit := fun _ => inr tt.

Definition whole_name : string -> string := fun file_path => file_path.

(** A disk on which every directory can be created, and one on which the
    parent of the output directory is missing. *)
Definition makes_directory : string -> exc unit := fun _ => inr tt.

Definition no_parent : string -> exc unit :=
  fun output_dir =>
    inl ("[Errno 2] No such file or directory: '" ++ output_dir ++ "'")%string.

(** "See (1) here.", a blank line, "(1) Note body text". *)
Definition prose_note : str :=
  py "See (1) here." ++ [nl; nl] ++ py "(1) Note body text".

End Examples.

(** ** More of the code, and notions of the further statements *)

Module More.
Import Py Re WordProcessor WordExport PDFProcessor Fitz.

(** [ProcessingMode(mode)], the lookup of a member by its value that
    [src/server.py] does on the [mode] of a request; a string that is no
    member's value raises ValueError. *)
Definition ProcessingMode_of (mode : string) : exc ProcessingMode :=
  if String.eqb mode "fast" then inr FAST
  else if String.eqb mode "rich" then inr RICH
  else if String.eqb mode "pro" then inr PRO
  else inl (("'" ++ mode ++ "' is not a valid ProcessingMode")%string).

(** The class [detect_pdf_type] gives a document all of whose sampled
    pages are of one category. *)
Definition class_of (k : category) : pdf_type :=
  match k with
  | image_page => image_based
  | text_page => text_based
  | ambiguous_page => mixed
  end.

(** A block the loop of [detect_pdf_type] adds to one of the two areas. *)
Definition counted (b : block) : bool :=
  (6 <? b_len b)
  && (((b_type b =? 0)%Z && match strip (b_text b) with [] => false | _ => true end)
      || (b_type b =? 1)%Z).

(** U+0660..U+0669, the digits [normalize_arabic_text] translates. *)
Definition arabic_indic_digit (c : char) : bool := in_range 1632 1641 c.

(** The keys of a footnote map, in order. *)
Definition keys (d : Dict.dict) : list str := map fst d.

(** Inputs of the examples: an engine that extracts one page with
    pdfplumber and fails otherwise, and a disk that takes every file. *)
Definition plumber_only : engine -> string -> parse_result :=
  fun e _ =>
    match e with
    | pdfplumber => Extracted [("page_1"%string, py "Title")] (py "# Title") 1 "pdfplumber"
    | _ => ParseError "engine not available"
    end.

Definition always_save : str -> string -> bool := fun _ _ => true.

(** A console on which the preview of the first page cannot be rendered. *)
Definition markup_error : pdf_result -> exc unit :=
  fun _ => inl "closing tag '[/b]' at position 0 doesn't match any open tag"%string.

(** The body of [for block in blocks], lines 93 to 102, on the pair
    [(text_area, image_area)]. *)
Definition add_block (acc : float * float) (block : block) : float * float :=
  let '(text_area, image_area) := acc in
  if 6 <? b_len block then
    if (b_type block =? 0)%Z then
      match strip (b_text block) with
      | [] => (text_area, image_area)
      | _ :: _ => ((text_area + b_area block)%float, image_area)
      end
    else if (b_type block =? 1)%Z then
      (text_area, (image_area + b_area block)%float)
    else (text_area, image_area)
  else (text_area, image_area).

(** The number of characters of the class a text begins with. *)
Fixpoint span (p : char -> bool) (t : str) : nat :=
  match t with
  | x :: t' => if p x then S (span p t') else 0
  | [] => 0
  end.

(** A string without a slash, and the components of a path each followed
    by a slash. *)
Definition no_slash (s : string) : bool :=
  forallb (fun c => negb (Ascii.eqb c "/")) (list_ascii_of_string s).

Fixpoint directory (ps : list string) : string :=
  match ps with
  | [] => ""
  | p :: ps' => p ++ "/" ++ directory ps'
  end.

(** The main text [process_to_word] puts into the document and searches
    for markers: steps 1 to 3. *)
Definition main_text_of (markdown_content : str) : str :=
  remove_footnote_content_from_main (clean_markdown_text markdown_content)
    (extract_footnotes (clean_markdown_text markdown_content)).

(** Two documents of sixty pages that differ in their second page only:
    three pages are sampled, pages 0, 20 and 40. *)
Definition sixty_scanned : document := repeat (inr Examples.image_only_page) 60.

Definition sixty_scanned_but_one : document :=
  inr Examples.image_only_page :: inr Examples.text_only_page :: repeat (inr Examples.image_only_page) 58.

Definition two_files (doc : document) : filesystem :=
  fun file_path => if String.eqb file_path "book.pdf" then Some (Pdf doc) else None.

End More.

(** * Properties *)

Import Py Re WordProcessor Spire WordExport Fitz PDFProcessor Notions Examples More.

(** ** Mode policy: [process_pdf] *)

Lemma detect_needs_a_file (fs : filesystem) (file_path : string) :
  exists_ fs file_path = false -> detect_pdf_type fs file_path = unknown.
Proof.
  unfold exists_, detect_pdf_type, detect_pdf_type_body, open.
  destruct (fs file_path) as [f|]; [discriminate | reflexivity].
Qed.

Lemma detected_file_exists (fs : filesystem) (file_path : string) :
  detect_pdf_type fs file_path <> unknown -> exists_ fs file_path = true.
Proof.
  intros H. destruct (exists_ fs file_path) eqn:E; [reflexivity|].
  elim H. now apply detect_needs_a_file.
Qed.

(** C1. Whatever the file and whatever [auto_detect], when the requested
    mode is fast or rich and [detect_pdf_type] answers image_based or mixed,
    [process_pdf] returns the rejection: success is False, the error names
    the document class and the requested mode, [pdf_type] is the class,
    [recommended_mode] is "pro"; and no engine has been invoked. *)
Theorem process_pdf_rejects_fast_rich_on_image_mixed
  (fs : filesystem) (parse : engine -> string -> parse_result)
  (save_markdown_output : str -> string -> bool) (base_name : string -> string)
  (display_results : pdf_result -> exc unit)
  (file_path : string) (mode : ProcessingMode) (auto_detect : bool) :
  mode = FAST \/ mode = RICH ->
  detect_pdf_type fs file_path = image_based \/ detect_pdf_type fs file_path = mixed ->
  process_pdf fs parse save_markdown_output base_name display_results
    file_path mode auto_detect
  = (UpgradeRequired
       ("Cannot process " ++ type_name (detect_pdf_type fs file_path)
          ++ " PDF with " ++ value mode ++ " mode")
       (type_name (detect_pdf_type fs file_path)) true "pro",
     []).
Proof.
  intros Hmode Htype. unfold process_pdf.
  assert (Hex : exists_ fs file_path = true).
  { apply detected_file_exists. destruct Htype as [H|H]; rewrite H; discriminate. }
  rewrite Hex. cbn [negb].
  destruct Hmode as [-> | ->], Htype as [-> | ->]; reflexivity.
Qed.

Lemma process_pdf_rejects_fast_rich_on_image_mixed_witness :
  process_pdf files no_parse no_save whole_name prints "scan.pdf" FAST true
  = (UpgradeRequired "Cannot process image_based PDF with fast mode"
       "image_based" true "pro", []).
Proof.
  apply (process_pdf_rejects_fast_rich_on_image_mixed
           files no_parse no_save whole_name prints "scan.pdf" (mode := FAST) true).
  - left; reflexivity.
  - left; vm_compute; reflexivity.
Defined.

(** C10. Whatever the file, the requested mode and [auto_detect]:
    [process_pdf] either invokes no engine or invokes exactly the engine of
    the requested mode, and its whole result is the one it gives with
    [auto_detect] off; the switch to PRO of the auto-detection never takes
    effect, because an image_based document with a mode other than PRO has
    been rejected before. *)
Theorem process_pdf_runs_the_requested_engine
  (fs : filesystem) (parse : engine -> string -> parse_result)
  (save_markdown_output : str -> string -> bool) (base_name : string -> string)
  (display_results : pdf_result -> exc unit)
  (file_path : string) (mode : ProcessingMode) (auto_detect : bool) :
  (snd (process_pdf fs parse save_markdown_output base_name display_results
          file_path mode auto_detect) = []
   \/ snd (process_pdf fs parse save_markdown_output base_name display_results
             file_path mode auto_detect)
      = [parser_for mode])
  /\ process_pdf fs parse save_markdown_output base_name display_results
       file_path mode auto_detect
     = process_pdf fs parse save_markdown_output base_name display_results
         file_path mode false.
Proof.
  unfold process_pdf.
  destruct (exists_ fs file_path); cbn [negb].
  2: { split; [left|]; reflexivity. }
  destruct (detect_pdf_type fs file_path), mode, auto_detect; cbn;
    try (split; [left|]; reflexivity);
    match goal with
    | |- context [parse ?e ?p] => destruct (parse e p)
    end; cbn;
    try match goal with
        | |- context [display_results ?r] => destruct (display_results r)
        end; (split; [right|]; reflexivity).
Qed.

(** ** Structural classifier: [detect_pdf_type] *)

Lemma count_pages_raises (doc : document) (total_pages : nat) (idxs : list nat)
  (idx : nat) (e : string) :
  In idx idxs -> idx < total_pages -> load_page doc idx = inl e ->
  forall c, exists e', count_pages doc total_pages idxs c = inl e'.
Proof.
  intros Hin Hlt Hload. induction idxs as [|i idxs IH]; [contradiction|].
  intros c. cbn [count_pages].
  destruct (total_pages <=? i) eqn:Hi.
  - destruct Hin as [->|Hin].
    + apply Nat.leb_le in Hi. lia.
    + now apply IH.
  - destruct (load_page doc i) as [e'|p] eqn:Hp; cbn [bind].
    + now exists e'.
    + destruct Hin as [->|Hin]; [congruence|]. now apply IH.
Qed.

(** C8. [detect_pdf_type] answers "unknown" for a file [fitz.open] raises
    on, for a document without pages, whenever its [try] block raises, and
    in particular when a sampled page raises during analysis; being a total
    function into the four classes, it never raises itself. *)
Theorem detect_pdf_type_unknown_on_failure (fs : filesystem) (file_path : string) :
  (exists e, open fs file_path = inl e)
  \/ open fs file_path = inr []
  \/ (exists e, detect_pdf_type_body fs file_path = inl e)
  \/ (exists doc idx e, open fs file_path = inr doc
        /\ In idx (sample_indices (List.length doc))
        /\ idx < List.length doc
        /\ load_page doc idx = inl e) ->
  detect_pdf_type fs file_path = unknown.
Proof.
  unfold detect_pdf_type, detect_pdf_type_body.
  intros [[e H] | [H | [[e H] | (doc & idx & e & H & Hin & Hlt & Hload)]]].
  - rewrite H. reflexivity.
  - rewrite H. reflexivity.
  - unfold detect_pdf_type_body in H. rewrite H. reflexivity.
  - rewrite H. cbn [bind].
    destruct (List.length doc =? 0) eqn:E; [reflexivity|].
    unfold sample_ratios.
    destruct (count_pages_raises doc _ Hin Hlt Hload
                {| image_pages := 0; text_pages := 0; ambiguous_pages := 0 |})
      as [e' ->].
    reflexivity.
Qed.

Lemma detect_pdf_type_unknown_on_failure_witness :
  detect_pdf_type files "notes.txt" = unknown
  /\ detect_pdf_type files "empty.pdf" = unknown
  /\ detect_pdf_type files "torn.pdf" = unknown.
Proof.
  split; [|split].
  - apply (detect_pdf_type_unknown_on_failure files "notes.txt").
    left. exists "not a PDF"%string. reflexivity.
  - apply (detect_pdf_type_unknown_on_failure files "empty.pdf").
    right; left. reflexivity.
  - apply (detect_pdf_type_unknown_on_failure files "torn.pdf").
    right; right; right.
    exists [inl "bad xref"%string], 0, "bad xref"%string.
    repeat split; [left; reflexivity | simpl; lia].
Defined.

Lemma sample_size_bounds (total_pages : nat) :
  1 <= sample_size total_pages <= 10.
Proof. unfold sample_size. lia. Qed.

Lemma sample_size_le_pages (total_pages : nat) :
  1 <= total_pages -> sample_size total_pages <= total_pages.
Proof.
  intros H. unfold sample_size.
  assert (total_pages / 20 <= total_pages) by (apply Nat.Div0.div_le_upper_bound; lia).
  lia.
Qed.

Lemma sample_index_in_range (pages size i : nat) :
  1 <= pages -> i < size -> i * pages / size < pages.
Proof.
  intros HP Hi. apply Nat.Div0.div_lt_upper_bound. nia.
Qed.

Lemma sample_index_increases (pages size i : nat) :
  1 <= size -> size <= pages -> i * pages / size < (i + 1) * pages / size.
Proof.
  intros HS HP.
  assert (H : i * pages / size + 1 <= (i + 1) * pages / size).
  { replace (i * pages / size + 1) with ((i * pages + 1 * size) / size)
      by (rewrite Nat.div_add; lia).
    apply Nat.Div0.div_le_mono. nia. }
  lia.
Qed.

Lemma sample_index_monotone (pages size i j : nat) :
  1 <= size -> size <= pages -> i < j -> i * pages / size < j * pages / size.
Proof.
  intros HS HP Hij. induction Hij as [|j Hij IH].
  - replace (S i) with (i + 1) by lia. now apply sample_index_increases.
  - eapply Nat.lt_trans; [exact IH|].
    replace (S j) with (j + 1) by lia. now apply sample_index_increases.
Qed.

Lemma NoDup_map_increasing (f : nat -> nat) (l : list nat) :
  (forall i j, i < j -> f i < f j) -> NoDup l -> NoDup (map f l).
Proof.
  intros Hf Hl. induction Hl as [|x l Hx Hl IH]; cbn; constructor; [|exact IH].
  rewrite in_map_iff. intros (y & Hy & Hin).
  destruct (Nat.lt_trichotomy x y) as [H|[H|H]].
  - apply Hf in H. lia.
  - subst. contradiction.
  - apply Hf in H. lia.
Qed.

Lemma sample_indices_length (pages : nat) :
  List.length (sample_indices pages) = sample_size pages.
Proof. unfold sample_indices. now rewrite length_map, length_seq. Qed.

Lemma sample_indices_nth (pages i : nat) :
  i < sample_size pages ->
  nth i (sample_indices pages) 0 = i * pages / sample_size pages.
Proof.
  intros Hi. unfold sample_indices.
  set (f := fun i => i * pages / sample_size pages).
  rewrite (nth_indep _ 0 (f 0)) by (now rewrite length_map, length_seq).
  rewrite map_nth, seq_nth by exact Hi. reflexivity.
Qed.

Lemma sample_indices_in_range (pages : nat) :
  1 <= pages -> Forall (fun idx => idx < pages) (sample_indices pages).
Proof.
  intros HP. apply Forall_forall. intros idx Hin.
  unfold sample_indices in Hin. apply in_map_iff in Hin.
  destruct Hin as (i & <- & Hi). apply in_seq in Hi.
  apply sample_index_in_range; lia.
Qed.

Lemma sample_indices_distinct (pages : nat) :
  1 <= pages -> NoDup (sample_indices pages).
Proof.
  intros HP. unfold sample_indices. apply NoDup_map_increasing.
  - intros i j Hij. apply sample_index_monotone;
      [apply sample_size_bounds | now apply sample_size_le_pages | exact Hij].
  - apply seq_NoDup.
Qed.

Lemma pages_of_cons (doc : document) (k : category) (idx : nat) (idxs : list nat) :
  pages_of doc k (idx :: idxs)
  = (match category_at doc idx with
     | Some k' => if category_eqb k k' then 1 else 0
     | None => 0
     end) + pages_of doc k idxs.
Proof.
  unfold pages_of. cbn [filter].
  destruct (category_at doc idx) as [k'|]; [|reflexivity].
  destruct (category_eqb k k'); reflexivity.
Qed.

(** With every sampled page in range and analysable, the loop ends with
    each counter raised by the number of sampled pages of its category. *)
Lemma count_pages_counts (doc : document) (total_pages : nat) (idxs : list nat) :
  Forall (fun idx => idx < total_pages) idxs ->
  (forall idx, In idx idxs -> exists p, load_page doc idx = inr p) ->
  forall c,
    count_pages doc total_pages idxs c
    = inr {| image_pages := image_pages c + pages_of doc image_page idxs;
             text_pages := text_pages c + pages_of doc text_page idxs;
             ambiguous_pages := ambiguous_pages c + pages_of doc ambiguous_page idxs |}.
Proof.
  induction idxs as [|idx idxs IH]; intros Hlt Hload c.
  - cbn. destruct c. cbn. now rewrite !Nat.add_0_r.
  - cbn [count_pages]. inversion Hlt as [|? ? Hidx Hrest]; subst.
    assert (E : (total_pages <=? idx) = false) by (apply Nat.leb_gt; exact Hidx).
    rewrite E.
    destruct (Hload idx (or_introl eq_refl)) as [p Hp]. rewrite Hp. cbn [bind].
    rewrite IH; [|exact Hrest | intros i Hi; apply Hload; now right].
    rewrite !pages_of_cons. unfold category_at. rewrite Hp.
    destruct (classify_page p); cbn; f_equal; f_equal; lia.
Qed.

Lemma pages_of_partition (doc : document) (idxs : list nat) :
  (forall idx, In idx idxs -> exists p, load_page doc idx = inr p) ->
  pages_of doc image_page idxs + pages_of doc text_page idxs
  + pages_of doc ambiguous_page idxs = List.length idxs.
Proof.
  induction idxs as [|idx idxs IH]; intros Hload; [reflexivity|].
  rewrite !pages_of_cons. cbn [List.length].
  specialize (IH (fun i Hi => Hload i (or_intror Hi))).
  destruct (Hload idx (or_introl eq_refl)) as [p Hp].
  unfold category_at. rewrite Hp.
  destruct (classify_page p); cbn; lia.
Qed.

(** The three ratios of a sample of at most ten pages, added as floats
    from left to right: 1, or the double just below 1. *)
Lemma ratios_sum (a b c n : nat) :
  1 <= n <= 10 -> a + b + c = n ->
  ((ratio a n + ratio b n + ratio c n)%float = 1%float
   \/ (ratio a n + ratio b n + ratio c n)%float = 0x1.fffffffffffffp-1%float)
  /\ (n <= 5 -> (ratio a n + ratio b n + ratio c n)%float = 1%float).
Proof.
  intros Hn Hsum.
  assert (Hc : c = n - a - b) by lia. subst c.
  destruct n as [|[|[|[|[|[|[|[|[|[|[|n]]]]]]]]]]]; try lia;
    destruct a as [|[|[|[|[|[|[|[|[|[|[|a]]]]]]]]]]]; try lia;
    destruct b as [|[|[|[|[|[|[|[|[|[|[|b]]]]]]]]]]]; try lia;
    (split; [first [left; reflexivity | right; reflexivity]
            | intros H; first [reflexivity | exfalso; lia]]).
Qed.

(** C7, as the code has it.  For a document of [P >= 1] pages whose
    sampled pages can all be analysed: the sample size [S] is [P // 20]
    clamped to 1..10; the [S] sampled indices are the [i * P // S], all
    below [P] and pairwise distinct; every sampled page is counted in
    exactly one of the three categories, so the three counts add up to [S];
    each ratio is the float quotient of its category's count by [S]; and
    the float sum of the three ratios is 1 or the double just below 1,
    and is 1 whenever [S <= 5], that is for every document of fewer than
    120 pages. *)
Theorem sampled_ratios_sum_to_one (doc : document) :
  doc <> [] ->
  (forall idx, In idx (sample_indices (List.length doc)) ->
               exists p, load_page doc idx = inr p) ->
  let total_pages := List.length doc in
  let size := sample_size total_pages in
  let idxs := sample_indices total_pages in
  size = Nat.min 10 (Nat.max 1 (total_pages / 20))
  /\ 1 <= size <= 10
  /\ List.length idxs = size
  /\ (forall i, i < size -> nth i idxs 0 = i * total_pages / size)
  /\ Forall (fun idx => idx < total_pages) idxs
  /\ NoDup idxs
  /\ pages_of doc image_page idxs + pages_of doc text_page idxs
     + pages_of doc ambiguous_page idxs = size
  /\ exists r,
       sample_ratios doc = inr r
       /\ image_ratio r = ratio (pages_of doc image_page idxs) size
       /\ text_ratio r = ratio (pages_of doc text_page idxs) size
       /\ ambiguous_ratio r = ratio (pages_of doc ambiguous_page idxs) size
       /\ ((image_ratio r + text_ratio r + ambiguous_ratio r)%float = 1%float
           \/ (image_ratio r + text_ratio r + ambiguous_ratio r)%float
              = 0x1.fffffffffffffp-1%float)
       /\ (total_pages < 120 ->
           (image_ratio r + text_ratio r + ambiguous_ratio r)%float = 1%float).
Proof.
  intros Hdoc Hload total_pages size idxs.
  assert (HP : 1 <= total_pages).
  { subst total_pages. destruct doc; [congruence | cbn; lia]. }
  assert (Hsum : pages_of doc image_page idxs + pages_of doc text_page idxs
                 + pages_of doc ambiguous_page idxs = size).
  { subst idxs size. rewrite pages_of_partition by exact Hload.
    apply sample_indices_length. }
  split; [reflexivity|].
  split; [apply sample_size_bounds|].
  split; [apply sample_indices_length|].
  split; [intros i Hi; now apply sample_indices_nth|].
  split; [now apply sample_indices_in_range|].
  split; [now apply sample_indices_distinct|].
  split; [exact Hsum|].
  unfold sample_ratios. fold total_pages. fold idxs. fold size.
  rewrite count_pages_counts;
    [|now apply sample_indices_in_range | exact Hload].
  cbn [bind image_pages text_pages ambiguous_pages Nat.add].
  eexists. split; [reflexivity|].
  cbn [image_ratio text_ratio ambiguous_ratio].
  destruct (@ratios_sum _ _ _ _ (sample_size_bounds total_pages) Hsum) as [Hor Hsmall].
  repeat split; [exact Hor|].
  intros Hlt. apply Hsmall. subst size. unfold sample_size.
  assert (total_pages / 20 < 6) by (apply Nat.Div0.div_lt_upper_bound; lia).
  lia.
Qed.

Lemma sampled_ratios_sum_to_one_witness :
  exists r,
    sample_ratios mixed_book = inr r
    /\ ((image_ratio r + text_ratio r + ambiguous_ratio r)%float = 1%float
        \/ (image_ratio r + text_ratio r + ambiguous_ratio r)%float
           = 0x1.fffffffffffffp-1%float).
Proof.
  destruct (@sampled_ratios_sum_to_one mixed_book)
    as (_ & _ & _ & _ & _ & _ & _ & r & Hr & _ & _ & _ & Hsum & _).
  - discriminate.
  - intros idx Hin. vm_compute in Hin.
    destruct Hin as [<-|[<-|[<-|[<-|[<-|[<-|[]]]]]]]; eexists; reflexivity.
  - exists r. split; [exact Hr | exact Hsum].
Defined.

(** C7 as it is written fails on a document of 120 pages of which the
    sample holds one image-like, four text-like and one ambiguous page:
    the ratios are the doubles nearest to 1/6, 4/6 and 1/6, and their sum
    is 0.9999999999999999, which [==] tells from 1. *)
Lemma sampled_ratios_sum_below_one :
  sample_size (List.length mixed_book) = 6
  /\ sample_indices (List.length mixed_book) = [0; 20; 40; 60; 80; 100]
  /\ sample_ratios mixed_book
     = inr {| image_ratio := ratio 1 6; text_ratio := ratio 4 6;
              ambiguous_ratio := ratio 1 6 |}
  /\ (ratio 1 6 + ratio 4 6 + ratio 1 6)%float = 0x1.fffffffffffffp-1%float
  /\ ((ratio 1 6 + ratio 4 6 + ratio 1 6)%float =? 1)%float = false.
Proof. repeat split; vm_compute; reflexivity. Qed.

(** ** Footnote pipeline: reinjection *)

Lemma str_eqb_eq (a b : str) : str_eqb a b = true <-> a = b.
Proof.
  revert b. induction a as [|x a IH]; intros [|y b]; cbn; try easy.
  rewrite andb_true_iff, N.eqb_eq, IH. split.
  - intros [-> ->]. reflexivity.
  - intros [= -> ->]. easy.
Qed.

Lemma str_eqb_refl (a : str) : str_eqb a a = true.
Proof. now apply str_eqb_eq. Qed.

Lemma str_eqb_neq (a b : str) : a <> b -> str_eqb a b = false.
Proof.
  intros H. destruct (str_eqb a b) eqn:E; [|reflexivity].
  apply str_eqb_eq in E. contradiction.
Qed.

Lemma mem_In (k : str) (s : Dict.strset) : Dict.mem k s = true <-> In k s.
Proof.
  unfold Dict.mem. rewrite existsb_exists. split.
  - intros (x & Hx & E). apply str_eqb_eq in E. now subst.
  - intros H. exists k. split; [exact H | now apply str_eqb_eq].
Qed.

Lemma add_In (k x : str) (s : Dict.strset) :
  In x (Dict.add k s) <-> x = k \/ In x s.
Proof.
  unfold Dict.add. destruct (Dict.mem k s) eqn:E.
  - apply mem_In in E. split; [now right | intros [->|H]; assumption].
  - rewrite in_app_iff. cbn. intuition congruence.
Qed.

Lemma add_NoDup (k : str) (s : Dict.strset) : NoDup s -> NoDup (Dict.add k s).
Proof.
  intros H. unfold Dict.add. destruct (Dict.mem k s) eqn:E; [exact H|].
  apply NoDup_app; [exact H | repeat constructor; easy |].
  intros x Hx [<-|[]]. apply mem_In in Hx. congruence.
Qed.

Lemma first_occurrences_snoc (l : list str) (x : str) :
  first_occurrences (l ++ [x]) = Dict.add x (first_occurrences l).
Proof. unfold first_occurrences. now rewrite fold_left_app. Qed.

Lemma first_occurrences_In (l : list str) (x : str) :
  In x (first_occurrences l) <-> In x l.
Proof.
  induction l as [|y l IH] using rev_ind; [easy|].
  rewrite first_occurrences_snoc, add_In, IH, in_app_iff. cbn. intuition.
Qed.

Lemma first_occurrences_NoDup (l : list str) : NoDup (first_occurrences l).
Proof.
  induction l as [|y l IH] using rev_ind; [constructor|].
  rewrite first_occurrences_snoc. now apply add_NoDup.
Qed.

Lemma subseq_In (A : Type) (l r : list A) (x : A) :
  subseq l r -> In x l -> In x r.
Proof.
  induction 1 as [|l r y H IH|l r y H IH]; intros Hin.
  - exact Hin.
  - apply in_app_iff. left. now apply IH.
  - apply in_app_iff in Hin. apply in_app_iff.
    destruct Hin as [Hin|Hin]; [left; now apply IH | now right].
Qed.

Lemma subseq_NoDup (A : Type) (l r : list A) :
  subseq l r -> NoDup r -> NoDup l.
Proof.
  induction 1 as [|l r y H IH|l r y H IH]; intros Hr.
  - constructor.
  - apply NoDup_remove_1 in Hr. rewrite app_nil_r in Hr. now apply IH.
  - pose proof (NoDup_remove_2 _ _ _ Hr) as Hy. rewrite app_nil_r in Hy.
    apply NoDup_remove_1 in Hr. rewrite app_nil_r in Hr.
    apply NoDup_app; [now apply IH | repeat constructor; easy |].
    intros x Hx [<-|[]]. apply Hy. eapply subseq_In; eassumption.
Qed.

Lemma at_first_marker_more (main_text : str) (ms ms' : list rmatch) (ins : insertion) :
  at_first_marker main_text ms ins -> at_first_marker main_text (ms ++ ms') ins.
Proof.
  intros (ms1 & m & ms2 & -> & H1 & H2 & H3).
  exists ms1, m, (ms2 ++ ms'). rewrite <- app_assoc. now repeat split.
Qed.

Section Reinjection.
Context {D Sel : Type} {TD : Document D Sel}.
Variable main_text : str.
Variable footnotes : Dict.dict.

Lemma insert_step_invariant (done : list rmatch) (m : rmatch)
  (st st' : loop_state (D := D)) :
  reinjected main_text footnotes done st ->
  insert_step main_text footnotes st m = inr st' ->
  reinjected main_text footnotes (done ++ [m]) st'.
Proof.
  intros (Hrefs & Hsub & Hins) Hstep. unfold insert_step in Hstep.
  unfold reinjected. rewrite map_app, filter_app. cbn [map filter].
  set (num := group 1 main_text m) in *.
  destruct (Dict.contains num footnotes) eqn:Hdef; cbn [negb orb] in Hstep.
  2: { injection Hstep as <-. rewrite app_nil_r.
       split; [exact Hrefs|]. split; [exact Hsub|].
       intros ins Hin. destruct (Hins ins Hin) as [H1 H2].
       split; [now apply at_first_marker_more | exact H2]. }
  rewrite first_occurrences_snoc, <- Hrefs.
  destruct (Dict.mem num (inserted_refs st)) eqn:Hmem.
  { injection Hstep as <-. unfold Dict.add. rewrite Hmem.
    split; [reflexivity|]. split; [exact Hsub|].
    intros ins Hin. destruct (Hins ins Hin) as [H1 H2].
    split; [now apply at_first_marker_more | exact H2]. }
  assert (Hadd : Dict.add num (inserted_refs st) = inserted_refs st ++ [num]).
  { unfold Dict.add. now rewrite Hmem. }
  destruct (Dict.get num footnotes) as [note_text|] eqn:Hget; [|discriminate].
  destruct (FindString (WordExport.document st) (group0 main_text m)) as [selection|].
  - destruct (AppendFootnote (WordExport.document st) selection note_text) as [e|d'];
      [discriminate|].
    cbn [bind] in Hstep. injection Hstep as <-. cbn.
    split; [reflexivity|]. rewrite map_app, Hadd. cbn [map i_num].
    split; [now apply subseq_take|].
    intros ins Hin. apply in_app_iff in Hin. destruct Hin as [Hin|[<-|[]]].
    + destruct (Hins ins Hin) as [H1 H2].
      split; [now apply at_first_marker_more | exact H2].
    + cbn. split; [|exact Hget].
      exists done, m, []. repeat split. intros m' Hm' E. cbn in E.
      assert (In num (inserted_refs st)).
      { rewrite Hrefs. apply first_occurrences_In. apply filter_In.
        split; [|exact Hdef]. rewrite <- E. apply in_map. exact Hm'. }
      apply mem_In in H. congruence.
  - injection Hstep as <-. cbn.
    split; [reflexivity|]. rewrite Hadd.
    split; [now apply subseq_skip|].
    intros ins Hin. destruct (Hins ins Hin) as [H1 H2].
    split; [now apply at_first_marker_more | exact H2].
Qed.

Lemma insert_loop_invariant (ms done : list rmatch) (st st' : loop_state (D := D)) :
  reinjected main_text footnotes done st ->
  insert_loop main_text footnotes ms st = inr st' ->
  reinjected main_text footnotes (done ++ ms) st'.
Proof.
  revert done st. induction ms as [|m ms IH]; intros done st Hinv Hloop.
  - cbn in Hloop. injection Hloop as <-. now rewrite app_nil_r.
  - cbn [insert_loop] in Hloop.
    destruct (insert_step main_text footnotes st m) as [e|st1] eqn:Hstep;
      [discriminate|].
    cbn [bind] in Hloop.
    replace (done ++ m :: ms) with ((done ++ [m]) ++ ms)
      by (now rewrite <- app_assoc).
    apply (IH _ st1); [|exact Hloop].
    eapply insert_step_invariant; eassumption.
Qed.

Lemma insert_footnotes_invariant (d : D) (st : loop_state (D := D)) :
  insert_footnotes main_text footnotes d = inr st ->
  reinjected main_text footnotes (finditer inline_ref_pattern main_text) st.
Proof.
  intros H. unfold insert_footnotes in H.
  eapply insert_loop_invariant with (done := []); [|exact H].
  repeat split; cbn; try constructor; contradiction.
Qed.

End Reinjection.

(** *** Markers the loop passes *)

Section Passes.
Context {D Sel : Type} {TD : Document D Sel}.

(** One turn of the loop at a marker whose number is already recorded. *)
Lemma insert_step_passes_recorded (main_text : str) (footnotes : Dict.dict)
  (st : loop_state (D := D)) (m : rmatch) :
  Dict.mem (group 1 main_text m) (inserted_refs st) = true ->
  insert_step main_text footnotes st m = inr st.
Proof.
  intros Hmem. unfold insert_step. rewrite Hmem, orb_true_r. reflexivity.
Qed.

Lemma insert_loop_passes_undefined (main_text : str) (footnotes : Dict.dict)
  (ms : list rmatch) (st : loop_state (D := D)) :
  (forall m, In m ms -> Dict.contains (group 1 main_text m) footnotes = false) ->
  insert_loop main_text footnotes ms st = inr st.
Proof.
  induction ms as [|m ms IH]; intros H; [reflexivity|].
  cbn [insert_loop]. unfold insert_step.
  rewrite (H m (or_introl eq_refl)). cbn [negb orb bind].
  apply IH. intros m' Hm'. apply H. now right.
Qed.

End Passes.

(** *** The loop at the first marker of a number *)

Section FirstMarker.
Context {D Sel : Type} {TD : Document D Sel}.
Variable main_text : str.
Variable footnotes : Dict.dict.
Variable num : str.

Lemma insert_loop_app (ms1 ms2 : list rmatch) (st : loop_state (D := D)) :
  insert_loop main_text footnotes (ms1 ++ ms2) st
  = (st1 <- insert_loop main_text footnotes ms1 st ;;
     insert_loop main_text footnotes ms2 st1).
Proof.
  revert st. induction ms1 as [|m ms1 IH]; intros st; [reflexivity|].
  cbn [app insert_loop].
  destruct (insert_step main_text footnotes st m) as [e|st']; [reflexivity|].
  cbn [bind]. apply IH.
Qed.

Lemma mem_add_other (k : str) (s : Dict.strset) :
  k <> num -> Dict.mem num (Dict.add k s) = Dict.mem num s.
Proof.
  intros Hk. destruct (Dict.mem num s) eqn:E.
  - apply mem_In. apply add_In. right. now apply mem_In.
  - destruct (Dict.mem num (Dict.add k s)) eqn:E'; [|reflexivity].
    apply mem_In, add_In in E'. destruct E' as [E'|E']; [congruence|].
    apply mem_In in E'. congruence.
Qed.

(** A turn of the loop at a marker of another number changes nothing
    for the number. *)
Lemma insert_step_other (st st' : loop_state (D := D)) (m : rmatch) :
  insert_step main_text footnotes st m = inr st' ->
  group 1 main_text m <> num ->
  insertions_for num st' = insertions_for num st
  /\ Dict.mem num (inserted_refs st') = Dict.mem num (inserted_refs st).
Proof.
  unfold insert_step. intros H Hm.
  destruct (negb (Dict.contains (group 1 main_text m) footnotes)
            || Dict.mem (group 1 main_text m) (inserted_refs st)).
  { injection H as <-. now split. }
  destruct (Dict.get (group 1 main_text m) footnotes) as [note|]; [|discriminate].
  destruct (FindString (WordExport.document st) (group0 main_text m)) as [sel|].
  - destruct (AppendFootnote (WordExport.document st) sel note) as [e|d'];
      [discriminate|].
    cbn [bind] in H. injection H as <-. unfold insertions_for. cbn [inserted inserted_refs].
    split; [|now apply mem_add_other].
    rewrite filter_app. cbn [filter i_num].
    rewrite (str_eqb_neq Hm). apply app_nil_r.
  - injection H as <-. unfold insertions_for. cbn [inserted inserted_refs].
    split; [reflexivity | now apply mem_add_other].
Qed.

Lemma insert_loop_other (ms : list rmatch) (st st' : loop_state (D := D)) :
  insert_loop main_text footnotes ms st = inr st' ->
  (forall m, In m ms -> group 1 main_text m <> num) ->
  insertions_for num st' = insertions_for num st
  /\ Dict.mem num (inserted_refs st') = Dict.mem num (inserted_refs st).
Proof.
  revert st. induction ms as [|m ms IH]; intros st H Hms.
  - injection H as <-. now split.
  - cbn [insert_loop] in H.
    destruct (insert_step main_text footnotes st m) as [e|st1] eqn:Hstep;
      [discriminate|].
    cbn [bind] in H.
    destruct (insert_step_other _ _ Hstep (Hms m (or_introl eq_refl))) as [E1 E2].
    destruct (IH st1 H (fun m' Hm' => Hms m' (or_intror Hm'))) as [E3 E4].
    split; congruence.
Qed.

(** Once the number is recorded, the rest of the loop inserts nothing
    for it. *)
Lemma insert_loop_recorded (ms : list rmatch) (st st' : loop_state (D := D)) :
  insert_loop main_text footnotes ms st = inr st' ->
  Dict.mem num (inserted_refs st) = true ->
  insertions_for num st' = insertions_for num st
  /\ Dict.mem num (inserted_refs st') = true.
Proof.
  revert st. induction ms as [|m ms IH]; intros st H Hrec.
  - injection H as <-. now split.
  - cbn [insert_loop] in H.
    destruct (insert_step main_text footnotes st m) as [e|st1] eqn:Hstep;
      [discriminate|].
    cbn [bind] in H.
    destruct (str_eqb (group 1 main_text m) num) eqn:Em.
    + apply str_eqb_eq in Em.
      rewrite insert_step_passes_recorded in Hstep by (now rewrite Em).
      injection Hstep as <-. now apply IH.
    + assert (Hm : group 1 main_text m <> num).
      { intros E. apply str_eqb_eq in E. congruence. }
      destruct (insert_step_other _ _ Hstep Hm) as [E1 E2].
      destruct (IH st1 H) as [E3 E4]; [congruence|].
      split; congruence.
Qed.

(** The loop over markers of which [m] is the first of its number, a
    number that has a footnote: the number is recorded, and one footnote
    is inserted for it when the document locates the text of [m], none
    when it does not. *)
Lemma insert_loop_first_marker (ms1 ms2 : list rmatch) (m : rmatch) (body : str)
  (st0 st : loop_state (D := D)) :
  insert_loop main_text footnotes (ms1 ++ m :: ms2) st0 = inr st ->
  group 1 main_text m = num ->
  (forall m', In m' ms1 -> group 1 main_text m' <> num) ->
  Dict.get num footnotes = Some body ->
  Dict.mem num (inserted_refs st0) = false ->
  insertions_for num st0 = [] ->
  exists st1,
    insert_loop main_text footnotes ms1 st0 = inr st1
    /\ Dict.mem num (inserted_refs st) = true
    /\ insertions_for num st
       = match FindString (WordExport.document st1) (group0 main_text m) with
         | Some _ => [{| i_num := num; i_marker := group0 main_text m;
                         i_body := body |}]
         | None => []
         end.
Proof.
  intros H Hm Hms1 Hget Hmem Hnone. rewrite insert_loop_app in H.
  destruct (insert_loop main_text footnotes ms1 st0) as [e|st1] eqn:H1;
    [discriminate|].
  cbn [bind insert_loop] in H. exists st1. split; [reflexivity|].
  destruct (insert_loop_other _ _ H1 Hms1) as [E1 E2].
  destruct (insert_step main_text footnotes st1 m) as [e|st2] eqn:Hstep;
    [discriminate|].
  cbn [bind] in H.
  assert (Hst2 : Dict.mem num (inserted_refs st2) = true
                 /\ insertions_for num st2
                    = match FindString (WordExport.document st1) (group0 main_text m) with
                      | Some _ => [{| i_num := num; i_marker := group0 main_text m;
                                      i_body := body |}]
                      | None => []
                      end).
  { unfold insert_step, Dict.contains in Hstep. rewrite Hm, Hget, E2, Hmem in Hstep.
    cbn [negb orb] in Hstep.
    assert (Hadd : Dict.mem num (Dict.add num (inserted_refs st1)) = true).
    { apply mem_In, add_In. now left. }
    destruct (FindString (WordExport.document st1) (group0 main_text m)) as [sel|].
    - destruct (AppendFootnote (WordExport.document st1) sel body) as [e|d'];
        [discriminate|].
      cbn [bind] in Hstep. injection Hstep as <-. cbn [inserted_refs].
      split; [exact Hadd|]. unfold insertions_for. cbn [inserted].
      rewrite filter_app. fold (insertions_for num st1). rewrite E1, Hnone.
      cbn [app filter i_num]. now rewrite str_eqb_refl.
    - injection Hstep as <-. cbn [inserted_refs].
      split; [exact Hadd|]. unfold insertions_for. cbn [inserted].
      fold (insertions_for num st1). now rewrite E1. }
  destruct Hst2 as [Hrec Hins].
  destruct (insert_loop_recorded _ _ H Hrec) as [E3 E4].
  split; [exact E4 | congruence].
Qed.

End FirstMarker.




(** ** Footnote pipeline: extraction and stripping *)

Lemma rep_greedy_short (R : Type) (p : char -> bool) (k : cont R) (s : str) :
  forall (n : nat) (prev : option char) (pos : nat) (mk : list nat),
    run_at p n s = false -> rep_greedy p n k prev s pos mk = None.
Proof.
  induction s as [|x s IH]; intros [|n] prev pos mk H; try discriminate H.
  - reflexivity.
  - cbn in H. cbn [rep_greedy]. destruct (p x); [|reflexivity].
    cbn in H. cbn [pred]. now rewrite IH.
Qed.

(** [re.sub] leaves a text without a long enough run as it is. *)
Lemma sub_no_run (p : char -> bool) (n : nat) (repl : str) (t : str) :
  forall prev, no_run p n t = true -> sub_from [Rep false n p] repl prev t 0 = t.
Proof.
  induction t as [|x t IH]; intros prev H; cbn [no_run] in H;
    apply andb_true_iff in H; destruct H as [Hrun Hrest];
    apply negb_true_iff in Hrun;
    cbn [sub_from exec]; rewrite rep_greedy_short by exact Hrun.
  - reflexivity.
  - now rewrite IH.
Qed.

(** [re.sub(r' +', ' ', t)] leaves a text without two spaces in a row as
    it is: every match is one space, replaced by one space. *)
Lemma sub_single_spaces (t : str) :
  forall prev, no_run (N.eqb 32) 2 t = true ->
               sub_from [Rep false 1 (N.eqb 32)] [32%N] prev t 0 = t.
Proof.
  induction t as [|x t IH]; intros prev H; [reflexivity|].
  cbn [no_run] in H. apply andb_true_iff in H. destruct H as [Hrun Hrest].
  apply negb_true_iff in Hrun. cbn [run_at] in Hrun.
  cbn [sub_from exec rep_greedy pred].
  destruct (N.eqb 32 x) eqn:Hx.
  - apply N.eqb_eq in Hx. subst x. cbn [andb] in Hrun.
    destruct t as [|y t]; [reflexivity|].
    rewrite andb_true_r in Hrun. cbn [rep_greedy]. rewrite Hrun.
    cbn [app]. now rewrite IH.
  - now rewrite IH.
Qed.

Lemma lstrip_head (t : str) : not_space_at_head t = true -> lstrip t = t.
Proof.
  destruct t as [|x t]; [reflexivity|]. cbn. intros H.
  apply negb_true_iff in H. now rewrite H.
Qed.

Lemma strip_tidy_ends (t : str) :
  not_space_at_head t = true -> not_space_at_head (rev t) = true -> strip t = t.
Proof.
  intros H1 H2. unfold strip, rstrip.
  rewrite (lstrip_head _ H1), (lstrip_head _ H2). apply rev_involutive.
Qed.

Lemma clean_up_tidy (t : str) : tidy t = true -> clean_up t = t.
Proof.
  unfold tidy, clean_up, sub. rewrite !andb_true_iff.
  intros [[[H3 H2] Hh] Hl].
  rewrite (sub_no_run (N.eqb nl) 3 [nl; nl] t None H3).
  rewrite (sub_single_spaces t None H2).
  now apply strip_tidy_ends.
Qed.

(** C5, as the code has it.  On a text in which the footnote pattern
    matches nowhere, extraction returns the empty map and stripping deletes
    no footnote body: its result is the clean-up of the text (three or more
    newlines in a row become two, spaces in a row become one, white space at
    both ends goes), which is the text itself when the text is tidy.  Both
    functions are total: they raise on no input. *)
Theorem no_footnotes_only_clean_up (text : str) :
  finditer footnote_pattern text = [] ->
  extract_footnotes text = []
  /\ remove_footnote_content_from_main text (extract_footnotes text) = clean_up text
  /\ (tidy text = true ->
      remove_footnote_content_from_main text (extract_footnotes text) = text).
Proof.
  intros H.
  assert (E : extract_footnotes text = []).
  { unfold extract_footnotes. now rewrite H. }
  rewrite E. split; [reflexivity|]. split; [reflexivity|].
  intros Ht. now apply clean_up_tidy.
Qed.

Lemma no_footnotes_only_clean_up_witness :
  remove_footnote_content_from_main (py "a b") (extract_footnotes (py "a b")) = py "a b".
Proof.
  apply (no_footnotes_only_clean_up (py "a b")); vm_compute; reflexivity.
Defined.

(** C5 as it is written fails on "a  b": extraction finds nothing, and
    stripping returns "a b", not the text. *)
Lemma stripping_modifies_text_without_footnotes :
  finditer footnote_pattern two_spaces = []
  /\ extract_footnotes two_spaces = []
  /\ remove_footnote_content_from_main two_spaces (extract_footnotes two_spaces)
     = py "a b"
  /\ remove_footnote_content_from_main two_spaces (extract_footnotes two_spaces)
     <> two_spaces.
Proof. repeat split; vm_compute; try reflexivity; discriminate. Qed.

(** ** The matcher on a text put together from parts *)

Lemma before_cons (prev : option char) (x : char) (u : str) :
  before (Some x) u = before prev (x :: u).
Proof.
  unfold before. cbn [rev]. destruct (rev u) as [|c r] eqn:E; reflexivity.
Qed.

Section Shift.
Variable a : nat.

Lemma rep_greedy_shift (p : char -> bool) (k : cont (nat * list nat)) :
  commutes a k -> forall min, commutes a (rep_greedy p min k).
Proof.
  intros Hk min prev s. revert min prev.
  induction s as [|x s IH]; intros min prev pos mk; cbn [rep_greedy].
  - destruct min; [apply Hk | reflexivity].
  - destruct (p x).
    + rewrite <- Nat.add_succ_r, IH.
      destruct (rep_greedy p (pred min) k (Some x) s (S pos) mk); [reflexivity|].
      destruct min; [apply Hk | reflexivity].
    + destruct min; [apply Hk | reflexivity].
Qed.

Lemma rep_lazy_shift (p : char -> bool) (k : cont (nat * list nat)) :
  commutes a k -> forall min, commutes a (rep_lazy p min k).
Proof.
  intros Hk min prev s. revert min prev.
  induction s as [|x s IH]; intros min prev pos mk; cbn [rep_lazy].
  - destruct min; [|reflexivity]. rewrite Hk.
    destruct (k prev [] pos mk); reflexivity.
  - destruct min.
    + rewrite Hk. destruct (k prev (x :: s) pos mk); [reflexivity|].
      destruct (p x); [|reflexivity]. rewrite <- Nat.add_succ_r. apply IH.
    + destruct (p x); [|reflexivity]. rewrite <- Nat.add_succ_r. apply IH.
Qed.

Lemma exec_shift (r : regex) : commutes a (exec r).
Proof.
  induction r as [|n r IH]; [intros prev s pos mk; reflexivity|].
  destruct n as [c|p|lazy min p| | |]; cbn [exec].
  - intros prev [|x s] pos mk; [reflexivity|].
    destruct (x =? c)%N; [|reflexivity]. rewrite <- Nat.add_succ_r. apply IH.
  - intros prev [|x s] pos mk; [reflexivity|].
    destruct (p x); [|reflexivity]. rewrite <- Nat.add_succ_r. apply IH.
  - destruct lazy; [now apply rep_lazy_shift | now apply rep_greedy_shift].
  - intros [c|] s pos mk; [|apply IH].
    destruct (c =? nl)%N; [apply IH | reflexivity].
  - intros prev [|x s] pos mk; [apply IH|].
    destruct (x =? nl)%N; [apply IH | reflexivity].
  - intros prev s pos mk. apply (IH prev s pos (pos :: mk)).
Qed.

Lemma finditer_from_shift (r : regex) (s : str) :
  forall prev at_ skip,
    finditer_from r prev s (a + at_) skip
    = map (shift a) (finditer_from r prev s at_ skip).
Proof.
  induction s as [|x s IH]; intros prev at_ skip; cbn [finditer_from].
  - destruct skip; [|reflexivity].
    pose proof (exec_shift r prev [] at_ []) as E. cbn [map] in E. rewrite E.
    destruct (exec r prev [] at_ []) as [[e mk]|]; [|reflexivity].
    cbn. unfold shift. cbn. now rewrite map_rev.
  - destruct skip as [|skip].
    + pose proof (exec_shift r prev (x :: s) at_ []) as E. cbn [map] in E.
      rewrite E.
      destruct (exec r prev (x :: s) at_ []) as [[e mk]|]; cbn.
      * unfold shift at 1. cbn. rewrite map_rev. f_equal.
        replace (a + e - (a + at_)) with (e - at_) by lia.
        rewrite <- Nat.add_succ_r. apply IH.
      * rewrite <- Nat.add_succ_r. apply IH.
    + rewrite <- Nat.add_succ_r. apply IH.
Qed.

End Shift.

Lemma finditer_from_at (r : regex) (s : str) (prev : option char) (at_ : nat) :
  finditer_from r prev s at_ 0 = map (shift at_) (finditer_from r prev s 0 0).
Proof.
  rewrite <- (Nat.add_0_r at_) at 1. apply finditer_from_shift.
Qed.

Lemma slice_shift (u v : str) (a b : nat) :
  slice (u ++ v) (List.length u + a) (List.length u + b) = slice v a b.
Proof.
  unfold slice. rewrite skipn_app.
  replace (List.length u + a - List.length u) with a by lia.
  rewrite skipn_all2 by lia. cbn [app]. f_equal. lia.
Qed.

Lemma group0_shift (u v : str) (m : rmatch) :
  group0 (u ++ v) (shift (List.length u) m) = group0 v m.
Proof. unfold group0, shift. cbn. apply slice_shift. Qed.

Lemma group_shift (i : nat) (u v : str) (m : rmatch) :
  2 * i - 1 < List.length (m_marks m) ->
  group i (u ++ v) (shift (List.length u) m) = group i v m.
Proof.
  intros H. unfold group, shift. cbn [m_marks].
  rewrite !(nth_indep (map _ _) 0 (List.length u + 0))
    by (rewrite length_map; lia).
  rewrite !map_nth. apply slice_shift.
Qed.

(** [re.sub] copies a part of the text in which no match begins. *)
Lemma sub_from_copies (r : regex) (repl u s : str) :
  forall prev,
    (forall u1 x u2 prev', u = u1 ++ x :: u2 ->
                           exec r prev' (x :: u2 ++ s) 0 [] = None) ->
    sub_from r repl prev (u ++ s) 0 = u ++ sub_from r repl (before prev u) s 0.
Proof.
  induction u as [|x u IH]; intros prev H; [reflexivity|].
  cbn [app sub_from]. rewrite (H [] x u prev eq_refl).
  rewrite IH.
  - now rewrite <- (before_cons prev).
  - intros u1 y u2 prev' E. apply (H (x :: u1) y u2 prev'). now rewrite E.
Qed.

(** ** What [str.strip()] returns *)

Lemma lstrip_suffix (t : str) :
  exists ws, t = ws ++ lstrip t /\ forallb isspace ws = true.
Proof.
  induction t as [|x t (ws & E & Hws)]; [now exists []|].
  cbn [lstrip]. destruct (isspace x) eqn:Hx.
  - exists (x :: ws). cbn [app forallb]. rewrite Hx, Hws. now rewrite <- E.
  - now exists [].
Qed.

Lemma lstrip_starts_without_space (t : str) : not_space_at_head (lstrip t) = true.
Proof.
  induction t as [|x t IH]; [reflexivity|].
  cbn [lstrip]. destruct (isspace x) eqn:Hx; [exact IH|].
  cbn. now rewrite Hx.
Qed.

Lemma rstrip_prefix (t : str) :
  exists ws, t = rstrip t ++ ws /\ forallb isspace ws = true.
Proof.
  unfold rstrip. destruct (lstrip_suffix (rev t)) as (ws & E & Hws).
  exists (rev ws). split.
  - rewrite <- rev_app_distr, <- E. symmetry. apply rev_involutive.
  - rewrite forallb_forall in *. intros x Hx. apply Hws. now apply in_rev.
Qed.

Lemma strip_middle (t : str) :
  exists ws1 ws2, t = ws1 ++ strip t ++ ws2.
Proof.
  unfold strip. destruct (lstrip_suffix t) as (ws1 & E1 & _).
  destruct (rstrip_prefix (lstrip t)) as (ws2 & E2 & _).
  exists ws1, ws2. now rewrite <- E2.
Qed.

Lemma strip_ends (t : str) :
  not_space_at_head (strip t) = true /\ not_space_at_head (rev (strip t)) = true.
Proof.
  unfold strip. split.
  - destruct (rstrip_prefix (lstrip t)) as (ws & E & _).
    pose proof (lstrip_starts_without_space t) as H. rewrite E in H.
    destruct (rstrip (lstrip t)); [reflexivity | exact H].
  - unfold rstrip. rewrite rev_involutive. apply lstrip_starts_without_space.
Qed.

Lemma forallb_strip (f : char -> bool) (t : str) :
  forallb f t = true -> forallb f (strip t) = true.
Proof.
  intros H. destruct (strip_middle t) as (ws1 & ws2 & E). rewrite E in H.
  rewrite !forallb_app in H. apply andb_true_iff in H. destruct H as [_ H].
  apply andb_true_iff in H. tauto.
Qed.

(** ** What a match of the matcher looks like *)

Lemma before_app (prev : option char) (u v : str) :
  before (before prev u) v = before prev (u ++ v).
Proof.
  unfold before. rewrite rev_app_distr.
  destruct (rev v) as [|c r]; [|reflexivity]. cbn [app].
  destruct (rev u); reflexivity.
Qed.

Lemma rep_greedy_inv (R : Type) (p : char -> bool) (k : cont R) (s : str) :
  forall min prev pos mk res,
    rep_greedy p min k prev s pos mk = Some res ->
    exists u s' : str, s = u ++ s' /\ forallb p u = true /\ min <= List.length u
                 /\ k (before prev u) s' (pos + List.length u) mk = Some res.
Proof.
  induction s as [|x s IH]; intros min prev pos mk res H; cbn [rep_greedy] in H.
  - destruct min; [|discriminate]. exists [], []. cbn. now rewrite Nat.add_0_r.
  - assert (Hstop : match min with O => k prev (x :: s) pos mk | S _ => None end
                    = Some res ->
                    exists u s' : str, x :: s = u ++ s' /\ forallb p u = true
                                 /\ min <= List.length u
                                 /\ k (before prev u) s' (pos + List.length u) mk
                                    = Some res).
    { destruct min; [|discriminate]. intros Hk. exists [], (x :: s). cbn.
      now rewrite Nat.add_0_r. }
    destruct (p x) eqn:Hx; [|now apply Hstop].
    destruct (rep_greedy p (pred min) k (Some x) s (S pos) mk) as [r|] eqn:Hrec;
      [|now apply Hstop].
    injection H as <-. apply IH in Hrec.
    destruct Hrec as (u & s' & -> & Hu & Hmin & Hk).
    exists (x :: u), s'. cbn [app forallb List.length]. rewrite Hx, Hu.
    rewrite <- (before_cons prev), Nat.add_succ_r.
    repeat split; [lia | exact Hk].
Qed.

Lemma exec_Lit_inv (c : char) (r : regex) (prev : option char) (s : str)
  (pos : nat) (mk : list nat) (res : nat * list nat) :
  exec (Lit c :: r) prev s pos mk = Some res ->
  exists s' : str, s = c :: s' /\ exec r (Some c) s' (S pos) mk = Some res.
Proof.
  cbn [exec]. destruct s as [|x s]; [discriminate|].
  destruct (x =? c)%N eqn:E; [|discriminate].
  apply N.eqb_eq in E. subst x. intros H. now exists s.
Qed.

Lemma exec_Rep_inv (min : nat) (p : char -> bool) (r : regex) (prev : option char)
  (s : str) (pos : nat) (mk : list nat) (res : nat * list nat) :
  exec (Rep false min p :: r) prev s pos mk = Some res ->
  exists u s' : str, s = u ++ s' /\ forallb p u = true /\ min <= List.length u
               /\ exec r (before prev u) s' (pos + List.length u) mk = Some res.
Proof. cbn [exec]. apply rep_greedy_inv. Qed.

Lemma exec_Bol_inv (r : regex) (prev : option char) (s : str)
  (pos : nat) (mk : list nat) (res : nat * list nat) :
  exec (Bol :: r) prev s pos mk = Some res -> exec r prev s pos mk = Some res.
Proof.
  cbn [exec]. destruct prev as [c|]; [|easy].
  destruct (c =? nl)%N; [easy | discriminate].
Qed.

Lemma exec_Eol_inv (r : regex) (prev : option char) (s : str)
  (pos : nat) (mk : list nat) (res : nat * list nat) :
  exec (Eol :: r) prev s pos mk = Some res -> exec r prev s pos mk = Some res.
Proof.
  cbn [exec]. destruct s as [|x s]; [easy|].
  destruct (x =? nl)%N; [easy | discriminate].
Qed.

(** A match of the footnote pattern: white space, "(", digits, ")", white
    space, a remainder without newline; the groups are the digits and the
    remainder. *)
Lemma footnote_match_shape (prev : option char) (s : str) (pos e : nat)
  (mk : list nat) :
  exec footnote_pattern prev s pos [] = Some (e, mk) ->
  exists ws ds ws' body rest : str,
    s = ws ++ 40%N :: ds ++ 41%N :: ws' ++ body ++ rest
    /\ forallb isdecimal ds = true /\ 1 <= List.length ds
    /\ forallb dot body = true /\ 1 <= List.length body
    /\ rev mk = [pos + List.length ws + 1;
                 pos + List.length ws + 1 + List.length ds;
                 pos + List.length ws + 1 + List.length ds + 1 + List.length ws';
                 pos + List.length ws + 1 + List.length ds + 1 + List.length ws'
                 + List.length body].
Proof.
  unfold footnote_pattern. intros H.
  apply exec_Bol_inv in H.
  apply exec_Rep_inv in H. destruct H as (ws & s1 & -> & _ & _ & H).
  apply exec_Lit_inv in H. destruct H as (s2 & -> & H).
  cbn [exec] in H. fold exec in H.
  change (rep_greedy isdecimal 1
            (exec [Mark; Lit 41; Rep false 0 isspace; Mark; Rep false 1 dot; Mark; Eol])
            (Some 40%N) s2 (S (pos + List.length ws)) [S (pos + List.length ws)]
          = Some (e, mk)) in H.
  apply rep_greedy_inv in H. destruct H as (ds & s3 & -> & Hds & Hlen & H).
  change (exec (Lit 41 :: [Rep false 0 isspace; Mark; Rep false 1 dot; Mark; Eol])
            (before (Some 40%N) ds) s3 (S (pos + List.length ws) + List.length ds)
            ((S (pos + List.length ws) + List.length ds)
               :: [S (pos + List.length ws)])
          = Some (e, mk)) in H.
  apply exec_Lit_inv in H. destruct H as (s4 & -> & H).
  apply exec_Rep_inv in H. destruct H as (ws' & s5 & -> & _ & _ & H).
  change (exec (Rep false 1 dot :: [Mark; Eol]) (before (Some 41%N) ws') s5
            (S (S (pos + List.length ws) + List.length ds) + List.length ws')
            ((S (S (pos + List.length ws) + List.length ds) + List.length ws')
               :: [S (pos + List.length ws) + List.length ds;
                   S (pos + List.length ws)])
          = Some (e, mk)) in H.
  apply exec_Rep_inv in H. destruct H as (body & rest & -> & Hbody & Hblen & H).
  change (exec (Eol :: [])
            (before (before (Some 41%N) ws') body) rest
            (S (S (pos + List.length ws) + List.length ds) + List.length ws'
             + List.length body)
            ((S (S (pos + List.length ws) + List.length ds) + List.length ws'
              + List.length body)
               :: [S (S (pos + List.length ws) + List.length ds) + List.length ws';
                   S (pos + List.length ws) + List.length ds;
                   S (pos + List.length ws)])
          = Some (e, mk)) in H.
  apply exec_Eol_inv in H. cbn [exec] in H. injection H as _ <-.
  exists ws, ds, ws', body, rest.
  repeat split; try assumption.
  cbn [rev app].
  unfold str, char in *.
  repeat (apply (f_equal2 (@cons nat)); [lia|]). reflexivity.
Qed.

Lemma finditer_from_In (r : regex) (s : str) :
  forall prev at_ skip m,
    In m (finditer_from r prev s at_ skip) ->
    exists (pre s' : str) (prev' : option char) (mk : list nat),
      s = pre ++ s' /\ m_start m = at_ + List.length pre
      /\ m_marks m = rev mk
      /\ exec r prev' s' (at_ + List.length pre) [] = Some (m_end m, mk).
Proof.
  induction s as [|x s IH]; intros prev at_ skip m Hin; cbn [finditer_from] in Hin.
  - destruct skip; [|contradiction].
    destruct (exec r prev [] at_ []) as [[e mk]|] eqn:E; [|contradiction].
    destruct Hin as [<-|[]]. exists [], [], prev, mk. cbn.
    rewrite Nat.add_0_r. repeat split. exact E.
  - assert (Hrest : forall skip',
               In m (finditer_from r (Some x) s (S at_) skip') ->
               exists (pre s' : str) (prev' : option char) (mk : list nat),
                 x :: s = pre ++ s' /\ m_start m = at_ + List.length pre
                 /\ m_marks m = rev mk
                 /\ exec r prev' s' (at_ + List.length pre) [] = Some (m_end m, mk)).
    { intros skip' H. apply IH in H.
      destruct H as (pre & s' & prev' & mk & -> & Hs & Hm & He).
      exists (x :: pre), s', prev', mk. cbn [app List.length].
      rewrite Nat.add_succ_r. repeat split; assumption. }
    destruct skip as [|skip]; [|now apply (Hrest skip)].
    destruct (exec r prev (x :: s) at_ []) as [[e mk]|] eqn:E;
      [|now apply (Hrest 0)].
    destruct Hin as [<-|Hin]; [|now apply (Hrest _ Hin)].
    exists [], (x :: s), prev, mk. cbn. rewrite Nat.add_0_r. repeat split. exact E.
Qed.

Lemma slice_middle (a m b : str) (i j : nat) :
  i = List.length a -> j = List.length a + List.length m ->
  slice (a ++ m ++ b) i j = m.
Proof.
  intros -> ->. unfold slice. rewrite skipn_app, Nat.sub_diag, skipn_all.
  cbn [app skipn].
  replace (List.length a + List.length m - List.length a) with (List.length m) by lia.
  rewrite firstn_app, Nat.sub_diag, firstn_all. cbn [firstn]. apply app_nil_r.
Qed.

(** The groups of a match of the footnote pattern, found by [finditer] in
    [text]. *)
Lemma footnote_match_groups (text : str) (m : rmatch) :
  In m (finditer footnote_pattern text) ->
  exists pre ws ws' body rest : str,
    text = pre ++ ws ++ 40%N :: group 1 text m ++ 41%N :: ws' ++ body ++ rest
    /\ group 2 text m = body
    /\ forallb isdecimal (group 1 text m) = true
    /\ 1 <= List.length (group 1 text m)
    /\ forallb dot body = true /\ 1 <= List.length body.
Proof.
  intros Hin. apply finditer_from_In in Hin.
  destruct Hin as (pre & s' & prev' & mk & E & _ & Hm & He).
  apply footnote_match_shape in He.
  destruct He as (ws & ds & ws' & body & rest & -> & Hds & Hlen & Hbody & Hblen & Hmk).
  cbn [app] in E. subst text.
  assert (G1 : group 1 (pre ++ ws ++ 40%N :: ds ++ 41%N :: ws' ++ body ++ rest) m = ds).
  { unfold group. rewrite Hm, Hmk. cbn [nth Nat.mul Nat.sub Nat.add].
    replace (pre ++ ws ++ 40%N :: ds ++ 41%N :: ws' ++ body ++ rest)
      with ((pre ++ ws ++ [40%N]) ++ ds ++ 41%N :: ws' ++ body ++ rest)
      by (now rewrite <- !app_assoc).
    apply slice_middle; rewrite !length_app; cbn [List.length];
      unfold str, char in *; lia. }
  assert (G2 : group 2 (pre ++ ws ++ 40%N :: ds ++ 41%N :: ws' ++ body ++ rest) m
               = body).
  { unfold group. rewrite Hm, Hmk. cbn [nth Nat.mul Nat.sub Nat.add].
    replace (pre ++ ws ++ 40%N :: ds ++ 41%N :: ws' ++ body ++ rest)
      with ((pre ++ ws ++ 40%N :: ds ++ 41%N :: ws') ++ body ++ rest)
      by (rewrite <- !app_assoc; cbn [app]; now rewrite <- !app_assoc).
    apply slice_middle; rewrite !length_app; cbn [List.length];
      rewrite !length_app; cbn [List.length]; unfold str, char in *; lia. }
  rewrite G1, G2. exists pre, ws, ws', body, rest. repeat split; assumption.
Qed.

(** A match of the inline pattern: "(", white space, digits, white space,
    ")"; the group is the digits. *)
Lemma inline_match_shape (prev : option char) (s : str) (pos e : nat)
  (mk : list nat) :
  exec inline_ref_pattern prev s pos [] = Some (e, mk) ->
  exists ws ds ws' rest : str,
    s = 40%N :: ws ++ ds ++ ws' ++ 41%N :: rest
    /\ forallb isspace ws = true /\ forallb isspace ws' = true
    /\ forallb isdecimal ds = true /\ 1 <= List.length ds
    /\ rev mk = [pos + 1 + List.length ws;
                 pos + 1 + List.length ws + List.length ds]
    /\ e = pos + 1 + List.length ws + List.length ds + List.length ws' + 1.
Proof.
  unfold inline_ref_pattern. intros H.
  apply exec_Lit_inv in H. destruct H as (s1 & -> & H).
  apply exec_Rep_inv in H. destruct H as (ws & s2 & -> & Hws & _ & H).
  cbn [exec] in H. fold exec in H.
  change (rep_greedy isdecimal 1 (exec [Mark; Rep false 0 isspace; Lit 41])
            (before (Some 40%N) ws) s2 (S pos + List.length ws)
            [S pos + List.length ws]
          = Some (e, mk)) in H.
  apply rep_greedy_inv in H. destruct H as (ds & s3 & -> & Hds & Hlen & H).
  change (exec (Rep false 0 isspace :: [Lit 41])
            (before (before (Some 40%N) ws) ds) s3
            (S pos + List.length ws + List.length ds)
            ((S pos + List.length ws + List.length ds)
               :: [S pos + List.length ws])
          = Some (e, mk)) in H.
  apply exec_Rep_inv in H. destruct H as (ws' & s4 & -> & Hws' & _ & H).
  apply exec_Lit_inv in H. destruct H as (rest & -> & H).
  cbn [exec] in H. injection H as <- <-.
  exists ws, ds, ws', rest. unfold str, char in *.
  repeat split; try assumption; [|lia].
  cbn [rev app]. repeat (apply (f_equal2 (@cons nat)); [lia|]). reflexivity.
Qed.

Lemma inline_match_groups (text : str) (m : rmatch) :
  In m (finditer inline_ref_pattern text) ->
  exists ws ws' : str,
    group0 text m = 40%N :: ws ++ group 1 text m ++ ws' ++ [41%N]
    /\ forallb isspace ws = true /\ forallb isspace ws' = true
    /\ forallb isdecimal (group 1 text m) = true
    /\ 1 <= List.length (group 1 text m).
Proof.
  intros Hin. apply finditer_from_In in Hin.
  destruct Hin as (pre & s' & prev' & mk & E & Hstart & Hm & He).
  apply inline_match_shape in He.
  destruct He as (ws & ds & ws' & rest & -> & Hws & Hws' & Hds & Hlen & Hmk & Hend).
  cbn [app] in E. subst text.
  assert (G1 : group 1 (pre ++ 40%N :: ws ++ ds ++ ws' ++ 41%N :: rest) m = ds).
  { unfold group. rewrite Hm, Hmk. cbn [nth Nat.mul Nat.sub Nat.add].
    replace (pre ++ 40%N :: ws ++ ds ++ ws' ++ 41%N :: rest)
      with ((pre ++ 40%N :: ws) ++ ds ++ ws' ++ 41%N :: rest)
      by (rewrite <- !app_assoc; cbn [app]; reflexivity).
    apply slice_middle; repeat (rewrite length_app || cbn [List.length]);
      unfold str, char in *; lia. }
  assert (G0 : group0 (pre ++ 40%N :: ws ++ ds ++ ws' ++ 41%N :: rest) m
               = 40%N :: ws ++ ds ++ ws' ++ [41%N]).
  { unfold group0. rewrite Hstart, Hend.
    replace (pre ++ 40%N :: ws ++ ds ++ ws' ++ 41%N :: rest)
      with (pre ++ (40%N :: ws ++ ds ++ ws' ++ [41%N]) ++ rest)
      by (cbn [app]; rewrite <- !app_assoc; cbn [app]; reflexivity).
    apply slice_middle; repeat (rewrite length_app || cbn [List.length]);
      unfold str, char in *; lia. }
  rewrite G1, G0. exists ws, ws'. repeat split; assumption.
Qed.

Lemma no_match_no_finditer (r : regex) (text : str) :
  (forall m, ~ In m (finditer r text)) -> finditer r text = [].
Proof.
  intros H. destruct (finditer r text) as [|m ms]; [reflexivity|].
  elim (H m). now left.
Qed.

(** ** The clean-up passes: [re.sub] of a run of one class *)

Lemma run_at_span (p : char -> bool) (t : str) :
  forall n, run_at p n t = (n <=? span p t).
Proof.
  induction t as [|x t IH]; intros [|n]; cbn [run_at span]; try reflexivity.
  destruct (p x); cbn [andb]; [apply IH | reflexivity].
Qed.

Lemma no_run_cons (p : char -> bool) (k : nat) (x : char) (t : str) :
  no_run p k (x :: t) = negb (k <=? span p (x :: t)) && no_run p k t.
Proof. cbn [no_run]. now rewrite run_at_span. Qed.

Lemma no_run_span (p : char -> bool) (k : nat) (t : str) :
  1 <= k -> no_run p k t = true -> span p t < k.
Proof.
  intros Hk H. destruct t as [|x t]; [cbn; lia|].
  rewrite no_run_cons in H. apply andb_true_iff in H. destruct H as [H _].
  apply negb_true_iff, Nat.leb_gt in H. exact H.
Qed.

Lemma span_app_run (p : char -> bool) (r o : str) :
  forallb p r = true -> span p (r ++ o) = List.length r + span p o.
Proof.
  induction r as [|y r IH]; [reflexivity|]. cbn [forallb app span List.length].
  intros H. apply andb_true_iff in H. destruct H as [Hy Hr].
  rewrite Hy. now rewrite IH.
Qed.

Lemma no_run_run_app (p : char -> bool) (k : nat) (r o : str) :
  forallb p r = true -> List.length r < k -> span p o = 0 ->
  no_run p k o = true -> no_run p k (r ++ o) = true.
Proof.
  intros Hr Hlen Ho Hno. induction r as [|y r IH]; [exact Hno|].
  cbn [forallb] in Hr. apply andb_true_iff in Hr. destruct Hr as [Hy Hr].
  cbn [app]. rewrite no_run_cons.
  change (y :: r ++ o) with ((y :: r) ++ o).
  rewrite span_app_run by (cbn [forallb]; now rewrite Hy, Hr).
  rewrite Ho, Nat.add_0_r. apply andb_true_iff. split.
  - apply negb_true_iff, Nat.leb_gt. exact Hlen.
  - apply IH; [exact Hr | cbn [List.length] in Hlen; lia].
Qed.

Lemma rep_greedy_whole_run (p : char -> bool) (s : str) :
  forall n prev pos mk,
    rep_greedy p n (exec []) prev s pos mk
    = if n <=? span p s then Some (pos + span p s, mk) else None.
Proof.
  induction s as [|x s IH]; intros n prev pos mk; cbn [rep_greedy span].
  - destruct n; cbn; [now rewrite Nat.add_0_r | reflexivity].
  - destruct (p x).
    + rewrite IH. destruct n as [|n]; cbn [pred Nat.leb].
      * now rewrite Nat.add_succ_r.
      * destruct (n <=? span p s); [now rewrite Nat.add_succ_r | reflexivity].
    + destruct n; cbn; [now rewrite Nat.add_0_r | reflexivity].
Qed.

Lemma exec_run (p : char -> bool) (n : nat) (prev : option char) (s : str) :
  exec [Rep false n p] prev s 0 []
  = if n <=? span p s then Some (span p s, []) else None.
Proof. cbn [exec]. apply rep_greedy_whole_run. Qed.

Section Squeeze.
Variable p : char -> bool.
Variable n k : nat.
Variable repl : str.
Hypothesis n_positive : 1 <= n.
Hypothesis repl_in_class : forallb p repl = true.
Hypothesis repl_short : List.length repl <= n.
Hypothesis n_le_k : n <= k.
Hypothesis repl_lt_k : List.length repl < k.

(** Replacing every run of [n] or more characters of a class by fewer
    than [k] of them leaves no run of [k]. *)
Lemma sub_run_squeezes (s : str) :
  forall prev skip,
    (skip = 0 ->
     no_run p k (sub_from [Rep false n p] repl prev s skip) = true
     /\ span p (sub_from [Rep false n p] repl prev s skip) <= span p s)
    /\ (skip = span p s ->
        no_run p k (sub_from [Rep false n p] repl prev s skip) = true
        /\ span p (sub_from [Rep false n p] repl prev s skip) = 0).
Proof.
  induction s as [|x s IH]; intros prev skip.
  - assert (E : sub_from [Rep false n p] repl prev [] skip = []).
    { destruct skip; [|reflexivity]. cbn [sub_from]. rewrite exec_run.
      cbn [span]. destruct n; [lia | reflexivity]. }
    rewrite E.
    assert (Hk : no_run p k [] = true) by (destruct k; [lia | reflexivity]).
    split; intros _; split; [exact Hk | cbn; lia | exact Hk | reflexivity].
  - assert (Hzero :
        no_run p k (sub_from [Rep false n p] repl prev (x :: s) 0) = true
        /\ span p (sub_from [Rep false n p] repl prev (x :: s) 0) <= span p (x :: s)).
    { cbn [sub_from]. rewrite exec_run.
      destruct (n <=? span p (x :: s)) eqn:E.
      - apply Nat.leb_le in E. cbn [span] in E |- *.
        destruct (p x) eqn:Hx; [|lia].
        destruct (proj2 (IH (Some x) (span p s)) eq_refl) as [Hno Hsp].
        split.
        + now apply no_run_run_app.
        + rewrite span_app_run by exact repl_in_class. rewrite Hsp. lia.
      - apply Nat.leb_gt in E.
        destruct (proj1 (IH (Some x) 0) eq_refl) as [Hno Hsp].
        rewrite no_run_cons, Hno, andb_true_r.
        assert (Hle : span p (x :: sub_from [Rep false n p] repl (Some x) s 0)
                      <= span p (x :: s)).
        { cbn [span]. destruct (p x); lia. }
        split; [|exact Hle]. apply negb_true_iff, Nat.leb_gt. lia. }
    split.
    + intros ->. exact Hzero.
    + destruct skip as [|skip].
      * intros E. destruct Hzero as [Hno Hsp]. split; [exact Hno | lia].
      * cbn [span sub_from]. destruct (p x); [|discriminate].
        intros [= E]. exact (proj2 (IH (Some x) skip) E).
Qed.

End Squeeze.

Section KeepsOtherRuns.
Variable p q : char -> bool.
Variable n j : nat.
Variable c0 : char.
Variable repl : str.
Hypothesis n_positive : 1 <= n.
Hypothesis j_positive : 1 <= j.
Hypothesis disjoint : forall c, p c = true -> q c = false.
Hypothesis repl_head : q c0 = false.
Hypothesis repl_other : forallb (fun c => negb (q c)) repl = true.

Lemma no_run_other_app (r o : str) :
  forallb (fun c => negb (q c)) r = true ->
  no_run q j o = true -> no_run q j (r ++ o) = true.
Proof.
  intros Hr Ho. induction r as [|y r IH]; [exact Ho|].
  cbn [forallb] in Hr. apply andb_true_iff in Hr. destruct Hr as [Hy Hr].
  apply negb_true_iff in Hy.
  cbn [app]. rewrite no_run_cons. cbn [span]. rewrite Hy.
  apply andb_true_iff. split; [apply negb_true_iff, Nat.leb_gt; lia | now apply IH].
Qed.

(** Replacing the runs of one class by a non-empty text leaves the runs
    of a disjoint class as short as they were. *)
Lemma sub_run_keeps_other_runs (s : str) :
  forall prev skip,
    no_run q j s = true ->
    no_run q j (sub_from [Rep false n p] (c0 :: repl) prev s skip) = true
    /\ (skip = 0 ->
        span q (sub_from [Rep false n p] (c0 :: repl) prev s skip) <= span q s).
Proof.
  induction s as [|x s IH]; intros prev skip Hs.
  - assert (E : sub_from [Rep false n p] (c0 :: repl) prev [] skip = []).
    { destruct skip; [|reflexivity]. cbn [sub_from]. rewrite exec_run.
      cbn [span]. destruct n; [lia | reflexivity]. }
    rewrite E. split; [exact Hs | intros _; cbn; lia].
  - pose proof Hs as Hs'. rewrite no_run_cons in Hs'.
    apply andb_true_iff in Hs'. destruct Hs' as [Hhead Htail].
    apply negb_true_iff, Nat.leb_gt in Hhead.
    destruct skip as [|skip].
    2: { cbn [sub_from]. split; [apply (IH (Some x) skip Htail) | discriminate]. }
    cbn [sub_from]. rewrite exec_run.
    destruct (n <=? span p (x :: s)) eqn:E.
    + apply Nat.leb_le in E. cbn [span] in E |- *.
      destruct (p x) eqn:Hx; [|lia].
      assert (Hq : q x = false) by (apply disjoint; exact Hx).
      destruct (IH (Some x) (span p s) Htail) as [Hno _].
      change ((c0 :: repl) ++ sub_from [Rep false n p] (c0 :: repl) (Some x) s (span p s))
        with (c0 :: repl ++ sub_from [Rep false n p] (c0 :: repl) (Some x) s (span p s)).
      split.
      * rewrite no_run_cons. cbn [span]. rewrite repl_head.
        apply andb_true_iff. split; [apply negb_true_iff, Nat.leb_gt; lia|].
        now apply no_run_other_app.
      * intros _. cbn [span]. rewrite repl_head. lia.
    + destruct (IH (Some x) 0 Htail) as [Hno Hsp]. specialize (Hsp eq_refl).
      assert (Hle : span q (x :: sub_from [Rep false n p] (c0 :: repl) (Some x) s 0)
                    <= span q (x :: s)).
      { cbn [span]. destruct (q x); lia. }
      split; [|intros _; exact Hle].
      rewrite no_run_cons, Hno, andb_true_r.
      apply negb_true_iff, Nat.leb_gt. lia.
Qed.

End KeepsOtherRuns.

Lemma no_run_app_r (p : char -> bool) (k : nat) (u v : str) :
  no_run p k (u ++ v) = true -> no_run p k v = true.
Proof.
  induction u as [|x u IH]; [easy|]. cbn [app no_run].
  intros H. apply andb_true_iff in H. now apply IH.
Qed.

Lemma span_app_le (p : char -> bool) (u v : str) : span p u <= span p (u ++ v).
Proof.
  induction u as [|x u IH]; cbn [app span]; [lia|]. destruct (p x); lia.
Qed.

Lemma no_run_app_l (p : char -> bool) (k : nat) (u v : str) :
  1 <= k -> no_run p k (u ++ v) = true -> no_run p k u = true.
Proof.
  intros Hk. induction u as [|x u IH]; intros H.
  - cbn. destruct k; [lia | reflexivity].
  - change ((x :: u) ++ v) with (x :: u ++ v) in H. rewrite no_run_cons in *.
    apply andb_true_iff in H. destruct H as [H1 H2].
    apply negb_true_iff, Nat.leb_gt in H1. apply andb_true_iff. split.
    + apply negb_true_iff, Nat.leb_gt.
      pose proof (span_app_le p (x :: u) v). cbn [app] in *. lia.
    + now apply IH.
Qed.

Lemma no_run_strip (p : char -> bool) (k : nat) (t : str) :
  1 <= k -> no_run p k t = true -> no_run p k (strip t) = true.
Proof.
  intros Hk H. destruct (strip_middle t) as (ws1 & ws2 & E). rewrite E in H.
  apply no_run_app_r in H. now apply no_run_app_l in H.
Qed.

Lemma clean_up_is_tidy (t : str) : tidy (clean_up t) = true.
Proof.
  unfold clean_up, sub.
  set (t2 := sub_from [Rep false 3 (N.eqb nl)] [nl; nl] None t 0).
  assert (H2 : no_run (N.eqb nl) 3 t2 = true).
  { refine (proj1 (proj1 (@sub_run_squeezes (N.eqb nl) 3 3 [nl; nl]
                             _ eq_refl _ _ _ t None 0) eq_refl)); cbn; lia. }
  set (t3 := sub_from [Rep false 1 (N.eqb 32)] [32%N] None t2 0).
  assert (H3 : no_run (N.eqb 32) 2 t3 = true).
  { refine (proj1 (proj1 (@sub_run_squeezes (N.eqb 32) 1 2 [32%N]
                             _ eq_refl _ _ _ t2 None 0) eq_refl)); cbn; lia. }
  assert (H3' : no_run (N.eqb nl) 3 t3 = true).
  { refine (proj1 (@sub_run_keeps_other_runs (N.eqb 32) (N.eqb nl) 1 3 32%N []
                      _ _ _ eq_refl eq_refl t2 None 0 H2)); try lia.
    intros c Hc. apply N.eqb_eq in Hc. subst c. reflexivity. }
  unfold tidy. rewrite !andb_true_iff. repeat split.
  - apply no_run_strip; [lia | exact H3'].
  - apply no_run_strip; [lia | exact H3].
  - apply strip_ends.
  - apply strip_ends.
Qed.

(** ** Lines that begin with a parenthesis *)

Lemma line_blank_app (st : bool) (u v : str) :
  line_blank st (u ++ v) = line_blank (line_blank st u) v.
Proof. revert st. induction u as [|c u IH]; intros st; [reflexivity|]. cbn. apply IH. Qed.

Lemma no_line_paren_app (st : bool) (u v : str) :
  no_line_paren st (u ++ v) = no_line_paren st u && no_line_paren (line_blank st u) v.
Proof.
  revert st. induction u as [|c u IH]; intros st; [reflexivity|].
  cbn [app no_line_paren line_blank]. now rewrite IH, andb_assoc.
Qed.

Lemma line_blank_space (ws : str) :
  forallb isspace ws = true -> line_blank true ws = true.
Proof.
  induction ws as [|c ws IH]; [reflexivity|]. cbn [forallb line_blank].
  intros H. apply andb_true_iff in H. destruct H as [Hc Hws].
  rewrite Hc, orb_true_r. now apply IH.
Qed.

Lemma line_blank_after_nl (st : bool) (u : str) : line_blank st (u ++ [nl]) = true.
Proof. rewrite line_blank_app. reflexivity. Qed.

(** A position where [^] matches stands after white space only. *)
Lemma line_blank_line_start (pre : str) :
  before None pre = None \/ before None pre = Some nl -> line_blank true pre = true.
Proof.
  unfold before. destruct (rev pre) as [|c r] eqn:E.
  - intros _. apply (f_equal (@rev char)) in E. rewrite rev_involutive in E.
    now subst pre.
  - intros [H|H]; [discriminate|]. injection H as ->.
    apply (f_equal (@rev char)) in E. rewrite rev_involutive in E. subst pre.
    cbn [rev]. apply line_blank_after_nl.
Qed.

(** Conversely, white space after a line start can be cut at a position
    where [^] matches. *)
Lemma line_blank_split (u : str) :
  line_blank true u = true ->
  exists pre ws : str,
    u = pre ++ ws /\ forallb isspace ws = true
    /\ (before None pre = None \/ before None pre = Some nl).
Proof.
  induction u as [|c u IH] using rev_ind; intros H.
  - exists [], []. repeat split. now left.
  - rewrite line_blank_app in H. cbn [line_blank] in H.
    destruct (c =? nl)%N eqn:Hc.
    + apply N.eqb_eq in Hc. subst c. exists (u ++ [nl]), [].
      rewrite app_nil_r. repeat split. right. unfold before.
      rewrite rev_app_distr. reflexivity.
    + cbn [orb] in H. apply andb_true_iff in H. destruct H as [Hu Hsp].
      destruct (IH Hu) as (pre & ws & -> & Hws & Hpre).
      exists pre, (ws ++ [c]). rewrite <- app_assoc. repeat split; [|exact Hpre].
      rewrite forallb_app, Hws. cbn. now rewrite Hsp.
Qed.

Lemma no_line_paren_at (st : bool) (u Y : str) :
  no_line_paren st (u ++ 40%N :: Y) = true -> line_blank st u = false.
Proof.
  rewrite no_line_paren_app. cbn [no_line_paren]. rewrite N.eqb_refl, andb_true_r.
  intros H. apply andb_true_iff in H. destruct H as [_ H].
  apply andb_true_iff in H. destruct H as [H _]. now apply negb_true_iff in H.
Qed.

Lemma no_line_paren_without (st : bool) (t : str) :
  forallb (fun c => negb (c =? 40)%N) t = true -> no_line_paren st t = true.
Proof.
  revert st. induction t as [|c t IH]; intros st; [reflexivity|].
  cbn [forallb no_line_paren]. intros H. apply andb_true_iff in H.
  destruct H as [Hc Ht]. apply negb_true_iff in Hc. rewrite Hc, andb_false_r.
  now apply IH.
Qed.

(** In a text whose one line-initial "(" stands after [u0], a "(" that
    stands after a line start and white space is that one. *)
Lemma line_paren_unique (u0 L u Y : str) :
  no_line_paren true u0 = true -> no_line_paren false L = true ->
  u0 ++ 40%N :: L = u ++ 40%N :: Y -> line_blank true u = true ->
  u = u0 /\ Y = L.
Proof.
  intros H0 HL E Hu. apply app_eq_app in E.
  destruct E as (l & [[-> E]|[-> E]]).
  - destruct l as [|x l].
    + cbn in E. injection E as ->. now rewrite app_nil_r.
    + cbn in E. injection E as <- ->.
      apply no_line_paren_at in H0. congruence.
  - destruct l as [|x l].
    + cbn in E. injection E as <-. now rewrite app_nil_r.
    + cbn in E. injection E as <- ->.
      apply no_line_paren_at in HL.
      rewrite line_blank_app in Hu. cbn [line_blank] in Hu.
      assert (Hs : line_blank true u0 && isspace 40 = false) by apply andb_false_r.
      change ((40 =? nl)%N) with false in Hu. cbn [orb] in Hu.
      rewrite Hs in Hu. congruence.
Qed.

(** ** Deleting white space *)

Lemma squeezed_refl (t : str) : squeezed t t.
Proof. induction t; constructor; assumption. Qed.

Lemma squeezed_app (a a' b b' : str) :
  squeezed a a' -> squeezed b b' -> squeezed (a ++ b) (a' ++ b').
Proof. induction 1; intros Hb; cbn [app]; [exact Hb | |]; constructor; auto. Qed.

Lemma squeezed_trans (a b c : str) : squeezed a b -> squeezed b c -> squeezed a c.
Proof.
  intros Hab. revert c. induction Hab as [|x a b Hab IH|x a b Hx Hab IH]; intros c Hbc.
  - exact Hbc.
  - inversion Hbc; subst.
    + constructor. now apply IH.
    + apply squeezed_drop; [assumption|]. now apply IH.
  - apply squeezed_drop; [assumption|]. now apply IH.
Qed.

Lemma squeezed_space (ws : str) : forallb isspace ws = true -> squeezed ws [].
Proof.
  induction ws as [|c ws IH]; [constructor|]. cbn [forallb]. intros H.
  apply andb_true_iff in H. destruct H. apply squeezed_drop; auto.
Qed.

Lemma squeezed_split (u v t' : str) :
  squeezed (u ++ v) t' ->
  exists u' v', t' = u' ++ v' /\ squeezed u u' /\ squeezed v v'.
Proof.
  revert t'. induction u as [|c u IH]; intros t' H.
  - exists [], t'. repeat split; [constructor | exact H].
  - cbn [app] in H. inversion H; subst.
    + destruct (IH _ H3) as (u' & v' & -> & Hu & Hv).
      exists (c :: u'), v'. repeat split; [now constructor | exact Hv].
    + destruct (IH _ H4) as (u' & v' & -> & Hu & Hv).
      exists u', v'. repeat split; [now apply squeezed_drop | exact Hv].
Qed.

Lemma squeezed_word (w w' : str) :
  forallb (fun c => negb (isspace c)) w = true -> squeezed w w' -> w' = w.
Proof.
  intros Hw H. induction H as [|c t t' H IH|c t t' Hc H IH].
  - reflexivity.
  - cbn [forallb] in Hw. apply andb_true_iff in Hw. destruct Hw as [_ Hw].
    now rewrite IH.
  - cbn [forallb] in Hw. apply andb_true_iff in Hw. destruct Hw as [Hn _].
    rewrite Hc in Hn. discriminate.
Qed.

Lemma squeezed_of_space (ws w' : str) :
  forallb isspace ws = true -> squeezed ws w' -> forallb isspace w' = true.
Proof.
  intros Hws H. induction H as [|c t t' H IH|c t t' Hc H IH].
  - reflexivity.
  - cbn [forallb] in *. apply andb_true_iff in Hws. destruct Hws as [Hc Hws].
    now rewrite Hc, IH.
  - cbn [forallb] in Hws. apply andb_true_iff in Hws. destruct Hws as [_ Hws].
    now apply IH.
Qed.

(** Deleting white space makes no "(" the first of its line. *)
Lemma squeezed_no_line_paren (t t' : str) :
  squeezed t t' ->
  forall st st', (st' = true -> st = true) ->
    no_line_paren st t = true -> no_line_paren st' t' = true.
Proof.
  induction 1 as [|c t t' H IH|c t t' Hc H IH]; intros st st' Hst Hno.
  - reflexivity.
  - cbn [no_line_paren] in *. apply andb_true_iff in Hno. destruct Hno as [H1 H2].
    apply andb_true_iff. split.
    + destruct st'; [|reflexivity]. now rewrite (Hst eq_refl) in H1.
    + apply (IH ((c =? nl)%N || st && isspace c)); [|exact H2].
      destruct (c =? nl)%N; [reflexivity|]. cbn [orb].
      intros E. apply andb_true_iff in E. destruct E as [E1 E2].
      now rewrite (Hst E1), E2.
  - cbn [no_line_paren] in Hno. apply andb_true_iff in Hno. destruct Hno as [_ H2].
    apply (IH ((c =? nl)%N || st && isspace c)); [|exact H2].
    intros E. rewrite (Hst E), Hc. apply orb_true_r.
Qed.

Lemma squeezed_repeat (c : char) (k m : nat) (rest out : str) :
  isspace c = true -> k <= m -> squeezed rest out ->
  squeezed (repeat c m ++ rest) (repeat c k ++ out).
Proof.
  intros Hc. revert k. induction m as [|m IH]; intros k Hk H.
  - replace k with 0 by lia. exact H.
  - destruct k as [|k]; cbn [repeat app].
    + apply squeezed_drop; [exact Hc|]. apply (IH 0); [lia | exact H].
    + apply squeezed_keep. apply IH; [lia | exact H].
Qed.

Lemma span_run (c : char) (s : str) :
  s = repeat c (span (N.eqb c) s) ++ skipn (span (N.eqb c) s) s.
Proof.
  induction s as [|x s IH]; [reflexivity|]. cbn [span].
  destruct (N.eqb c x) eqn:E; [|reflexivity].
  apply N.eqb_eq in E. subst x. cbn [repeat skipn app]. now rewrite <- IH.
Qed.

(** [re.sub] of the runs of one white space character by a shorter run
    of it only deletes white space. *)
Lemma sub_run_squeezed (c : char) (n k : nat) (s : str) :
  isspace c = true -> 1 <= n -> k <= n ->
  forall prev skip, skip <= span (N.eqb c) s ->
    squeezed (skipn skip s) (sub_from [Rep false n (N.eqb c)] (repeat c k) prev s skip).
Proof.
  intros Hc Hn Hk. induction s as [|x s IH]; intros prev skip Hskip.
  - cbn [span] in Hskip. replace skip with 0 by lia.
    cbn [sub_from skipn]. rewrite exec_run. cbn [span].
    destruct n; [lia|]. cbn. constructor.
  - destruct skip as [|j].
    + cbn [skipn sub_from]. rewrite exec_run.
      destruct (n <=? span (N.eqb c) (x :: s)) eqn:E.
      * apply Nat.leb_le in E. cbn [span] in E |- *.
        destruct (N.eqb c x) eqn:Ex; [|lia].
        apply N.eqb_eq in Ex. subst x.
        rewrite (span_run c s) at 1.
        change (c :: repeat c (span (N.eqb c) s) ++ skipn (span (N.eqb c) s) s)
          with (repeat c (S (span (N.eqb c) s)) ++ skipn (span (N.eqb c) s) s).
        apply squeezed_repeat; [exact Hc | lia|]. apply IH. lia.
      * apply squeezed_keep. apply (IH (Some x) 0). lia.
    + cbn [span] in Hskip. destruct (N.eqb c x); [|lia].
      cbn [skipn sub_from]. apply IH. lia.
Qed.

Lemma strip_squeezed (t : str) : squeezed t (strip t).
Proof.
  unfold strip. destruct (lstrip_suffix t) as (ws1 & E1 & H1).
  destruct (rstrip_prefix (lstrip t)) as (ws2 & E2 & H2).
  rewrite E1 at 1. rewrite E2 at 1.
  rewrite <- (app_nil_l (rstrip (lstrip t))) at 2.
  apply squeezed_app; [now apply squeezed_space|].
  rewrite <- (app_nil_r (rstrip (lstrip t))) at 2.
  apply squeezed_app; [apply squeezed_refl | now apply squeezed_space].
Qed.

(** The clean-up of [remove_footnote_content_from_main] only deletes
    white space. *)
Lemma clean_up_squeezed (t : str) : squeezed t (clean_up t).
Proof.
  unfold clean_up, sub.
  eapply squeezed_trans; [|apply strip_squeezed].
  assert (H32 : 1 <= 3 /\ 2 <= 3 /\ 1 <= 1) by lia.
  destruct H32 as (Ha & Hb & Hc).
  eapply squeezed_trans.
  - exact (@sub_run_squeezed nl 3 2 t eq_refl Ha Hb None 0 (Nat.le_0_l _)).
  - exact (@sub_run_squeezed 32%N 1 1 _ eq_refl Hc Hc None 0 (Nat.le_0_l _)).
Qed.

(** ** Where a match begins, and what greedy repetition takes *)

(** A match [finditer] returns was found by a match attempt at its start,
    with the character before the start as the matcher saw it. *)
Lemma finditer_from_In_before (r : regex) (s : str) :
  forall prev at_ skip m,
    In m (finditer_from r prev s at_ skip) ->
    exists (pre s' : str) (mk : list nat),
      s = pre ++ s' /\ m_start m = at_ + List.length pre
      /\ m_marks m = rev mk
      /\ exec r (before prev pre) s' (at_ + List.length pre) [] = Some (m_end m, mk).
Proof.
  induction s as [|x s IH]; intros prev at_ skip m Hin; cbn [finditer_from] in Hin.
  - destruct skip; [|contradiction].
    destruct (exec r prev [] at_ []) as [[e mk]|] eqn:E; [|contradiction].
    destruct Hin as [<-|[]]. exists [], [], mk. cbn.
    rewrite Nat.add_0_r. repeat split. exact E.
  - assert (Hrest : forall skip',
               In m (finditer_from r (Some x) s (S at_) skip') ->
               exists (pre s' : str) (mk : list nat),
                 x :: s = pre ++ s' /\ m_start m = at_ + List.length pre
                 /\ m_marks m = rev mk
                 /\ exec r (before prev pre) s' (at_ + List.length pre) []
                    = Some (m_end m, mk)).
    { intros skip' H. apply IH in H.
      destruct H as (pre & s' & mk & -> & Hs & Hm & He).
      exists (x :: pre), s', mk. cbn [app List.length].
      rewrite Nat.add_succ_r, <- (before_cons prev). repeat split; assumption. }
    destruct skip as [|skip]; [|now apply (Hrest skip)].
    destruct (exec r prev (x :: s) at_ []) as [[e mk]|] eqn:E;
      [|now apply (Hrest 0)].
    destruct Hin as [<-|Hin]; [|now apply (Hrest _ Hin)].
    exists [], (x :: s), mk. cbn. rewrite Nat.add_0_r. repeat split. exact E.
Qed.

(** When [finditer] finds nothing, no match attempt succeeds anywhere. *)
Lemma finditer_from_nil (r : regex) (u s : str) :
  forall prev at_,
    finditer_from r prev (u ++ s) at_ 0 = [] ->
    exec r (before prev u) s (at_ + List.length u) [] = None.
Proof.
  induction u as [|x u IH]; intros prev at_ H.
  - cbn [app] in H. cbn. rewrite Nat.add_0_r.
    destruct s as [|y s]; cbn [finditer_from] in H;
      destruct (exec r prev _ at_ []) as [[e mk]|]; [discriminate | reflexivity
                                                    | discriminate | reflexivity].
  - cbn [app finditer_from] in H.
    destruct (exec r prev (x :: u ++ s) at_ []) as [[e mk]|]; [discriminate|].
    apply IH in H. cbn [List.length]. now rewrite Nat.add_succ_r, <- (before_cons prev).
Qed.

(** Greedy repetition over a whole run of the class, when the rest of the
    pattern matches after the run. *)
Lemma rep_greedy_takes_all (R : Type) (p : char -> bool) (k : cont R) (u s' : str) :
  forallb p u = true ->
  not_in_class_at_head p s' = true ->
  forall min prev pos mk res,
    min <= List.length u ->
    k (before prev u) s' (pos + List.length u) mk = Some res ->
    rep_greedy p min k prev (u ++ s') pos mk = Some res.
Proof.
  intros Hu Hs'. induction u as [|y u IH]; intros min prev pos mk res Hmin Hk.
  - cbn [List.length] in Hmin. replace min with 0 by lia.
    cbn in Hk. rewrite Nat.add_0_r in Hk. cbn [app].
    destruct s' as [|x s']; cbn [rep_greedy]; [exact Hk|].
    cbn in Hs'. apply negb_true_iff in Hs'. rewrite Hs'. exact Hk.
  - cbn [forallb] in Hu. apply andb_true_iff in Hu. destruct Hu as [Hy Hu].
    cbn [app rep_greedy]. rewrite Hy.
    rewrite (IH Hu (pred min) (Some y) (S pos) mk res); [reflexivity | |].
    + cbn [List.length] in Hmin. lia.
    + rewrite (before_cons prev). cbn [List.length] in Hk.
      now rewrite Nat.add_succ_r in Hk.
Qed.

Lemma exec_Bol_start (r : regex) (prev : option char) (s : str)
  (pos : nat) (mk : list nat) (res : nat * list nat) :
  exec (Bol :: r) prev s pos mk = Some res ->
  (prev = None \/ prev = Some nl) /\ exec r prev s pos mk = Some res.
Proof.
  cbn [exec]. destruct prev as [c|]; [|now split; [left|]].
  destruct (c =? nl)%N eqn:E; [|discriminate].
  apply N.eqb_eq in E. subst c. now split; [right|].
Qed.

Lemma exec_Eol_end (r : regex) (prev : option char) (s : str)
  (pos : nat) (mk : list nat) (res : nat * list nat) :
  exec (Eol :: r) prev s pos mk = Some res ->
  not_in_class_at_head dot s = true /\ exec r prev s pos mk = Some res.
Proof.
  cbn [exec]. destruct s as [|x s]; [now split|].
  unfold dot. cbn. destruct (x =? nl)%N; [now split | discriminate].
Qed.

(** A match of the footnote pattern begins at a line start and is white
    space, "(", digits, ")", white space and a remainder without newline
    that ends its line. *)
Lemma footnote_match_line (prev : option char) (s : str) (pos : nat)
  (res : nat * list nat) :
  exec footnote_pattern prev s pos [] = Some res ->
  (prev = None \/ prev = Some nl)
  /\ exists ws ds ws' body rest : str,
       s = ws ++ 40%N :: ds ++ 41%N :: ws' ++ body ++ rest
       /\ forallb isspace ws = true
       /\ forallb isdecimal ds = true /\ 1 <= List.length ds
       /\ forallb isspace ws' = true
       /\ forallb dot body = true /\ 1 <= List.length body
       /\ not_in_class_at_head dot rest = true.
Proof.
  unfold footnote_pattern. intros H.
  apply exec_Bol_start in H. destruct H as [Hprev H]. split; [exact Hprev|].
  apply exec_Rep_inv in H. destruct H as (ws & s1 & -> & Hws & _ & H).
  apply exec_Lit_inv in H. destruct H as (s2 & -> & H).
  cbn [exec] in H. fold exec in H.
  apply rep_greedy_inv in H. destruct H as (ds & s3 & -> & Hds & Hlen & H).
  cbn [exec] in H. fold exec in H.
  destruct s3 as [|x s3]; [discriminate|].
  destruct (x =? 41)%N eqn:Ex; [|discriminate]. apply N.eqb_eq in Ex. subst x.
  apply rep_greedy_inv in H. destruct H as (ws' & s5 & -> & Hws' & _ & H).
  cbn [exec] in H. fold exec in H.
  apply rep_greedy_inv in H. destruct H as (body & rest & -> & Hbody & Hblen & H).
  cbn [exec] in H. fold exec in H.
  assert (Hrest : not_in_class_at_head dot rest = true).
  { destruct rest as [|y rest]; [reflexivity|]. unfold dot. cbn.
    destruct (y =? nl)%N; [reflexivity | discriminate]. }
  exists ws, ds, ws', body, rest. repeat split; assumption.
Qed.

(** The footnote pattern on a footnote line: white space, "(", a number,
    ")", white space, and a body that ends its line. *)
Lemma exec_footnote_line (prev : option char) (ws n sp body trail : str) (pos : nat) :
  prev = None \/ prev = Some nl ->
  forallb isspace ws = true ->
  forallb isdecimal n = true -> 1 <= List.length n ->
  forallb isspace sp = true ->
  forallb dot body = true -> 1 <= List.length body ->
  not_space_at_head body = true ->
  not_in_class_at_head dot trail = true ->
  exists e mk,
    exec footnote_pattern prev (ws ++ 40%N :: n ++ 41%N :: sp ++ body ++ trail) pos []
    = Some (e, mk)
    /\ rev mk = [pos + List.length ws + 1;
                 pos + List.length ws + 1 + List.length n;
                 pos + List.length ws + 1 + List.length n + 1 + List.length sp;
                 pos + List.length ws + 1 + List.length n + 1 + List.length sp
                 + List.length body].
Proof.
  intros Hprev Hws Hn Hnlen Hsp Hbody Hblen Hhead Htrail.
  eexists. eexists. split.
  - unfold footnote_pattern.
    assert (Hbol : forall r s p m,
               exec (Bol :: r) prev s p m = exec r prev s p m).
    { intros r s p m. cbn [exec]. destruct Hprev as [->| ->]; reflexivity. }
    rewrite Hbol. cbn [exec]. fold exec.
    apply rep_greedy_takes_all; [exact Hws | reflexivity | lia |].
    cbn [exec]. fold exec. rewrite N.eqb_refl.
    apply rep_greedy_takes_all; [exact Hn | reflexivity | exact Hnlen |].
    cbn [exec]. fold exec. rewrite N.eqb_refl.
    apply rep_greedy_takes_all; [exact Hsp | | lia |].
    { destruct body as [|b body]; [cbn in Hblen; lia|]. exact Hhead. }
    cbn [exec]. fold exec.
    apply rep_greedy_takes_all; [exact Hbody | exact Htrail | exact Hblen |].
    cbn [exec]. fold exec.
    destruct trail as [|x trail]; [reflexivity|].
    unfold dot in Htrail. cbn in Htrail. apply negb_true_iff in Htrail.
    apply negb_false_iff in Htrail. rewrite Htrail. reflexivity.
  - cbn [rev app]. unfold str, char in *.
    repeat (apply (f_equal2 (@cons nat)); [lia|]). reflexivity.
Qed.

(** ** White space and digits *)

Lemma isspace_bounded (c : char) : isspace c = true -> (c <= 12288)%N.
Proof.
  unfold isspace, in_range. intros H.
  repeat match type of H with
         | (_ || _) = true => apply orb_true_iff in H; destruct H as [H|H]
         end;
    try (apply andb_true_iff in H; destruct H as [_ H]; apply N.leb_le in H; lia);
    apply N.eqb_eq in H; lia.
Qed.

Lemma space_not_decimal (c : char) : isspace c = true -> isdecimal c = false.
Proof.
  intros H. pose proof (isspace_bounded c H) as Hb.
  assert (Hall : forallb (fun i => negb (isspace (N.of_nat i))
                                  || negb (isdecimal (N.of_nat i)))
                   (seq 0 (N.to_nat 12289)) = true) by (vm_compute; reflexivity).
  rewrite forallb_forall in Hall.
  specialize (Hall (N.to_nat c)). rewrite N2Nat.id in Hall.
  rewrite H in Hall. cbn [negb orb] in Hall. apply negb_true_iff. apply Hall.
  apply in_seq. lia.
Qed.

Lemma decimal_not_space (c : char) : isdecimal c = true -> isspace c = false.
Proof.
  intros H. destruct (isspace c) eqn:E; [|reflexivity].
  apply space_not_decimal in E. congruence.
Qed.

Lemma digits_no_space (n : str) :
  forallb isdecimal n = true -> forallb (fun c => negb (isspace c)) n = true.
Proof.
  intros H. rewrite forallb_forall in *. intros c Hc.
  apply negb_true_iff, decimal_not_space. now apply H.
Qed.

Lemma digits_no_paren (n : str) :
  forallb isdecimal n = true -> forallb (fun c => negb (c =? 40)%N) n = true.
Proof.
  intros H. rewrite forallb_forall in *. intros c Hc. specialize (H c Hc).
  destruct (c =? 40)%N eqn:E; [|reflexivity].
  apply N.eqb_eq in E. subst c. discriminate H.
Qed.

(** Two runs of a class that end at the same character outside the class
    are the same run. *)
Lemma run_then_stop (p : char -> bool) (c : char) (u1 u2 r1 r2 : str) :
  forallb p u1 = true -> forallb p u2 = true -> p c = false ->
  u1 ++ c :: r1 = u2 ++ c :: r2 -> u1 = u2 /\ r1 = r2.
Proof.
  intros H1 H2 Hc. revert u2 H2.
  induction u1 as [|x u1 IH]; intros [|y u2] H2 E; cbn [app] in E.
  - injection E as ->. now split.
  - injection E as <- _. cbn in H2. rewrite Hc in H2. discriminate.
  - injection E as -> _. cbn in H1. rewrite Hc in H1. discriminate.
  - injection E as -> E. cbn [forallb] in H1, H2.
    apply andb_true_iff in H1, H2.
    destruct (IH (proj2 H1) u2 (proj2 H2) E) as [-> ->]. now split.
Qed.

(** Inside a word the cursor is not at a line start. *)
Lemma no_line_paren_word (w R : str) :
  forallb (fun c => negb (isspace c)) w = true ->
  no_line_paren false (w ++ R) = no_line_paren false R.
Proof.
  induction w as [|c w IH]; intros H; [reflexivity|].
  cbn [forallb] in H. apply andb_true_iff in H. destruct H as [Hc Hw].
  apply negb_true_iff in Hc. cbn [app no_line_paren andb negb].
  assert (E : (c =? nl)%N = false).
  { destruct (c =? nl)%N eqn:E; [|reflexivity]. apply N.eqb_eq in E. subst c.
    discriminate Hc. }
  rewrite E. cbn [orb]. now apply IH.
Qed.

(** ** [re.sub] of an escaped text *)

Lemma exec_escape (w : str) :
  forall prev s pos mk res,
    exec (escape w) prev s pos mk = Some res ->
    exists v : str, s = w ++ v /\ res = (pos + List.length w, mk).
Proof.
  induction w as [|c w IH]; intros prev s pos mk res H.
  - cbn in H. injection H as <-. exists s. now rewrite Nat.add_0_r.
  - change (escape (c :: w)) with (Lit c :: escape w) in H.
    apply exec_Lit_inv in H. destruct H as (s' & -> & H).
    apply IH in H. destruct H as (v & -> & ->).
    exists v. cbn [app List.length]. split; [reflexivity|]. f_equal. lia.
Qed.

Lemma exec_escape_here (w v : str) :
  forall prev pos mk,
    exec (escape w) prev (w ++ v) pos mk = Some (pos + List.length w, mk).
Proof.
  induction w as [|c w IH]; intros prev pos mk.
  - cbn. now rewrite Nat.add_0_r.
  - change (escape (c :: w)) with (Lit c :: escape w).
    cbn [app exec]. rewrite N.eqb_refl, IH. cbn [List.length]. f_equal. f_equal. lia.
Qed.

Lemma sub_from_skip (r : regex) (repl u s : str) :
  forall prev,
    sub_from r repl prev (u ++ s) (List.length u)
    = sub_from r repl (before prev u) s 0.
Proof.
  induction u as [|x u IH]; intros prev; [reflexivity|].
  cbn [app List.length sub_from]. rewrite IH. now rewrite (before_cons prev).
Qed.

(** Removing a text that occurs once removes that occurrence. *)
Lemma sub_escape_once (w P R : str) :
  1 <= List.length w ->
  (forall u v, P ++ w ++ R = u ++ w ++ v -> u = P) ->
  sub (escape w) [] (P ++ w ++ R) = P ++ R.
Proof.
  intros Hw Honce. unfold sub.
  rewrite sub_from_copies.
  2: { intros u1 x u2 prev' E.
       destruct (exec (escape w) prev' (x :: u2 ++ w ++ R) 0 []) as [res|] eqn:He;
         [|reflexivity].
       apply exec_escape in He. destruct He as (v & He & _).
       assert (Hu : u1 = P).
       { apply (Honce u1 v). rewrite E, <- He, <- app_assoc. reflexivity. }
       apply (f_equal (@List.length char)) in E.
       rewrite Hu, length_app in E. cbn [List.length] in E. lia. }
  f_equal.
  destruct w as [|c w]; [cbn in Hw; lia|].
  cbn [app sub_from].
  change (c :: w ++ R) with ((c :: w) ++ R).
  rewrite exec_escape_here. cbn [Nat.add List.length app].
  rewrite sub_from_skip.
  rewrite <- (app_nil_r R) at 1. rewrite sub_from_copies.
  - cbn [sub_from]. change (escape (c :: w)) with (Lit c :: escape w).
    cbn [exec]. now rewrite app_nil_r.
  - intros u1 x u2 prev' E. rewrite app_nil_r.
    destruct (exec (escape (c :: w)) prev' (x :: u2) 0 []) as [res|] eqn:He;
      [|reflexivity].
    apply exec_escape in He. destruct He as (v & He & _).
    assert (Hu : P ++ (c :: w) ++ u1 = P).
    { apply (Honce _ v). rewrite E, He, <- !app_assoc. reflexivity. }
    apply (f_equal (@List.length char)) in Hu.
    rewrite !length_app in Hu. cbn [List.length] in Hu. lia.
Qed.

Lemma fold_set_same (key val : rmatch -> str) (k v : str) (ms : list rmatch) :
  ms <> [] ->
  (forall m, In m ms -> key m = k /\ val m = v) ->
  fold_left (fun d m => Dict.set (key m) (val m) d) ms [] = [(k, v)].
Proof.
  intros Hne H. destruct ms as [|m0 ms]; [congruence|].
  cbn [fold_left Dict.set].
  destruct (H m0 (or_introl eq_refl)) as [-> ->].
  assert (Hms : forall m, In m ms -> key m = k /\ val m = v)
    by (intros m Hm; apply H; now right).
  clear H Hne. induction ms as [|m ms IH]; [reflexivity|].
  cbn [fold_left Dict.set].
  destruct (Hms m (or_introl eq_refl)) as [-> ->].
  rewrite str_eqb_refl. apply IH. intros m' Hm'. apply Hms. now right.
Qed.

(** ** A text with one footnote line *)

Section FootnoteLine.
Variables before_ n sp body trail : str.

Hypothesis line_start : line_blank true before_ = true.
Hypothesis no_line_before : no_line_paren true before_ = true.
Hypothesis digits : forallb isdecimal n = true.
Hypothesis number : 1 <= List.length n.
Hypothesis space : forallb isspace sp = true.
Hypothesis one_line : forallb dot body = true.
Hypothesis has_body : 1 <= List.length body.
Hypothesis body_head : not_space_at_head body = true.
Hypothesis body_last : not_space_at_head (rev body) = true.
Hypothesis line_end : not_in_class_at_head dot trail = true.
Hypothesis no_line_after : no_line_paren false (sp ++ body ++ trail) = true.

Lemma footnote_line_rest :
  no_line_paren false (n ++ 41%N :: sp ++ body ++ trail) = true.
Proof.
  rewrite no_line_paren_word by (now apply digits_no_space).
  exact no_line_after.
Qed.

(** Every match of the footnote pattern in the text is the footnote line:
    its groups are the number and the body. *)
Lemma footnote_line_match (m : rmatch) :
  In m (finditer footnote_pattern (footnote_text before_ n sp body trail)) ->
  group 1 (footnote_text before_ n sp body trail) m = n
  /\ group 2 (footnote_text before_ n sp body trail) m = body.
Proof.
  unfold finditer, footnote_text. intros Hin.
  apply finditer_from_In_before in Hin.
  destruct Hin as (pre & s' & mk & E & _ & Hm & He).
  cbn [Nat.add] in He.
  pose proof He as Hshape. apply footnote_match_line in Hshape.
  destruct Hshape as (Hprev & ws & ds & ws' & body' & rest & -> & Hws & _).
  assert (Hu : pre ++ ws = before_
               /\ ds ++ 41%N :: ws' ++ body' ++ rest = n ++ 41%N :: sp ++ body ++ trail).
  { apply line_paren_unique.
    - exact no_line_before.
    - exact footnote_line_rest.
    - rewrite E, <- app_assoc. reflexivity.
    - rewrite line_blank_app, (line_blank_line_start _ Hprev).
      now apply line_blank_space. }
  destruct Hu as [Hu HL]. rewrite HL in He.
  destruct (@exec_footnote_line (before None pre) ws n sp body trail
              (List.length pre) Hprev Hws digits number space one_line has_body
              body_head line_end) as (e & mk' & He' & Hmk).
  rewrite He' in He. injection He as _ <-.
  subst before_. unfold group. rewrite Hm, Hmk. cbn [nth Nat.mul Nat.sub Nat.add].
  split.
  - replace ((pre ++ ws) ++ 40%N :: n ++ 41%N :: sp ++ body ++ trail)
      with ((pre ++ ws ++ [40%N]) ++ n ++ 41%N :: sp ++ body ++ trail)
      by (rewrite <- !app_assoc; reflexivity).
    apply slice_middle; repeat (rewrite length_app || cbn [List.length]);
      unfold str, char in *; lia.
  - replace ((pre ++ ws) ++ 40%N :: n ++ 41%N :: sp ++ body ++ trail)
      with ((pre ++ ws ++ 40%N :: n ++ 41%N :: sp) ++ body ++ trail)
      by (rewrite <- !app_assoc; cbn [app]; rewrite <- !app_assoc; reflexivity).
    apply slice_middle; repeat (rewrite length_app || cbn [List.length]);
      unfold str, char in *; lia.
Qed.

Lemma footnote_line_found :
  finditer footnote_pattern (footnote_text before_ n sp body trail) <> [].
Proof.
  destruct (line_blank_split _ line_start) as (pre & ws & E & Hws & Hprev).
  intros Hnil. unfold finditer, footnote_text in Hnil. rewrite E in Hnil.
  rewrite <- app_assoc in Hnil. apply finditer_from_nil in Hnil.
  destruct (@exec_footnote_line (before None pre) ws n sp body trail
              (0 + List.length pre) Hprev Hws digits number space one_line has_body
              body_head line_end) as (e & mk' & He' & _).
  congruence.
Qed.

(** Extraction finds the one footnote. *)
Lemma extract_footnote_line :
  extract_footnotes (footnote_text before_ n sp body trail) = [(n, body)].
Proof.
  unfold extract_footnotes.
  apply (fold_set_same (group 1 (footnote_text before_ n sp body trail))
           (fun m => strip (group 2 (footnote_text before_ n sp body trail) m))).
  - exact footnote_line_found.
  - intros m Hm. destruct (footnote_line_match m Hm) as [-> ->].
    split; [reflexivity|]. now apply strip_tidy_ends.
Qed.

Hypothesis once :
  forall u v, footnote_text before_ n sp body trail = u ++ body ++ v ->
              u = before_ ++ 40%N :: n ++ 41%N :: sp.

(** Stripping removes the body and leaves the rest of the footnote line
    to the clean-up. *)
Lemma strip_footnote_line :
  remove_footnote_content_from_main (footnote_text before_ n sp body trail)
    [(n, body)]
  = clean_up (before_ ++ 40%N :: n ++ 41%N :: sp ++ trail).
Proof.
  change (remove_footnote_content_from_main (footnote_text before_ n sp body trail)
            [(n, body)])
    with (clean_up (sub (escape body) [] (footnote_text before_ n sp body trail))).
  f_equal.
  assert (E : footnote_text before_ n sp body trail
              = (before_ ++ 40%N :: n ++ 41%N :: sp) ++ body ++ trail).
  { unfold footnote_text. rewrite <- !app_assoc. cbn [app].
    rewrite <- !app_assoc. reflexivity. }
  rewrite E. rewrite sub_escape_once.
  - rewrite <- !app_assoc. cbn [app]. rewrite <- !app_assoc. reflexivity.
  - exact has_body.
  - intros u v Huv. apply (once u v). now rewrite E.
Qed.

(** What the clean-up leaves of the footnote line: the marker. *)
Lemma clean_up_keeps_marker :
  exists b' r' : str,
    clean_up (before_ ++ 40%N :: n ++ 41%N :: sp ++ trail)
    = b' ++ (40%N :: n ++ [41%N]) ++ r'
    /\ squeezed before_ b' /\ squeezed (sp ++ trail) r'.
Proof.
  pose proof (clean_up_squeezed (before_ ++ 40%N :: n ++ 41%N :: sp ++ trail)) as H.
  apply squeezed_split in H. destruct H as (b' & v' & E & Hb & Hv).
  replace (40%N :: n ++ 41%N :: sp ++ trail)
    with ((40%N :: n ++ [41%N]) ++ sp ++ trail) in Hv
    by (cbn [app]; rewrite <- app_assoc; reflexivity).
  apply squeezed_split in Hv. destruct Hv as (w' & r' & -> & Hw & Hr).
  apply squeezed_word in Hw.
  - subst w'. exists b', r'. repeat split; assumption.
  - cbn [forallb app]. rewrite forallb_app, digits_no_space by exact digits.
    reflexivity.
Qed.

End FootnoteLine.

(** ** The footnote line, its body removed *)

Lemma footnote_line_parts (before_ n sp body trail : str) :
  footnote_line before_ n sp body trail = true ->
  line_blank true before_ = true /\ no_line_paren true before_ = true
  /\ forallb isdecimal n = true /\ 1 <= List.length n
  /\ forallb isspace sp = true
  /\ forallb dot body = true /\ 1 <= List.length body
  /\ not_space_at_head body = true /\ not_space_at_head (rev body) = true
  /\ not_in_class_at_head dot trail = true
  /\ no_line_paren false (sp ++ body ++ trail) = true.
Proof.
  unfold footnote_line. rewrite !andb_true_iff, !Nat.leb_le. tauto.
Qed.

Lemma starts_with_app (w v : str) : RangeDoc.starts_with w (w ++ v) = true.
Proof.
  induction w as [|c w IH]; [reflexivity|].
  cbn [app RangeDoc.starts_with]. now rewrite N.eqb_refl, IH.
Qed.

Lemma app_same_length (A : Type) (a b x y : list A) :
  a ++ x = b ++ y -> List.length a = List.length b -> a = b.
Proof.
  revert b. induction a as [|c a IH]; intros [|e b] E Hl; try discriminate Hl.
  - reflexivity.
  - cbn [app] in E. injection E as -> E. cbn in Hl. f_equal. apply IH; [exact E | lia].
Qed.

(** A text that occurs only at one place of a text occurs once. *)
Lemma occurs_only_at_once (w P R : str) :
  occurs_only_at w (P ++ w ++ R) (List.length P) = true ->
  forall u v, P ++ w ++ R = u ++ w ++ v -> u = P.
Proof.
  unfold occurs_only_at. intros H u v E. rewrite forallb_forall in H.
  assert (Hu : In (List.length u) (seq 0 (S (List.length (P ++ w ++ R))))).
  { apply in_seq. rewrite E, !length_app. lia. }
  specialize (H _ Hu). rewrite E in H at 1.
  rewrite skipn_app, Nat.sub_diag, skipn_all in H. cbn [skipn app] in H.
  rewrite starts_with_app in H. cbn [negb] in H. rewrite orb_false_r in H.
  apply Nat.eqb_eq in H. symmetry. eapply app_same_length; [exact E | lia].
Qed.

Lemma no_space_at_end (x r : str) :
  not_space_at_head (rev (x ++ r)) = true -> forallb isspace r = true -> r = [].
Proof.
  intros H Hr. destruct r as [|c r] using rev_ind; [reflexivity|].
  rewrite app_assoc, rev_app_distr in H. cbn in H.
  rewrite forallb_app in Hr. cbn in Hr.
  apply andb_true_iff in Hr. destruct Hr as [_ Hc]. rewrite andb_true_r in Hc.
  rewrite Hc in H. discriminate.
Qed.

(** No footnote line is left in a text that ends with the marker of the
    footnote line and in which no line before it begins with "(". *)
Lemma no_footnote_before_final_marker (b' n : str) :
  no_line_paren true b' = true -> forallb isdecimal n = true ->
  finditer footnote_pattern (b' ++ 40%N :: n ++ [41%N]) = [].
Proof.
  intros Hb Hn. apply no_match_no_finditer. intros m Hin.
  unfold finditer in Hin. apply finditer_from_In_before in Hin.
  destruct Hin as (pre & s' & mk & E & _ & _ & He).
  apply footnote_match_line in He.
  destruct He as (Hprev & ws & ds & ws' & body & rest
                  & -> & Hws & Hds & _ & _ & _ & Hblen & _).
  assert (Hu : pre ++ ws = b' /\ ds ++ 41%N :: ws' ++ body ++ rest = n ++ [41%N]).
  { apply line_paren_unique.
    - exact Hb.
    - apply no_line_paren_without. rewrite forallb_app, digits_no_paren by exact Hn.
      reflexivity.
    - rewrite E, <- app_assoc. reflexivity.
    - rewrite line_blank_app, (line_blank_line_start _ Hprev).
      now apply line_blank_space. }
  destruct Hu as [_ HL].
  apply (run_then_stop isdecimal) in HL; [|exact Hds | exact Hn | reflexivity].
  destruct HL as [_ HL]. apply (f_equal (@List.length char)) in HL.
  rewrite !length_app in HL. cbn [List.length] in HL. lia.
Qed.

(** ** The inline pattern before an opening parenthesis *)

Lemma exec_inline_marker1 (prev : option char) (rest : str) (pos : nat) (mk : list nat) :
  exec inline_ref_pattern prev (marker1 ++ rest) pos mk
  = Some (S (S (S pos)), S (S pos) :: S pos :: mk).
Proof. vm_compute. reflexivity. Qed.

Lemma finditer_inline_marker1 (prev : option char) (rest : str) :
  finditer_from inline_ref_pattern prev (marker1 ++ rest) 0 0
  = {| m_start := 0; m_end := 3; m_marks := [1; 2] |}
    :: map (shift 3) (finditer_from inline_ref_pattern (Some 41%N) rest 0 0).
Proof.
  rewrite <- finditer_from_at.
  change (marker1 ++ rest) with (40%N :: 49%N :: 41%N :: rest).
  cbn [finditer_from].
  change (40%N :: 49%N :: 41%N :: rest) with (marker1 ++ rest).
  rewrite exec_inline_marker1. reflexivity.
Qed.

(** A match of the inline pattern holds one "(", its first character:
    the scan reaches every "(" of the text with no match under way. *)
Lemma finditer_inline_reaches (u s : str) :
  forall prev at_ skip,
    skip <= List.length u ->
    exists l,
      finditer_from inline_ref_pattern prev (u ++ 40%N :: s) at_ skip
      = l ++ finditer_from inline_ref_pattern (before prev u) (40%N :: s)
               (at_ + List.length u) 0.
Proof.
  induction u as [|x u IH]; intros prev at_ skip Hskip.
  - cbn [List.length] in Hskip. replace skip with 0 by lia.
    exists []. cbn. now rewrite Nat.add_0_r.
  - cbn [List.length]. rewrite Nat.add_succ_r, <- (before_cons prev).
    destruct skip as [|skip].
    + cbn [app finditer_from].
      destruct (exec inline_ref_pattern prev (x :: u ++ 40%N :: s) at_ [])
        as [[e mk]|] eqn:He.
      * assert (Hlen : pred (e - at_) <= List.length u).
        { apply inline_match_shape in He.
          destruct He as (ws & ds & ws' & rest & E & Hws & Hws' & Hds & _ & _ & ->).
          injection E as _ E.
          replace (ws ++ ds ++ ws' ++ 41%N :: rest)
            with ((ws ++ ds ++ ws' ++ [41%N]) ++ rest) in E
            by (rewrite <- !app_assoc; reflexivity).
          apply app_eq_app in E. destruct E as (l & [[E1 E2]|[E1 E2]]).
          - apply (f_equal (@List.length char)) in E1.
            rewrite !length_app in E1. cbn [List.length] in E1.
            unfold str, char in *. lia.
          - destruct l as [|c l].
            + rewrite app_nil_r in E1. apply (f_equal (@List.length char)) in E1.
              rewrite !length_app in E1. cbn [List.length] in E1.
              unfold str, char in *. lia.
            + cbn [app] in E2. injection E2 as <- _. exfalso.
              assert (Hin : In 40%N (ws ++ ds ++ ws' ++ [41%N])).
              { rewrite E1. apply in_app_iff. right. now left. }
              rewrite !in_app_iff in Hin.
              rewrite forallb_forall in Hws, Hws', Hds.
              destruct Hin as [Hin|[Hin|[Hin|[Hin|[]]]]];
                [apply Hws in Hin | apply Hds in Hin | apply Hws' in Hin | ];
                discriminate. }
        destruct (IH (Some x) (S at_) (pred (e - at_)) Hlen) as [l ->].
        eexists (_ :: l). reflexivity.
      * destruct (IH (Some x) (S at_) 0 (Nat.le_0_l _)) as [l ->].
        now exists l.
    + cbn [app finditer_from]. apply IH. cbn [List.length] in Hskip. lia.
Qed.

(** The marker "(1)" of a text is an inline marker of number 1. *)
Lemma marker1_is_found (u r : str) :
  exists m, In m (finditer inline_ref_pattern (u ++ marker1 ++ r))
            /\ group 1 (u ++ marker1 ++ r) m = py "1".
Proof.
  unfold finditer.
  destruct (@finditer_inline_reaches u (py "1)" ++ r) None 0 0 (Nat.le_0_l _))
    as [l E].
  change (40%N :: py "1)" ++ r) with (marker1 ++ r) in E. rewrite E.
  rewrite finditer_from_at, finditer_inline_marker1. cbn [map Nat.add].
  exists (shift (List.length u) {| m_start := 0; m_end := 3; m_marks := [1; 2] |}).
  split.
  - apply in_app_iff. right. now left.
  - rewrite group_shift by (cbn; lia). reflexivity.
Qed.

(** The first element of a list that has a property. *)
Lemma first_with (A : Type) (f : A -> bool) (l : list A) (x : A) :
  In x l -> f x = true ->
  exists l1 y l2, l = l1 ++ y :: l2 /\ f y = true
                  /\ forall z, In z l1 -> f z = false.
Proof.
  induction l as [|a l IH]; intros Hin Hx; [contradiction|].
  destruct (f a) eqn:Ea.
  - exists [], a, l. repeat split; [exact Ea | contradiction].
  - destruct Hin as [->|Hin]; [congruence|].
    destruct (IH Hin Hx) as (l1 & y & l2 & -> & Hy & Hl1).
    exists (a :: l1), y, l2. repeat split; [exact Hy|].
    intros z [<-|Hz]; [exact Ea | now apply Hl1].
Qed.

Lemma filter_all (A : Type) (f : A -> bool) (l : list A) :
  (forall x, In x l -> f x = true) -> filter f l = l.
Proof.
  induction l as [|a l IH]; intros H; [reflexivity|].
  cbn [filter]. rewrite (H a (or_introl eq_refl)). f_equal.
  apply IH. intros x Hx. apply H. now right.
Qed.

Lemma NoDup_same (A : Type) (a : A) (l : list A) :
  NoDup l -> In a l -> (forall x, In x l -> x = a) -> l = [a].
Proof.
  intros Hnd Hin Hall. destruct l as [|x l]; [contradiction|].
  rewrite (Hall x (or_introl eq_refl)) in *. f_equal.
  destruct l as [|y l]; [reflexivity|].
  inversion Hnd as [|? ? Hx _]; subst. elim Hx.
  rewrite (Hall y (or_intror (or_introl eq_refl))). now left.
Qed.

(** ** Footnote pipeline: the round trip *)







(** ** Where the code departs from what it sets out to do *)

(** C2 on "see (1)" followed by the line "(١) note".
    [normalize_arabic_text] makes it the Western text, but
    [process_to_word] does not call it: the footnote is extracted under
    the key "١", the marker "(1)" of the first line gets no footnote,
    and the footnote is put at the "(١)" left of the footnote line; on the
    Western text the key is "1" and the footnote is put at "(1)" in the
    first line. *)
Lemma arabic_indic_number_is_not_normalized :
  normalize_arabic_text arabic_note = western_note
  /\ extract_footnotes (clean_markdown_text arabic_note) = [([1633%N], py "note")]
  /\ extract_footnotes (clean_markdown_text western_note) = [(py "1", py "note")]
  /\ process_to_word_body (TD := RangeDoc.literal) makes_directory
       arabic_note "outputs" "auto"
     = inr ({| word_file := "outputs/processed_document_1_footnotes.docx";
               footnotes_count := 1; total_footnotes_detected := 1;
               language := "rtl" |},
            {| WordExport.document :=
                 [RangeDoc.TextRange (py "see (1)" ++ [nl]);
                  RangeDoc.TextRange [40; 1633; 41]%N;
                  RangeDoc.Footnote (py "note");
                  RangeDoc.TextRange []];
               inserted_refs := [[1633%N]];
               inserted := [{| i_num := [1633%N]; i_marker := [40; 1633; 41]%N;
                               i_body := py "note" |}] |})
  /\ process_to_word_body (TD := RangeDoc.literal) makes_directory
       western_note "outputs" "auto"
     = inr ({| word_file := "outputs/processed_document_1_footnotes.docx";
               footnotes_count := 1; total_footnotes_detected := 1;
               language := "ltr" |},
            {| WordExport.document :=
                 [RangeDoc.TextRange (py "see ");
                  RangeDoc.TextRange (py "(1)");
                  RangeDoc.Footnote (py "note");
                  RangeDoc.TextRange ([nl] ++ py "(1)")];
               inserted_refs := [py "1"];
               inserted := [{| i_num := py "1"; i_marker := py "(1)";
                               i_body := py "note" |}] |}).
Proof. repeat split; vm_compute; reflexivity. Qed.

(** C3 on "see (7)" followed by the line "(7) note", with a document
    in which "(7)" is not located: no footnote is inserted, and yet "7" is
    recorded and counted, so that [footnotes_count] is 1 and equals
    [total_footnotes_detected]. *)
Lemma unlocated_marker_is_counted :
  process_to_word_body (TD := BlindDoc.blind) makes_directory seven_note "outputs" "auto"
  = inr ({| word_file := "outputs/processed_document_1_footnotes.docx";
            footnotes_count := 1; total_footnotes_detected := 1;
            language := "ltr" |},
         {| WordExport.document := py "see (7)" ++ [nl] ++ py "(7)";
            inserted_refs := [py "7"];
            inserted := [] |})
  /\ process_to_word (TD := BlindDoc.blind) makes_directory seven_note "outputs" "auto"
     = Success {| word_file := "outputs/processed_document_1_footnotes.docx";
                  footnotes_count := 1; total_footnotes_detected := 1;
                  language := "ltr" |}.
Proof. split; vm_compute; reflexivity. Qed.

(** * Further properties of the code *)

(** ** [ProcessingMode] *)

(** X1. Looking a mode up by its value gives the mode back, and a string
    that names a mode is that mode's value: the three values are distinct
    and nothing else is accepted. *)
Theorem ProcessingMode_round_trip (mode : ProcessingMode) (s : string) :
  ProcessingMode_of (value mode) = inr mode
  /\ (ProcessingMode_of s = inr mode <-> s = value mode).
Proof.
  split; [destruct mode; reflexivity|].
  split.
  - unfold ProcessingMode_of.
    destruct (String.eqb s "fast") eqn:E1;
      [apply String.eqb_eq in E1; intros [= <-]; exact E1|].
    destruct (String.eqb s "rich") eqn:E2;
      [apply String.eqb_eq in E2; intros [= <-]; exact E2|].
    destruct (String.eqb s "pro") eqn:E3;
      [apply String.eqb_eq in E3; intros [= <-]; exact E3|].
    discriminate.
  - intros ->. destruct mode; reflexivity.
Qed.

(** ** [process_pdf] *)

Section ProcessMore.
Variable fs : filesystem.
Variable parse : engine -> string -> parse_result.
Variable save_markdown_output : str -> string -> bool.
Variable base_name : string -> string.
Variable display_results : pdf_result -> exc unit.

(** X2. [process_pdf] returns the upgrade rejection only for a file that
    exists, a requested mode fast or rich and a document detected as
    image_based or mixed; the error then names that class and that mode,
    and no engine has run. *)
Theorem process_pdf_rejects_only_fast_rich_on_image_mixed
  (file_path : string) (mode : ProcessingMode) (auto_detect : bool)
  (error type_ recommended : string) (upgrade : bool) (engines : list engine) :
  process_pdf fs parse save_markdown_output base_name display_results
    file_path mode auto_detect
  = (UpgradeRequired error type_ upgrade recommended, engines) ->
  exists_ fs file_path = true
  /\ (mode = FAST \/ mode = RICH)
  /\ (detect_pdf_type fs file_path = image_based
      \/ detect_pdf_type fs file_path = mixed)
  /\ error = ("Cannot process " ++ type_name (detect_pdf_type fs file_path)
                ++ " PDF with " ++ value mode ++ " mode")%string
  /\ type_ = type_name (detect_pdf_type fs file_path)
  /\ upgrade = true /\ recommended = "pro"%string /\ engines = [].
Proof.
  unfold process_pdf.
  destruct (exists_ fs file_path); cbn [negb]; [|discriminate].
  destruct (detect_pdf_type fs file_path), mode, auto_detect; cbn;
    try (match goal with
         | |- context [parse ?e ?p] => destruct (parse e p)
         end; cbn;
         try match goal with
             | |- context [display_results ?r] => destruct (display_results r)
             end; discriminate);
    intros [= <- <- <- <- <-]; repeat split; auto.
Qed.

(** X3. In PRO mode a file that exists is never rejected: whatever the
    detected class and [auto_detect], agentic-doc is invoked, once, and no
    other engine. *)
Theorem process_pdf_pro_always_runs_agentic_doc
  (file_path : string) (auto_detect : bool) :
  exists_ fs file_path = true ->
  snd (process_pdf fs parse save_markdown_output base_name display_results
         file_path PRO auto_detect)
  = [agentic_doc].
Proof.
  intros Hex. unfold process_pdf. rewrite Hex. cbn [negb].
  destruct (detect_pdf_type fs file_path), auto_detect; cbn;
    destruct (parse agentic_doc file_path); cbn;
    try match goal with
        | |- context [display_results ?r] => destruct (display_results r)
        end; reflexivity.
Qed.

(** X4. A file that exists but cannot be classified (class unknown: it
    cannot be opened, has no page, or its analysis raises) passes the
    gate in every mode: the engine of the requested mode is invoked. *)
Theorem process_pdf_runs_engine_on_unknown_class
  (file_path : string) (mode : ProcessingMode) (auto_detect : bool) :
  exists_ fs file_path = true ->
  detect_pdf_type fs file_path = unknown ->
  snd (process_pdf fs parse save_markdown_output base_name display_results
         file_path mode auto_detect)
  = [parser_for mode].
Proof.
  intros Hex Hun. unfold process_pdf. rewrite Hex, Hun. cbn [negb].
  destruct mode, auto_detect; cbn;
    match goal with
    | |- context [parse ?e ?p] => destruct (parse e p)
    end; cbn;
    try match goal with
        | |- context [display_results ?r] => destruct (display_results r)
        end; reflexivity.
Qed.

(** X5. Once an engine has run, the result is the engine's own error when
    the engine failed.  When the engine succeeded, the markdown is saved
    under "outputs/<requested mode>_<base name>.md" and the results are
    displayed: if that went well the result is the engine's content,
    markdown, page count and method, with [markdown_file] set exactly when
    the markdown could be saved; if displaying raised, the result is the
    error "Unexpected error during processing: ..." with the exception's
    message, whether or not the markdown was saved. *)
Theorem process_pdf_result_is_the_engines
  (file_path : string) (mode : ProcessingMode) (auto_detect : bool)
  (result : pdf_result) (e : engine) :
  process_pdf fs parse save_markdown_output base_name display_results
    file_path mode auto_detect
  = (result, [e]) ->
  e = parser_for mode
  /\ match parse e file_path with
     | ParseError error => result = Error error
     | Extracted content markdown_content total_pages method =>
         let markdown_file :=
           if save_markdown_output markdown_content
                ("outputs/" ++ value mode ++ "_" ++ base_name file_path ++ ".md")
           then Some ("outputs/" ++ value mode ++ "_" ++ base_name file_path
                        ++ ".md")%string
           else None in
         match display_results
                 (Processed content markdown_content total_pages method markdown_file)
         with
         | inr _ =>
             result = Processed content markdown_content total_pages method markdown_file
         | inl error =>
             result = Error ("Unexpected error during processing: " ++ error)
         end
     end.
Proof.
  unfold process_pdf. intros H.
  destruct (exists_ fs file_path); cbn [negb] in H; [|discriminate].
  destruct (detect_pdf_type fs file_path), mode, auto_detect; cbn in H;
    try discriminate;
    match type of H with
    | context [parse ?e' ?p] => destruct (parse e' p) eqn:P
    end; cbn in H;
    try match type of H with
        | context [display_results ?r] => destruct (display_results r) eqn:Q
        end; cbn in H; injection H as <- <-; cbn; rewrite P; cbn;
    try rewrite Q; split; reflexivity.
Qed.

End ProcessMore.

Lemma process_pdf_rejects_only_fast_rich_on_image_mixed_witness :
  detect_pdf_type files "scan.pdf" = image_based
  \/ detect_pdf_type files "scan.pdf" = mixed.
Proof.
  eapply (@process_pdf_rejects_only_fast_rich_on_image_mixed
            files no_parse no_save whole_name prints "scan.pdf" FAST true).
  vm_compute. reflexivity.
Defined.

Lemma process_pdf_pro_always_runs_agentic_doc_witness :
  snd (process_pdf files no_parse no_save whole_name prints "scan.pdf" PRO false)
  = [agentic_doc].
Proof.
  apply (@process_pdf_pro_always_runs_agentic_doc
           files no_parse no_save whole_name prints "scan.pdf" false).
  reflexivity.
Defined.

Lemma process_pdf_runs_engine_on_unknown_class_witness :
  snd (process_pdf files no_parse no_save whole_name prints "notes.txt" FAST true)
  = [pdfplumber].
Proof.
  apply (@process_pdf_runs_engine_on_unknown_class
           files no_parse no_save whole_name prints "notes.txt" FAST true);
    reflexivity.
Defined.

Lemma process_pdf_result_is_the_engines_witness :
  pdfplumber = parser_for FAST
  /\ Error "Unexpected error during processing: closing tag '[/b]' at position 0 doesn't match any open tag"
     = Error ("Unexpected error during processing: "
                ++ "closing tag '[/b]' at position 0 doesn't match any open tag").
Proof.
  apply (@process_pdf_result_is_the_engines
           files plumber_only always_save whole_name markup_error "text.pdf" FAST true
           (Error "Unexpected error during processing: closing tag '[/b]' at position 0 doesn't match any open tag")
           pdfplumber).
  vm_compute. reflexivity.
Defined.

(** ** [detect_pdf_type] *)

Lemma sample_size_small (total_pages : nat) :
  total_pages < 40 -> sample_size total_pages = 1.
Proof.
  intros H. unfold sample_size.
  assert (total_pages / 20 < 2) by (apply Nat.Div0.div_lt_upper_bound; lia).
  lia.
Qed.

Lemma sample_indices_small (total_pages : nat) :
  total_pages < 40 -> sample_indices total_pages = [0].
Proof.
  intros H. unfold sample_indices. rewrite (sample_size_small H). reflexivity.
Qed.

(** X6. A document of fewer than 40 pages is classified by its first page
    alone: one page is sampled, page 0, and the class is image_based,
    text_based or mixed as that page is image-like, text-like or
    ambiguous. *)
Theorem small_document_is_classified_by_first_page
  (fs : filesystem) (file_path : string) (first : page) (others : document) :
  fs file_path = Some (Pdf (inr first :: others)) ->
  List.length (inr first :: others : document) < 40 ->
  sample_indices (List.length (inr first :: others : document)) = [0]
  /\ detect_pdf_type fs file_path = class_of (classify_page first).
Proof.
  intros Hfile Hsmall. split; [now apply sample_indices_small|].
  unfold detect_pdf_type, detect_pdf_type_body, open. rewrite Hfile.
  cbn [bind]. change (List.length (inr first :: others) =? 0) with false. cbv iota.
  unfold sample_ratios.
  rewrite (sample_indices_small Hsmall), (sample_size_small Hsmall).
  cbn [count_pages]. change (List.length (inr first :: others) <=? 0) with false.
  cbv iota. change (load_page (inr first :: others) 0) with (@inr string page first).
  cbn [bind count_pages].
  destruct (classify_page first); vm_compute; reflexivity.
Qed.

Lemma small_document_is_classified_by_first_page_witness :
  detect_pdf_type files "scan.pdf" = class_of (classify_page image_only_page).
Proof.
  apply (@small_document_is_classified_by_first_page
           files "scan.pdf" image_only_page []).
  - reflexivity.
  - cbn. lia.
Defined.

(** The majority test on the ratio of a sample of at most ten pages is
    the test on the counts: the float quotient is above 0.6 exactly when
    the count is above three fifths of the sample. *)
Lemma ratio_over_majority (pages size : nat) :
  1 <= size <= 10 -> pages <= size ->
  (0.6 <? ratio pages size)%float = (3 * size <? 5 * pages).
Proof.
  intros Hsize Hpages.
  destruct size as [|[|[|[|[|[|[|[|[|[|[|size]]]]]]]]]]]; try lia;
    destruct pages as [|[|[|[|[|[|[|[|[|[|[|pages]]]]]]]]]]]; try lia; reflexivity.
Qed.

(** The decision of [detect_pdf_type] from the counts of the sampled
    pages. *)
Lemma detect_by_counts (fs : filesystem) (file_path : string) (doc : document) :
  fs file_path = Some (Pdf doc) -> doc <> [] ->
  (forall idx, In idx (sample_indices (List.length doc)) ->
               exists p, load_page doc idx = inr p) ->
  detect_pdf_type fs file_path
  = if 3 * sample_size (List.length doc)
       <? 5 * pages_of doc image_page (sample_indices (List.length doc))
    then image_based
    else if 3 * sample_size (List.length doc)
            <? 5 * pages_of doc text_page (sample_indices (List.length doc))
         then text_based
         else mixed.
Proof.
  intros Hfile Hdoc Hload.
  assert (HP : 1 <= List.length doc) by (destruct doc; [congruence | cbn; lia]).
  unfold detect_pdf_type, detect_pdf_type_body, open. rewrite Hfile. cbn [bind].
  replace (List.length doc =? 0) with false by (symmetry; apply Nat.eqb_neq; lia).
  unfold sample_ratios.
  rewrite count_pages_counts;
    [|now apply sample_indices_in_range | exact Hload].
  cbn [bind image_pages text_pages ambiguous_pages image_ratio text_ratio Nat.add].
  pose proof (pages_of_partition doc _ Hload) as Hsum.
  rewrite sample_indices_length in Hsum.
  rewrite !ratio_over_majority by (try apply sample_size_bounds; lia).
  destruct (3 * sample_size (List.length doc)
            <? 5 * pages_of doc image_page (sample_indices (List.length doc)));
    [reflexivity|].
  destruct (3 * sample_size (List.length doc)
            <? 5 * pages_of doc text_page (sample_indices (List.length doc)));
    reflexivity.
Qed.

(** X7. For a document with pages whose sampled pages can all be
    analysed, with [S] pages sampled, [a] of them image-like and [b]
    text-like: the class is image_based exactly when [5 a > 3 S],
    text_based exactly when [5 b > 3 S], and mixed otherwise; the two
    majorities exclude each other, so the order of the two tests does not
    matter, and the class is never unknown. *)
Theorem class_is_the_majority_of_the_sample
  (fs : filesystem) (file_path : string) (doc : document) :
  fs file_path = Some (Pdf doc) -> doc <> [] ->
  (forall idx, In idx (sample_indices (List.length doc)) ->
               exists p, load_page doc idx = inr p) ->
  let size := sample_size (List.length doc) in
  let a := pages_of doc image_page (sample_indices (List.length doc)) in
  let b := pages_of doc text_page (sample_indices (List.length doc)) in
  (detect_pdf_type fs file_path = image_based <-> 3 * size < 5 * a)
  /\ (detect_pdf_type fs file_path = text_based <-> 3 * size < 5 * b)
  /\ (detect_pdf_type fs file_path = mixed <-> 5 * a <= 3 * size /\ 5 * b <= 3 * size)
  /\ detect_pdf_type fs file_path <> unknown.
Proof.
  intros Hfile Hdoc Hload size a b.
  rewrite (detect_by_counts fs file_path Hfile Hdoc Hload).
  fold size. fold a. fold b.
  assert (Hsum : a + b <= size).
  { pose proof (pages_of_partition doc _ Hload) as H.
    rewrite sample_indices_length in H. fold a in H. fold b in H. fold size in H. lia. }
  destruct (3 * size <? 5 * a) eqn:Ea; [apply Nat.ltb_lt in Ea | apply Nat.ltb_ge in Ea].
  - repeat split; try discriminate; try lia; intros; try reflexivity; lia.
  - destruct (3 * size <? 5 * b) eqn:Eb;
      [apply Nat.ltb_lt in Eb | apply Nat.ltb_ge in Eb];
      repeat split; try discriminate; try lia; intros; try reflexivity; lia.
Qed.

Lemma class_is_the_majority_of_the_sample_witness :
  detect_pdf_type files "text.pdf" <> unknown.
Proof.
  apply (@class_is_the_majority_of_the_sample files "text.pdf" [inr text_only_page]).
  - reflexivity.
  - discriminate.
  - intros idx [<-|[]]. exists text_only_page. reflexivity.
Defined.

Lemma classify_page_without_fonts (p : page) :
  fonts p = 0 -> classify_page p <> text_page.
Proof.
  intros H. unfold classify_page. rewrite H.
  destruct (block_areas (blocks p)) as [text_area image_area].
  cbn [Nat.ltb Nat.leb negb andb].
  rewrite !andb_false_r, !andb_true_r.
  match goal with |- (if ?c then _ else _) <> _ => destruct c end; discriminate.
Qed.

Lemma pages_of_none (doc : document) (k : category) (idxs : list nat) :
  (forall idx p, In idx idxs -> load_page doc idx = inr p -> classify_page p <> k) ->
  pages_of doc k idxs = 0.
Proof.
  intros H. induction idxs as [|idx idxs IH]; [reflexivity|].
  rewrite pages_of_cons, IH by (intros i p Hi; apply H; now right).
  unfold category_at.
  destruct (load_page doc idx) as [e|p] eqn:Hp; [reflexivity|].
  specialize (H idx p (or_introl eq_refl) Hp).
  destruct k, (classify_page p); cbn; congruence.
Qed.

(** X8. A document none of whose sampled pages declares a font is never
    classified text_based: a page without fonts is never text-like,
    whatever text area its blocks cover. *)
Theorem document_without_fonts_is_never_text_based
  (fs : filesystem) (file_path : string) (doc : document) :
  fs file_path = Some (Pdf doc) ->
  (forall idx p, In idx (sample_indices (List.length doc)) ->
                 load_page doc idx = inr p -> fonts p = 0) ->
  detect_pdf_type fs file_path <> text_based.
Proof.
  intros Hfile Hfonts.
  destruct doc as [|pg doc].
  { unfold detect_pdf_type, detect_pdf_type_body, open. rewrite Hfile. discriminate. }
  destruct (detect_pdf_type_body fs file_path) as [e|t] eqn:Hbody.
  { unfold detect_pdf_type. rewrite Hbody. discriminate. }
  assert (Hload : forall idx, In idx (sample_indices (List.length (pg :: doc))) ->
                              exists p, load_page (pg :: doc) idx = inr p).
  { intros idx Hin.
    destruct (load_page (pg :: doc) idx) as [e|p] eqn:Hp; [|now exists p].
    exfalso.
    assert (Hlt : idx < List.length (pg :: doc)).
    { pose proof (@sample_indices_in_range (List.length (pg :: doc))) as H.
      rewrite Forall_forall in H. apply H; [cbn; lia | exact Hin]. }
    assert (Hun : detect_pdf_type_body fs file_path = inr t) by exact Hbody.
    unfold detect_pdf_type_body, open in Hun. rewrite Hfile in Hun.
    cbn [bind] in Hun.
    change (List.length (pg :: doc) =? 0) with false in Hun. cbv iota in Hun.
    unfold sample_ratios in Hun.
    destruct (count_pages_raises (pg :: doc) _ Hin Hlt Hp
                {| image_pages := 0; text_pages := 0; ambiguous_pages := 0 |})
      as [e' He'].
    rewrite He' in Hun. discriminate. }
  assert (Hne : pg :: doc <> []) by discriminate.
  rewrite (detect_by_counts fs file_path Hfile Hne Hload).
  rewrite (@pages_of_none (pg :: doc) text_page).
  - rewrite Nat.mul_0_r.
    destruct (3 * sample_size (List.length (pg :: doc))
              <? 5 * pages_of (pg :: doc) image_page
                     (sample_indices (List.length (pg :: doc)))); cbn; discriminate.
  - intros idx p Hin Hp. apply classify_page_without_fonts. eapply Hfonts; eassumption.
Qed.

Lemma document_without_fonts_is_never_text_based_witness :
  detect_pdf_type files "scan.pdf" <> text_based.
Proof.
  apply (@document_without_fonts_is_never_text_based
           files "scan.pdf" [inr image_only_page]).
  - reflexivity.
  - intros idx p [<-|[]] [= <-]. reflexivity.
Defined.

(** X9. On a page whose area is not positive both coverages are taken as
    0 instead of dividing by the area: the page is image-like when it
    declares no font and ambiguous when it declares one, whatever its
    blocks. *)
Theorem page_without_area_is_image_or_ambiguous (p : page) :
  (0 <? page_area p)%float = false ->
  classify_page p = if fonts p =? 0 then image_page else ambiguous_page.
Proof.
  intros H. unfold classify_page.
  destruct (block_areas (blocks p)) as [text_area image_area].
  rewrite H.
  change (0.8 <? 0)%float with false. change (0 <? 0.01)%float with true.
  change (0.05 <? 0)%float with false.
  destruct (fonts p); reflexivity.
Qed.

Lemma page_without_area_is_image_or_ambiguous_witness :
  classify_page {| page_area := 0; blocks := blocks text_only_page; fonts := 2 |}
  = ambiguous_page.
Proof.
  apply (page_without_area_is_image_or_ambiguous
           {| page_area := 0; blocks := blocks text_only_page; fonts := 2 |}).
  reflexivity.
Defined.

Lemma block_areas_fold (blocks : list block) :
  block_areas blocks = fold_left add_block blocks (0%float, 0%float).
Proof. reflexivity. Qed.

Lemma add_block_uncounted (acc : float * float) (b : block) :
  counted b = false -> add_block acc b = acc.
Proof.
  unfold counted, add_block. destruct acc as [text_area image_area].
  destruct (6 <? b_len b); [|reflexivity]. cbn [andb].
  destruct (b_type b =? 0)%Z; cbn [andb orb].
  - destruct (strip (b_text b)); cbn [orb]; [reflexivity|].
    destruct (b_type b =? 1)%Z; discriminate.
  - intros ->. reflexivity.
Qed.

Lemma fold_add_block_counted (blocks : list block) :
  forall acc, fold_left add_block (filter counted blocks) acc
              = fold_left add_block blocks acc.
Proof.
  induction blocks as [|b blocks IH]; intros acc; [reflexivity|].
  cbn [filter fold_left]. destruct (counted b) eqn:E.
  - cbn [fold_left]. apply IH.
  - rewrite (add_block_uncounted acc b E). apply IH.
Qed.

(** X10. Only the blocks of seven fields or more that are text blocks
    with non-blank text or image blocks enter the areas of a page: the
    others can be dropped from the page without changing the areas or the
    category of the page. *)
Theorem uncounted_blocks_do_not_matter (p : page) :
  block_areas (blocks p) = block_areas (filter counted (blocks p))
  /\ classify_page p
     = classify_page {| page_area := page_area p;
                        blocks := filter counted (blocks p);
                        fonts := fonts p |}.
Proof.
  assert (E : block_areas (blocks p) = block_areas (filter counted (blocks p))).
  { rewrite !block_areas_fold. symmetry. apply fold_add_block_counted. }
  split; [exact E|].
  unfold classify_page. cbn [blocks page_area fonts]. now rewrite <- E.
Qed.

(** ** [normalize_arabic_text] and [detect_arabic_text] *)

Lemma sub_class_removes (p : char -> bool) (t : str) :
  forall prev, sub_from [Cls p] [] prev t 0 = filter (fun c => negb (p c)) t.
Proof.
  induction t as [|x t IH]; intros prev; [reflexivity|].
  cbn [sub_from exec filter]. destruct (p x); cbn [negb app]; now rewrite IH.
Qed.

Lemma normalize_arabic_text_filter (t : str) :
  normalize_arabic_text t = filter (fun c => negb (invisible_mark c)) (map trans t).
Proof. unfold normalize_arabic_text, sub. apply sub_class_removes. Qed.

Lemma trans_not_arabic_indic (c : char) : arabic_indic_digit (trans c) = false.
Proof.
  unfold trans, arabic_indic_digit, in_range.
  destruct ((1632 <=? c)%N && (c <=? 1641)%N) eqn:E.
  - apply andb_true_iff in E. destruct E as [E1 E2].
    apply N.leb_le in E1, E2. apply andb_false_iff. left. apply N.leb_gt. lia.
  - exact E.
Qed.

Lemma trans_fixes (c : char) : arabic_indic_digit c = false -> trans c = c.
Proof. unfold trans, arabic_indic_digit. now intros ->. Qed.

Lemma normalize_arabic_text_clean (t : str) :
  Forall (fun c => arabic_indic_digit c = false /\ invisible_mark c = false)
    (normalize_arabic_text t).
Proof.
  rewrite normalize_arabic_text_filter.
  apply Forall_forall. intros c Hc. apply filter_In in Hc.
  destruct Hc as [Hc Hm]. apply in_map_iff in Hc. destruct Hc as (x & <- & _).
  split; [apply trans_not_arabic_indic | now apply negb_true_iff].
Qed.

(** X11. [normalize_arabic_text] leaves no Arabic-Indic digit (U+0660 to
    U+0669) and no invisible mark (U+200E, U+200F, U+202A to U+202E) in
    its result; it sends the Arabic-Indic digit of value [d] to the
    Western digit of value [d]; and the result is never longer than the
    text. *)
Theorem normalize_arabic_text_leaves_no_digit_or_mark (t : str) :
  Forall (fun c => arabic_indic_digit c = false /\ invisible_mark c = false)
    (normalize_arabic_text t)
  /\ (forall d, (d < 10)%N ->
        normalize_arabic_text [(1632 + d)%N] = [(48 + d)%N])
  /\ List.length (normalize_arabic_text t) <= List.length t.
Proof.
  split; [apply normalize_arabic_text_clean|]. split.
  - intros d Hd. rewrite normalize_arabic_text_filter. cbn [map filter].
    assert (E : trans (1632 + d) = (48 + d)%N).
    { unfold trans, in_range.
      replace ((1632 <=? 1632 + d)%N && (1632 + d <=? 1641)%N) with true
        by (symmetry; apply andb_true_iff; split; apply N.leb_le; lia).
      lia. }
    rewrite E.
    replace (invisible_mark (48 + d)) with false; [reflexivity|].
    symmetry. unfold invisible_mark, in_range.
    apply orb_false_iff. split; [apply orb_false_iff; split; apply N.eqb_neq; lia|].
    apply andb_false_iff. left. apply N.leb_gt. lia.
  - rewrite normalize_arabic_text_filter.
    rewrite <- (length_map trans t). apply filter_length_le.
Qed.

(** X12. [normalize_arabic_text] returns a text unchanged exactly when the
    text holds no Arabic-Indic digit and no invisible mark; so
    normalizing twice is normalizing once. *)
Theorem normalize_arabic_text_fixed_points (t : str) :
  (normalize_arabic_text t = t
   <-> Forall (fun c => arabic_indic_digit c = false /\ invisible_mark c = false) t)
  /\ normalize_arabic_text (normalize_arabic_text t) = normalize_arabic_text t.
Proof.
  assert (Hfix : forall u,
             Forall (fun c => arabic_indic_digit c = false /\ invisible_mark c = false) u ->
             normalize_arabic_text u = u).
  { intros u Hu. rewrite normalize_arabic_text_filter.
    induction Hu as [|c u [Hd Hm] Hu IH]; [reflexivity|].
    cbn [map filter]. rewrite (trans_fixes c Hd), Hm. cbn [negb]. now rewrite IH. }
  split; [split; [|apply Hfix]|].
  - intros E. rewrite <- E.
    apply normalize_arabic_text_clean.
  - apply Hfix. apply normalize_arabic_text_clean.
Qed.

Lemma search_class (p : char -> bool) (t : str) :
  forall prev, search_from [Cls p] prev t = existsb p t.
Proof.
  induction t as [|x t IH]; intros prev; [reflexivity|].
  cbn [search_from exec existsb]. destruct (p x); [reflexivity|]. apply IH.
Qed.

(** X13. [detect_arabic_text] answers True exactly when the text holds a
    character of the Arabic block U+0600 to U+06FF, False on the empty
    text in particular; an Arabic-Indic digit is such a character, so a
    text whose only Arabic characters are digits counts as Arabic. *)
Theorem detect_arabic_text_finds_the_arabic_block (t : str) :
  (detect_arabic_text t = true
   <-> exists c, In c t /\ (1536 <= c <= 1791)%N)
  /\ detect_arabic_text [] = false
  /\ (forall c, arabic_indic_digit c = true -> detect_arabic_text [c] = true).
Proof.
  unfold detect_arabic_text, search. rewrite search_class. split; [|split].
  - rewrite existsb_exists. unfold in_range. split.
    + intros (c & Hc & E). apply andb_true_iff in E. destruct E as [E1 E2].
      apply N.leb_le in E1, E2. exists c. split; [exact Hc | lia].
    + intros (c & Hc & E). exists c. split; [exact Hc|].
      apply andb_true_iff. split; apply N.leb_le; lia.
  - reflexivity.
  - intros c Hc. rewrite search_class. cbn [existsb]. rewrite orb_false_r.
    unfold arabic_indic_digit, in_range in *.
    apply andb_true_iff in Hc. destruct Hc as [E1 E2]. apply N.leb_le in E1, E2.
    apply andb_true_iff. split; apply N.leb_le; lia.
Qed.

(** ** [extract_footnotes]: the footnote map *)

Lemma get_set (k k' v : str) (d : Dict.dict) :
  Dict.get k' (Dict.set k v d) = if str_eqb k' k then Some v else Dict.get k' d.
Proof.
  induction d as [|[k0 v0] d IH]; cbn [Dict.set Dict.get].
  - destruct (str_eqb k' k); reflexivity.
  - destruct (str_eqb k k0) eqn:E; cbn [Dict.get].
    + apply str_eqb_eq in E. subst k0. destruct (str_eqb k' k); reflexivity.
    + rewrite IH. destruct (str_eqb k' k0) eqn:E0; [|reflexivity].
      apply str_eqb_eq in E0. subst k0.
      destruct (str_eqb k' k) eqn:E1; [|reflexivity].
      apply str_eqb_eq in E1. subst k'. rewrite str_eqb_refl in E. discriminate.
Qed.

Lemma mem_keys (k : str) (d : Dict.dict) :
  Dict.mem k (keys d) = Dict.contains k d.
Proof.
  unfold Dict.contains, keys. induction d as [|[k0 v0] d IH]; [reflexivity|].
  cbn [map fst Dict.mem existsb Dict.get].
  destruct (str_eqb k k0); [reflexivity|]. exact IH.
Qed.

Lemma keys_set (k v : str) (d : Dict.dict) :
  keys (Dict.set k v d) = Dict.add k (keys d).
Proof.
  unfold Dict.add. rewrite mem_keys. unfold Dict.contains, keys.
  induction d as [|[k0 v0] d IH]; [reflexivity|].
  cbn [Dict.set Dict.get map fst].
  destruct (str_eqb k k0); [reflexivity|].
  cbn [map fst]. rewrite IH. destruct (Dict.get k d); reflexivity.
Qed.

Section FoldSet.
Variable key val : rmatch -> str.

Lemma keys_fold_set (ms : list rmatch) :
  keys (fold_left (fun d m => Dict.set (key m) (val m) d) ms [])
  = first_occurrences (map key ms).
Proof.
  induction ms as [|m ms IH] using rev_ind; [reflexivity|].
  rewrite fold_left_app, map_app. cbn [fold_left map].
  now rewrite keys_set, first_occurrences_snoc, IH.
Qed.

Lemma get_fold_set (k : str) (ms : list rmatch) :
  Dict.get k (fold_left (fun d m => Dict.set (key m) (val m) d) ms [])
  = option_map val (find (fun m => str_eqb k (key m)) (rev ms)).
Proof.
  induction ms as [|m ms IH] using rev_ind; [reflexivity|].
  rewrite fold_left_app, rev_app_distr. cbn [fold_left rev app find].
  rewrite get_set. destruct (str_eqb k (key m)); [reflexivity | exact IH].
Qed.

End FoldSet.

(** X14. The keys of the map [extract_footnotes] returns are the distinct
    reference numbers of the footnote lines, in the order of their first
    occurrences (so [len(footnotes)] counts distinct numbers); and under
    each number the map holds the stripped remainder of the last line that
    carries it: a later line with the same number overwrites the body and
    keeps the place. *)
Theorem extract_footnotes_last_line_wins (text k : str) :
  keys (extract_footnotes text)
  = first_occurrences (map (group 1 text) (finditer footnote_pattern text))
  /\ NoDup (keys (extract_footnotes text))
  /\ Dict.get k (extract_footnotes text)
     = option_map (fun m => strip (group 2 text m))
         (find (fun m => str_eqb k (group 1 text m))
            (rev (finditer footnote_pattern text))).
Proof.
  unfold extract_footnotes. split; [|split].
  - apply (keys_fold_set (group 1 text) (fun m => strip (group 2 text m))).
  - rewrite (keys_fold_set (group 1 text) (fun m => strip (group 2 text m))).
    apply first_occurrences_NoDup.
  - apply (get_fold_set (group 1 text) (fun m => strip (group 2 text m))).
Qed.



(** ** The clean-up of [remove_footnote_content_from_main] and of
    [clean_markdown_text] *)

(** X16. Whatever the text and the map, the result of
    [remove_footnote_content_from_main] is tidy: it holds no three
    newlines in a row and no two spaces in a row, and it neither begins
    nor ends with white space. *)
Theorem stripped_text_is_tidy (text : str) (footnotes : Dict.dict) :
  tidy (remove_footnote_content_from_main text footnotes) = true.
Proof.
  change (remove_footnote_content_from_main text footnotes)
    with (clean_up (fold_left
                      (fun cleaned_text item => sub (escape (snd item)) [] cleaned_text)
                      footnotes text)).
  apply clean_up_is_tidy.
Qed.

(** X17. Stripping a stripped text again, with no footnote to remove,
    returns it as it is: the clean-up has nothing left to do. *)
Theorem stripping_a_stripped_text_changes_nothing (text : str) (footnotes : Dict.dict) :
  remove_footnote_content_from_main
    (remove_footnote_content_from_main text footnotes) []
  = remove_footnote_content_from_main text footnotes.
Proof.
  change (remove_footnote_content_from_main
            (remove_footnote_content_from_main text footnotes) [])
    with (clean_up (remove_footnote_content_from_main text footnotes)).
  apply clean_up_tidy.
  change (remove_footnote_content_from_main text footnotes)
    with (clean_up (fold_left
                      (fun cleaned_text item => sub (escape (snd item)) [] cleaned_text)
                      footnotes text)).
  apply clean_up_is_tidy.
Qed.

(** X18. The result of [clean_markdown_text] holds no run of three
    hyphens (no horizontal rule is left), no three newlines in a row, and
    no white space at either end. *)
Theorem cleaned_markdown_has_no_rule_and_no_blank_run (text : str) :
  no_run (N.eqb 45) 3 (clean_markdown_text text) = true
  /\ no_run (N.eqb nl) 3 (clean_markdown_text text) = true
  /\ not_space_at_head (clean_markdown_text text) = true
  /\ not_space_at_head (rev (clean_markdown_text text)) = true.
Proof.
  unfold clean_markdown_text, sub.
  set (t1 := sub_from _ [] None text 0).
  set (t2 := sub_from [Rep false 3 (N.eqb 45)] [] None t1 0).
  assert (H2 : no_run (N.eqb 45) 3 t2 = true).
  { refine (proj1 (proj1 (@sub_run_squeezes (N.eqb 45) 3 3 []
                             _ eq_refl _ _ _ t1 None 0) eq_refl)); cbn; lia. }
  set (t3 := sub_from [Rep false 2 (N.eqb nl)] [nl; nl] None t2 0).
  assert (H3 : no_run (N.eqb nl) 3 t3 = true).
  { refine (proj1 (proj1 (@sub_run_squeezes (N.eqb nl) 2 3 [nl; nl]
                             _ eq_refl _ _ _ t2 None 0) eq_refl)); cbn; lia. }
  assert (H3' : no_run (N.eqb 45) 3 t3 = true).
  { refine (proj1 (@sub_run_keeps_other_runs (N.eqb nl) (N.eqb 45) 2 3 nl [nl]
                      _ _ _ eq_refl eq_refl t2 None 0 H2)); try lia.
    intros c Hc. apply N.eqb_eq in Hc. subst c. reflexivity. }
  repeat split.
  - apply no_run_strip; [lia | exact H3'].
  - apply no_run_strip; [lia | exact H3].
  - apply strip_ends.
  - apply strip_ends.
Qed.

(** ** [process_to_word] *)

Lemma subseq_length (A : Type) (l r : list A) :
  subseq l r -> List.length l <= List.length r.
Proof.
  induction 1 as [|l r y H IH|l r y H IH]; rewrite ?length_app; cbn; lia.
Qed.

(** *** The name of the output file *)

Lemma split_no_slash (s : string) : no_slash s = true -> Pathlib.split s = [s].
Proof.
  unfold no_slash. induction s as [|c s IH]; [reflexivity|].
  cbn [list_ascii_of_string forallb Pathlib.split]. intros H.
  apply andb_true_iff in H. destruct H as [Hc Hs].
  apply negb_true_iff in Hc. rewrite Hc, (IH Hs). reflexivity.
Qed.

Lemma no_slash_app (a b : string) :
  no_slash (a ++ b) = no_slash a && no_slash b.
Proof.
  unfold no_slash. induction a as [|c a IH]; [reflexivity|].
  cbn [append list_ascii_of_string forallb]. now rewrite IH, andb_assoc.
Qed.

Lemma no_slash_nat (n : nat) : no_slash (nat_to_string n) = true.
Proof.
  unfold nat_to_string. induction (Nat.to_uint n) as [|u IH|u IH|u IH|u IH|u IH
                                                       |u IH|u IH|u IH|u IH|u IH];
    [reflexivity|..]; exact IH.
Qed.

Lemma append_assoc (a b c : string) : ((a ++ b) ++ c = a ++ (b ++ c))%string.
Proof. induction a as [|x a IH]; [reflexivity|]. cbn [append]. now rewrite IH. Qed.

Lemma concat_directory (ps : list string) (name : string) :
  String.concat "/" (ps ++ [name]) = (directory ps ++ name)%string.
Proof.
  induction ps as [|p ps IH]; [reflexivity|].
  cbn [app directory]. change (String.concat "/" (p :: ps ++ [name]))
    with (match ps ++ [name] with
          | [] => p
          | _ :: _ => (p ++ "/" ++ String.concat "/" (ps ++ [name]))%string
          end).
  rewrite IH. destruct (ps ++ [name]) as [|x l] eqn:E.
  - destruct ps; discriminate E.
  - now rewrite !append_assoc.
Qed.

Lemma to_str_file (r : string) (ps : list string) (name : string) :
  Pathlib.to_str {| Pathlib.p_root := r; Pathlib.p_parts := ps ++ [name] |}
  = (r ++ directory ps ++ name)%string.
Proof.
  unfold Pathlib.to_str. cbn [Pathlib.p_root Pathlib.p_parts].
  rewrite <- concat_directory.
  destruct r; [|reflexivity]. destruct ps; reflexivity.
Qed.

(** The path of the output file: the root of the output directory, its
    components each followed by a slash, and the file name. *)
Lemma output_file_name (output_dir : string) (n : nat) :
  Pathlib.to_str
    (Pathlib.joinpath (Pathlib.Path output_dir)
       ("processed_document_" ++ nat_to_string n ++ "_footnotes.docx"))
  = (Pathlib.root output_dir ++ directory (Pathlib.parts output_dir)
       ++ "processed_document_" ++ nat_to_string n ++ "_footnotes.docx")%string.
Proof.
  set (name := ("processed_document_" ++ nat_to_string n ++ "_footnotes.docx")%string).
  assert (Hparts : Pathlib.parts name = [name]).
  { unfold Pathlib.parts. rewrite split_no_slash.
    - reflexivity.
    - unfold name. rewrite !no_slash_app, no_slash_nat. reflexivity. }
  unfold Pathlib.joinpath. change (Pathlib.root name) with EmptyString. cbv iota.
  unfold Pathlib.Path. cbn [Pathlib.p_root Pathlib.p_parts].
  rewrite Hparts. apply to_str_file.
Qed.

Section ProcessToWord.
Context {D Sel : Type} {TD : Document D Sel}.
Variable mkdir : string -> exc unit.

(** X19. When no inline marker of the text carries a number that has a
    footnote (with an empty map in particular), the reinjection loop
    leaves the document as it is, records nothing and inserts nothing;
    the library is not called. *)
Theorem reinjection_without_defined_marker_does_nothing
  (main_text : str) (footnotes : Dict.dict) (d : D) :
  (forall n, In n (marker_nums main_text) -> Dict.contains n footnotes = false) ->
  insert_footnotes main_text footnotes d
  = inr {| WordExport.document := d; inserted_refs := []; inserted := [] |}.
Proof.
  intros H. unfold insert_footnotes. apply insert_loop_passes_undefined.
  intros m Hm. apply H. unfold marker_nums. now apply in_map.
Qed.

(** The outcome of the [try] block, when it ends well. *)
Lemma process_to_word_body_ok (markdown_content : str) (output_dir language : string)
  (r : word_result) (st : loop_state (D := D)) :
  process_to_word_body mkdir markdown_content output_dir language = inr (r, st) ->
  mkdir output_dir = inr tt
  /\ exists d,
    AppendText (main_text_of markdown_content) = inr d
    /\ insert_footnotes (main_text_of markdown_content)
         (extract_footnotes (clean_markdown_text markdown_content)) d = inr st
    /\ r = {| word_file :=
                Pathlib.to_str
                  (Pathlib.joinpath (Pathlib.Path output_dir)
                     ("processed_document_"
                        ++ nat_to_string (List.length (inserted_refs st))
                        ++ "_footnotes.docx"));
              footnotes_count := List.length (inserted_refs st);
              total_footnotes_detected :=
                List.length (extract_footnotes (clean_markdown_text markdown_content));
              language :=
                if String.eqb language "rtl"
                   || (String.eqb language "auto"
                       && detect_arabic_text (main_text_of markdown_content))
                then "rtl"%string else "ltr"%string |}.
Proof.
  unfold process_to_word_body. fold (main_text_of markdown_content).
  destruct (mkdir output_dir) as [e|[]]; [discriminate|]. cbn [bind].
  destruct (AppendText (main_text_of markdown_content)) as [e|d]; [discriminate|].
  cbn [bind].
  destruct (insert_footnotes (main_text_of markdown_content)
              (extract_footnotes (clean_markdown_text markdown_content)) d)
    as [e|st'] eqn:Hins; [discriminate|].
  cbn [bind].
  destruct (SaveToFile (WordExport.document st') _) as [e|[]]; [discriminate|].
  cbn [bind]. intros [= <- <-]. split; [reflexivity|]. exists d.
  split; [reflexivity | split; [exact Hins | reflexivity]].
Qed.

(** X20. When [process_to_word] succeeds, [footnotes_count] is the
    number of distinct reference numbers among the inline markers of the
    main text that have a footnote in the map, whether or not the document
    located them; the footnotes actually inserted are at most that many,
    and it is at most [total_footnotes_detected], the number of distinct
    numbers of the footnote lines; the file is named after
    [footnotes_count] and stands in the output directory, whose path is
    normalised: its root, its components each followed by one slash, then
    the file name. *)
Theorem word_result_counts
  (markdown_content : str) (output_dir language : string)
  (r : word_result) (st : loop_state (D := D)) :
  process_to_word_body mkdir markdown_content output_dir language = inr (r, st) ->
  footnotes_count r
  = List.length
      (first_occurrences
         (filter (fun n => Dict.contains n
                             (extract_footnotes (clean_markdown_text markdown_content)))
            (marker_nums (main_text_of markdown_content))))
  /\ List.length (inserted st) <= footnotes_count r
  /\ footnotes_count r <= total_footnotes_detected r
  /\ total_footnotes_detected r
     = List.length
         (first_occurrences
            (map (group 1 (clean_markdown_text markdown_content))
               (finditer footnote_pattern (clean_markdown_text markdown_content))))
  /\ word_file r
     = (Pathlib.root output_dir ++ directory (Pathlib.parts output_dir)
          ++ "processed_document_" ++ nat_to_string (footnotes_count r)
          ++ "_footnotes.docx")%string.
Proof.
  intros H. apply process_to_word_body_ok in H.
  destruct H as (_ & d & _ & Hins & ->).
  cbn [footnotes_count total_footnotes_detected word_file].
  apply insert_footnotes_invariant in Hins.
  destruct Hins as (Hrefs & Hsub & _).
  set (footnotes := extract_footnotes (clean_markdown_text markdown_content)) in *.
  split; [now rewrite Hrefs|].
  split; [rewrite <- (length_map i_num); now apply subseq_length|].
  split.
  - rewrite <- (length_map fst footnotes). apply NoDup_incl_length.
    + rewrite Hrefs. apply first_occurrences_NoDup.
    + intros n Hn. rewrite Hrefs in Hn.
      apply (proj1 (first_occurrences_In _ _)) in Hn.
      apply filter_In in Hn. destruct Hn as [_ Hn].
      rewrite <- mem_keys in Hn. apply mem_In in Hn. exact Hn.
  - split; [|apply output_file_name].
    rewrite <- (length_map fst footnotes). fold (keys footnotes). subst footnotes.
    unfold extract_footnotes.
    now rewrite (keys_fold_set (group 1 (clean_markdown_text markdown_content))
                   (fun m => strip (group 2 (clean_markdown_text markdown_content) m))).
Qed.

(** X21. When [process_to_word] succeeds, the direction it reports is
    "rtl" for the language "rtl", whatever the text; "ltr" for every
    language other than "rtl" and "auto" ("ltr" in particular), whatever
    the text; and for "auto" it is "rtl" exactly when the main text holds
    a character of the Arabic block. *)
Theorem word_result_language
  (markdown_content : str) (output_dir language_ : string)
  (r : word_result) (st : loop_state (D := D)) :
  process_to_word_body mkdir markdown_content output_dir language_ = inr (r, st) ->
  (language_ = "rtl"%string -> language r = "rtl"%string)
  /\ (language_ <> "rtl"%string -> language_ <> "auto"%string ->
      language r = "ltr"%string)
  /\ (language_ = "auto"%string ->
      language r = if detect_arabic_text (main_text_of markdown_content)
                   then "rtl"%string else "ltr"%string).
Proof.
  intros H. apply process_to_word_body_ok in H.
  destruct H as (_ & d & _ & _ & ->). cbn [language].
  split; [|split].
  - intros ->. reflexivity.
  - intros H1 H2. apply String.eqb_neq in H1, H2. now rewrite H1, H2.
  - intros ->. reflexivity.
Qed.


End ProcessToWord.

Lemma reinjection_without_defined_marker_does_nothing_witness :
  insert_footnotes (TD := RangeDoc.literal) three_markers []
    [RangeDoc.TextRange three_markers]
  = inr {| WordExport.document := [RangeDoc.TextRange three_markers];
           inserted_refs := []; inserted := [] |}.
Proof.
  apply (@reinjection_without_defined_marker_does_nothing
           _ _ RangeDoc.literal three_markers []).
  intros n _. reflexivity.
Defined.

Lemma word_result_counts_witness :
  exists r st,
    process_to_word_body (TD := RangeDoc.literal) makes_directory see_note "outputs" "auto"
    = inr (r, st)
    /\ List.length (inserted st) <= footnotes_count r
    /\ footnotes_count r <= total_footnotes_detected r.
Proof.
  destruct (process_to_word_body (TD := RangeDoc.literal) makes_directory see_note "outputs" "auto")
    as [e|[r st]] eqn:E.
  - vm_compute in E. discriminate E.
  - exists r, st. split; [reflexivity|].
    destruct (@word_result_counts _ _ RangeDoc.literal makes_directory
                see_note "outputs" "auto" r st E) as (_ & H1 & H2 & _).
    split; assumption.
Defined.

Lemma word_result_language_witness :
  exists r st,
    process_to_word_body (TD := RangeDoc.literal) makes_directory
      arabic_note "outputs" "ltr"
    = inr (r, st)
    /\ language r = "ltr"%string.
Proof.
  destruct (process_to_word_body (TD := RangeDoc.literal) makes_directory
              arabic_note "outputs" "ltr")
    as [e|[r st]] eqn:E.
  - vm_compute in E. discriminate E.
  - exists r, st. split; [reflexivity|].
    apply (@word_result_language _ _ RangeDoc.literal makes_directory
             arabic_note "outputs" "ltr" r st E); discriminate.
Defined.


Lemma sub_empty_pattern (t : str) :
  forall prev, sub_from [] [] prev t 0 = t.
Proof.
  induction t as [|x t IH]; intros prev; [reflexivity|].
  cbn [sub_from exec app]. now rewrite IH.
Qed.

(** X23. A footnote whose body is empty removes nothing: with a map that
    holds only empty bodies, [remove_footnote_content_from_main] is the
    clean-up of the text alone. *)
Theorem empty_bodies_remove_nothing (text : str) (footnotes : Dict.dict) :
  (forall item, In item footnotes -> snd item = []) ->
  remove_footnote_content_from_main text footnotes = clean_up text.
Proof.
  intros H.
  change (remove_footnote_content_from_main text footnotes)
    with (clean_up (fold_left
                      (fun cleaned_text item => sub (escape (snd item)) [] cleaned_text)
                      footnotes text)).
  f_equal. revert text. induction footnotes as [|item footnotes IH]; intros text.
  - reflexivity.
  - cbn [fold_left]. rewrite (H item (or_introl eq_refl)).
    change (sub (escape []) [] text) with (sub_from [] [] None text 0).
    rewrite sub_empty_pattern. apply IH. intros i Hi. apply H. now right.
Qed.

Lemma empty_bodies_remove_nothing_witness :
  remove_footnote_content_from_main two_spaces [(py "1", [])] = clean_up two_spaces.
Proof.
  apply (@empty_bodies_remove_nothing two_spaces [(py "1", [])]).
  intros item [<-|[]]. reflexivity.
Defined.

(** X24. Every footnote the reinjection loop inserts is well formed: its
    number is a non-empty string of decimal digits, the marker text handed
    to the document is "(" and ")" around that number with nothing but
    white space beside it, and its body is the body the map holds under
    the number. *)
Theorem inserted_footnotes_are_well_formed
  (D Sel : Type) (TD : Document D Sel)
  (main_text : str) (footnotes : Dict.dict) (d : D) (st : loop_state (D := D))
  (ins : insertion) :
  insert_footnotes main_text footnotes d = inr st ->
  In ins (inserted st) ->
  forallb isdecimal (i_num ins) = true
  /\ 1 <= List.length (i_num ins)
  /\ (exists ws ws' : str,
        i_marker ins = 40%N :: ws ++ i_num ins ++ ws' ++ [41%N]
        /\ forallb isspace ws = true /\ forallb isspace ws' = true)
  /\ Dict.get (i_num ins) footnotes = Some (i_body ins).
Proof.
  intros H Hin. apply insert_footnotes_invariant in H.
  destruct H as (_ & _ & H). destruct (H ins Hin) as [Hfirst Hget].
  destruct Hfirst as (ms1 & m & ms2 & E & Hnum & _ & Hmarker).
  assert (Hm : In m (finditer inline_ref_pattern main_text)).
  { rewrite E. apply in_app_iff. right. now left. }
  destruct (inline_match_groups main_text m Hm) as (ws & ws' & G0 & Hws & Hws' & Hds & Hlen).
  rewrite Hnum in *. rewrite <- Hmarker in G0.
  split; [exact Hds|]. split; [exact Hlen|]. split; [|exact Hget].
  exists ws, ws'. repeat split; assumption.
Qed.

Lemma inserted_footnotes_are_well_formed_witness :
  forallb isdecimal (py "2") = true.
Proof.
  apply (@inserted_footnotes_are_well_formed _ _ RangeDoc.literal three_markers
           [(py "2", py "note")] [RangeDoc.TextRange three_markers]
           {| WordExport.document :=
                [RangeDoc.TextRange (py "x "); RangeDoc.TextRange (py "(2)");
                 RangeDoc.Footnote (py "note");
                 RangeDoc.TextRange (py " y (2) z (2)")];
              inserted_refs := [py "2"];
              inserted := [{| i_num := py "2"; i_marker := py "(2)";
                              i_body := py "note" |}] |}
           {| i_num := py "2"; i_marker := py "(2)"; i_body := py "note" |}).
  - vm_compute. reflexivity.
  - left. reflexivity.
Defined.

(** X25. In a text without "(" nothing is a footnote line and nothing is
    an inline marker: extraction returns the empty map, the marker scan
    finds no number, and stripping is the clean-up of the text alone. *)
Theorem text_without_parenthesis_has_no_footnote (text : str) :
  ~ In 40%N text ->
  extract_footnotes text = []
  /\ marker_nums text = []
  /\ remove_footnote_content_from_main text (extract_footnotes text) = clean_up text.
Proof.
  intros Hno.
  assert (E1 : finditer footnote_pattern text = []).
  { apply no_match_no_finditer. intros m Hm.
    destruct (footnote_match_groups text m Hm)
      as (pre & ws & ws' & body & rest & E & _).
    apply Hno. rewrite E. rewrite !in_app_iff. right. right. now left. }
  assert (E2 : finditer inline_ref_pattern text = []).
  { apply no_match_no_finditer. intros m Hm.
    apply finditer_from_In in Hm.
    destruct Hm as (pre & s' & prev' & mk & E & _ & _ & He).
    apply inline_match_shape in He.
    destruct He as (ws & ds & ws' & rest & -> & _).
    apply Hno. rewrite E. rewrite in_app_iff. right. now left. }
  unfold extract_footnotes, marker_nums. rewrite E1, E2. repeat split.
Qed.

Lemma text_without_parenthesis_has_no_footnote_witness :
  extract_footnotes two_spaces = [].
Proof.
  apply (@text_without_parenthesis_has_no_footnote two_spaces).
  cbn. intros [H|[H|[H|[H|[]]]]]; discriminate H.
Defined.

Lemma count_pages_same_sample (doc doc' : document) (total_pages : nat)
  (idxs : list nat) :
  (forall idx, In idx idxs -> load_page doc idx = load_page doc' idx) ->
  forall c, count_pages doc total_pages idxs c = count_pages doc' total_pages idxs c.
Proof.
  induction idxs as [|idx idxs IH]; intros H c; [reflexivity|].
  cbn [count_pages]. rewrite <- (H idx (or_introl eq_refl)).
  destruct (total_pages <=? idx); [apply IH; intros i Hi; apply H; now right|].
  destruct (load_page doc idx) as [e|p]; [reflexivity|]. cbn [bind].
  apply IH. intros i Hi. apply H. now right.
Qed.

(** X26. Only the sampled pages decide the class: two documents with the
    same number of pages and the same pages at the sampled indices get the
    same class, whatever their other pages are. *)
Theorem unsampled_pages_do_not_matter
  (fs fs' : filesystem) (file_path file_path' : string) (doc doc' : document) :
  fs file_path = Some (Pdf doc) -> fs' file_path' = Some (Pdf doc') ->
  List.length doc = List.length doc' ->
  (forall idx, In idx (sample_indices (List.length doc)) ->
               load_page doc idx = load_page doc' idx) ->
  detect_pdf_type fs file_path = detect_pdf_type fs' file_path'.
Proof.
  intros Hfile Hfile' Hlen Hsame.
  unfold detect_pdf_type, detect_pdf_type_body, open.
  rewrite Hfile, Hfile'. cbn [bind]. unfold sample_ratios. rewrite <- Hlen.
  now rewrite (count_pages_same_sample doc doc' _ _ Hsame).
Qed.

Lemma sample_indices_start (pages : nat) : nth 0 (sample_indices pages) 0 = 0.
Proof.
  rewrite sample_indices_nth by (pose proof (sample_size_bounds pages); lia).
  cbn [Nat.mul]. apply Nat.Div0.div_0_l.
Qed.

(** X27. The sampled indices start at page 0 and, for a document with
    pages, increase strictly: the sample is taken in page order. *)
Theorem sample_starts_at_first_page_and_increases (pages i j : nat) :
  1 <= pages -> i < j -> j < sample_size pages ->
  nth 0 (sample_indices pages) 0 = 0
  /\ nth i (sample_indices pages) 0 < nth j (sample_indices pages) 0.
Proof.
  intros HP Hij Hj. split; [apply sample_indices_start|].
  rewrite !sample_indices_nth by lia.
  apply sample_index_monotone;
    [apply sample_size_bounds | now apply sample_size_le_pages | exact Hij].
Qed.

Lemma sample_starts_at_first_page_and_increases_witness :
  nth 0 (sample_indices 65) 0 = 0
  /\ nth 1 (sample_indices 65) 0 < nth 2 (sample_indices 65) 0.
Proof.
  apply (@sample_starts_at_first_page_and_increases 65 1 2); cbn; lia.
Defined.

Lemma unsampled_pages_do_not_matter_witness :
  detect_pdf_type (two_files sixty_scanned) "book.pdf"
  = detect_pdf_type (two_files sixty_scanned_but_one) "book.pdf".
Proof.
  apply (@unsampled_pages_do_not_matter
           (two_files sixty_scanned) (two_files sixty_scanned_but_one)
           "book.pdf" "book.pdf" sixty_scanned sixty_scanned_but_one);
    try reflexivity.
  intros idx Hin. vm_compute in Hin.
  destruct Hin as [<-|[<-|[<-|[]]]]; reflexivity.
Defined.
